(** * The command layer of the economy bot ([bot_commands.py])

    A shallow embedding of the command registry, the argument parser, the
    dispatcher [run_command] and the command handlers, together with the
    properties of the dispatch core.

    Conventions.
    - A Python [str] is a [string]; every character stands for one code
      point below 256.  Lines with code points above 255 are outside the
      model.
    - Python values are dynamically typed: they are embedded in [Value].
    - The [accounting] and [commands] modules are not part of this file's
      source; they are the interface [Accounting] below.
    - Floats are not computed.  The division of two integers into a float,
      which raises [OverflowError] when the quotient is out of range, and
      the operations on its results are part of the same interface. *)

From Stdlib Require Import ZArith QArith Qreduction String Ascii List Bool Lia.
From Stdlib Require Import Permutation Sorted DecimalString DecimalZ Lqa.
From Stdlib Require OrderedTypeEx.
From stdpp Require Import base list strings.

Import ListNotations.
Local Open Scope string_scope.
Local Open Scope list_scope.
Local Open Scope nat_scope.

#[local] Set Warnings "-register-all".

(** ** Exceptions and values *)

(** The exception classes that [run_command] distinguishes, the built-in
    ones that escape it, and [OtherException] for any other class.  The four
    [commands.*CommandException] classes are taken to be unrelated to one
    another and to the built-in [ValueError] and [KeyError], as the separate
    [except] clauses of [run_command] assume. *)
Inductive ExnKind : Set :=
  | ValueError | KeyError | IndexError | TypeError
  | ZeroDivisionError | AttributeError | OverflowError
  | ValueCommandException | AccountCommandException
  | UnauthorizedCommandException | ProcessCommandException
  | OtherException.

(** A raised exception: its class and [str(e)]. *)
Record Exn : Set := mkExn { kind : ExnKind; text : string }.

(** An object of the [accounting] package (an account id, an account, an
    authorization level, a recurring transfer, a farm): an opaque
    reference. *)
Definition Obj : Set := N.

Inductive Value : Set :=
  | VNone
  | VBool (b : bool)
  | VInt (z : Z)
  | VFrac (q : Q)
  | VStr (s : string)
  | VObj (o : Obj)
  | VList (l : list Value)
  | VDict (d : list (string * Value)).

(** ** Python strings *)

Module Py.

Definition code (c : ascii) : nat := nat_of_ascii c.

Definition chr (n : nat) : string := String (ascii_of_nat n) EmptyString.

(** ["\n"], ["'"], the double quote and the backslash. *)
Definition nl : string := chr 10.
Definition squote : ascii := ascii_of_nat 39.
Definition dquote : ascii := ascii_of_nat 34.
Definition backslash : ascii := ascii_of_nat 92.

(** [str.isspace] on one character: the code points below 256 that CPython
    classifies as whitespace (tab to carriage return, the four separators
    0x1c-0x1f, space, NEL and the no-break space). *)
Definition is_space (c : ascii) : bool :=
  let n := code c in
  ((9 <=? n) && (n <=? 13)) || ((28 <=? n) && (n <=? 32))
  || (n =? 133) || (n =? 160).

Definition is_digit (c : ascii) : bool :=
  let n := code c in (48 <=? n) && (n <=? 57).

(** [s.split()]: the maximal runs of non-whitespace characters, in order. *)
Fixpoint split (s : string) : list string :=
  match s with
  | EmptyString => []
  | String c s' =>
      if is_space c then split s'
      else match s' with
           | EmptyString => [String c EmptyString]
           | String c' _ =>
               if is_space c' then String c EmptyString :: split s'
               else match split s' with
                    | t :: ts => String c t :: ts
                    | [] => [String c EmptyString]
                    end
           end
  end.

(** [sep.join(l)] *)
Fixpoint join (sep : string) (l : list string) : string :=
  match l with
  | [] => EmptyString
  | [x] => x
  | x :: l' => x +:+ sep +:+ join sep l'
  end.

(** [s.isspace()]: non-empty and all whitespace. *)
Fixpoint all_space (s : string) : bool :=
  match s with
  | EmptyString => true
  | String c s' => is_space c && all_space s'
  end.

Definition isspace (s : string) : bool :=
  match s with EmptyString => false | _ => all_space s end.

Fixpoint lstrip (s : string) : string :=
  match s with
  | EmptyString => EmptyString
  | String c s' => if is_space c then lstrip s' else s
  end.

Fixpoint rstrip (s : string) : string :=
  match s with
  | EmptyString => EmptyString
  | String c s' =>
      match rstrip s' with
      | EmptyString => if is_space c then EmptyString else String c EmptyString
      | r => String c r
      end
  end.

(** [s.strip()] *)
Definition strip (s : string) : string := rstrip (lstrip s).

(** [s.lower()] on code points below 256: the ASCII capitals and the
    Latin-1 capitals 0xC0-0xDE (the multiplication sign 0xD7 apart). *)
Definition lower_char (c : ascii) : ascii :=
  let n := code c in
  if ((65 <=? n) && (n <=? 90))
     || ((192 <=? n) && (n <=? 222) && negb (n =? 215))
  then ascii_of_nat (n + 32) else c.

Fixpoint lower (s : string) : string :=
  match s with
  | EmptyString => EmptyString
  | String c s' => String (lower_char c) (lower s')
  end.

(** [s.splitlines()]: the line boundaries below code point 256 are
    LF, CR, CR LF, VT, FF, FS, GS, RS and NEL. *)
Definition is_linebreak (c : ascii) : bool :=
  let n := code c in
  ((10 <=? n) && (n <=? 13)) || ((28 <=? n) && (n <=? 30)) || (n =? 133).

Fixpoint splitlines_from (line : string) (s : string) : list string :=
  match s with
  | EmptyString => match line with EmptyString => [] | _ => [line] end
  | String c s' =>
      if is_linebreak c then
        match s' with
        | String c' s'' =>
            if (code c =? 13) && (code c' =? 10)
            then line :: splitlines_from EmptyString s''
            else line :: splitlines_from EmptyString s'
        | EmptyString => [line]
        end
      else splitlines_from (line +:+ String c EmptyString) s'
  end.

Definition splitlines (s : string) : list string :=
  splitlines_from EmptyString s.

Fixpoint repeat_char (c : ascii) (n : nat) : string :=
  match n with
  | O => EmptyString
  | S n' => String c (repeat_char c n')
  end.

(** The format specs [:<w] and [:>w] on a string. *)
Definition ljust (w : nat) (s : string) : string :=
  s +:+ repeat_char " " (w - String.length s).

Definition rjust (w : nat) (s : string) : string :=
  repeat_char " " (w - String.length s) +:+ s.

(** [str(z)] for an [int]. *)
Definition str_int (z : Z) : string := NilZero.string_of_int (Z.to_int z).

Fixpoint contains (c : ascii) (s : string) : bool :=
  match s with
  | EmptyString => false
  | String c' s' => Ascii.eqb c c' || contains c s'
  end.

Definition hex_digit (n : nat) : ascii :=
  if n <? 10 then ascii_of_nat (48 + n) else ascii_of_nat (87 + n).

(** Whether [repr] prints the character as it is. *)
Definition is_printable (c : ascii) : bool :=
  let n := code c in
  ((32 <=? n) && (n <=? 126)) || ((161 <=? n) && negb (n =? 173)).

Definition repr_char (quote : ascii) (c : ascii) : string :=
  let n := code c in
  if Ascii.eqb c quote || Ascii.eqb c backslash
  then String backslash (String c EmptyString)
  else if n =? 9 then String backslash "t"
  else if n =? 10 then String backslash "n"
  else if n =? 13 then String backslash "r"
  else if is_printable c then String c EmptyString
  else String backslash
         (String "x" (String (hex_digit (n / 16))
                        (String (hex_digit (n mod 16)) EmptyString))).

Fixpoint repr_body (quote : ascii) (s : string) : string :=
  match s with
  | EmptyString => EmptyString
  | String c s' => repr_char quote c +:+ repr_body quote s'
  end.

(** [repr(s)] for a [str]: single quotes, unless the string holds a single
    quote and no double quote. *)
Definition repr (s : string) : string :=
  let quote := if contains squote s && negb (contains dquote s)
               then dquote else squote in
  String quote (repr_body quote s +:+ String quote EmptyString).

(** *** [int(s)] *)

(** Removes the digit-group underscores of an integer literal; [None] when
    an underscore does not stand between two digits. *)
Fixpoint drop_underscores (after_digit : bool) (s : string) : option string :=
  match s with
  | EmptyString => Some EmptyString
  | String c s' =>
      if Ascii.eqb c "_" then
        match s' with
        | String c' _ =>
            if after_digit && is_digit c' then drop_underscores false s'
            else None
        | EmptyString => None
        end
      else option_map (String c) (drop_underscores (is_digit c) s')
  end.

(** Splits an optional sign off: whether it is a minus, and what follows. *)
Definition split_sign (s : string) : bool * string :=
  match s with
  | String "-" s' => (true, s')
  | String "+" s' => (false, s')
  | _ => (false, s)
  end.

Definition int (s : string) : Exn + Z :=
  let bad := inl (mkExn ValueError
                    ("invalid literal for int() with base 10: " +:+ repr s)) in
  let '(neg, body) := split_sign (strip s) in
  match drop_underscores false body with
  | Some (String c ds) =>
      match NilEmpty.uint_of_string (String c ds) with
      | Some u => inr (if neg then (- Z.of_uint u)%Z else Z.of_uint u)
      | None => bad
      end
  | _ => bad
  end.

(** *** [Fraction(s)]

    The literal grammar of the [fractions] module of CPython 3.8 to 3.10:
    an optional sign, then digits with an optional [/digits], or a decimal
    with an optional fractional part and exponent.  (Later versions accept
    digit-group underscores as well.) *)

Fixpoint span_digits (s : string) : string * string :=
  match s with
  | String c s' =>
      if is_digit c then let '(d, r) := span_digits s' in (String c d, r)
      else (EmptyString, s)
  | EmptyString => (EmptyString, EmptyString)
  end.

(** [int(d or '0')] on a run of digits. *)
Definition digits_value (d : string) : Z :=
  match NilEmpty.uint_of_string d with
  | Some u => Z.of_uint u
  | None => 0%Z
  end.

Definition pow10 (n : Z) : Z := (10 ^ n)%Z.

(** The exponent part [E[-+]?\d+] up to the end of the literal. *)
Definition exponent (s : string) : option Z :=
  match s with
  | String e s' =>
      if Ascii.eqb e "e" || Ascii.eqb e "E" then
        let '(neg, ds) := split_sign s' in
        match span_digits ds with
        | (String c d, EmptyString) =>
            let v := digits_value (String c d) in
            Some (if neg then (- v)%Z else v)
        | _ => None
        end
      else None
  | EmptyString => None
  end.

Definition Fraction (s : string) : Exn + Q :=
  let bad := inl (mkExn ValueError
                    ("Invalid literal for Fraction: " +:+ repr s)) in
  let '(neg, t1) := split_sign (strip s) in
  let lookahead :=
    match t1 with
    | String c r =>
        is_digit c
        || (Ascii.eqb c "."
            && match r with String c' _ => is_digit c' | _ => false end)
    | EmptyString => false
    end in
  let finish (numerator denominator : Z) : Exn + Q :=
    let numerator := if neg then (- numerator)%Z else numerator in
    if (denominator =? 0)%Z
    then inl (mkExn ZeroDivisionError
                ("Fraction(" +:+ str_int numerator +:+ ", 0)"))
    else inr (Qred (numerator # Z.to_pos denominator)) in
  if negb lookahead then bad else
  let '(num, t2) := span_digits t1 in
  let numerator := digits_value num in
  match t2 with
  | EmptyString => finish numerator 1%Z
  | String "/" t3 =>
      match span_digits t3 with
      | (String c d, EmptyString) => finish numerator (digits_value (String c d))
      | _ => bad
      end
  | _ =>
      let '(decimal, t3) :=
        match t2 with
        | String "." r => span_digits r
        | _ => (EmptyString, t2)
        end in
      let scale := pow10 (Z.of_nat (String.length decimal)) in
      let numerator := (numerator * scale + digits_value decimal)%Z in
      let denominator := scale in
      match t3 with
      | EmptyString => finish numerator denominator
      | _ =>
          match exponent t3 with
          | Some exp =>
              if (0 <=? exp)%Z
              then finish (numerator * pow10 exp)%Z denominator
              else finish numerator (denominator * pow10 (- exp))%Z
          | None => bad
          end
      end
  end.

(** [str(f)] for a [Fraction]. *)
Definition str_Fraction (q : Q) : string :=
  let q := Qred q in
  if (Zpos (Qden q) =? 1)%Z then str_int (Qnum q)
  else str_int (Qnum q) +:+ "/" +:+ str_int (Zpos (Qden q)).

(** *** [sorted(l, key=key, reverse=reverse)]

    [list.sort] compares keys with [<] only and is stable.  With
    [reverse=True] it reverses the list, sorts it, and reverses the result,
    which keeps equal keys in their original order. *)

Section Sorted.

Context {A K : Type} (key : A -> K) (lt : K -> K -> bool).

(** Inserts [x] behind the elements that are not greater than it. *)
Fixpoint insert (x : A) (l : list A) : list A :=
  match l with
  | [] => [x]
  | y :: l' => if lt (key x) (key y) then x :: l else y :: insert x l'
  end.

Definition sort (l : list A) : list A :=
  fold_left (fun acc x => insert x acc) l [].

Definition sorted (reverse : bool) (l : list A) : list A :=
  if reverse then rev (sort (rev l)) else sort l.

End Sorted.

(** [enumerate(l)] *)
Definition enumerate {A : Type} (l : list A) : list (nat * A) :=
  combine (seq 0 (length l)) l.

(** [p < q] on [Fraction]s. *)
Definition Qlt_bool (p q : Q) : bool := negb (Qle_bool q p).

End Py.

(** ** Commands and the registry *)

(** The coercion functions stored in the [args] dictionaries: [Fraction],
    [int], [str], [parse_account_id], and the two lambdas of [leader-board]
    and [authorize]. *)
Inductive Coercion : Set :=
  | CFraction | Cint | Cstr | Cparse_account_id
  | Clambda_limit | Clambda_level.

(** References to the handler functions of the module. *)
Inductive Func : Set :=
  | fn_name | fn_transfer | fn_adm_transfer | fn_open_account | fn_set_public
  | fn_leader_board | fn_adm_open_account | fn_freeze_account
  | fn_unfreeze_account | fn_balance | fn_full_balance | fn_money_supply
  | fn_add_public_key | fn_list_accounts | fn_print_money | fn_remove_funds
  | fn_create_recurring_transfer | fn_admin_create_recurring_transfer
  | fn_proxy | fn_proxy_dsa | fn_request_alias | fn_add_alias
  | fn_admin_add_proxy | fn_admin_remove_proxy | fn_delete_account
  | fn_add_tax_bracket | fn_remove_tax_bracket | fn_force_tax
  | fn_toggle_auto_tax | fn_force_ticks | fn_shoot_account | fn_set_gun_price
  | fn_set_vest_price | fn_buy_gun | fn_buy_vest | fn_gun_balance
  | fn_vest_balance | fn_buy_farm | fn_set_farm_type_cost
  | fn_set_farm_type_duration | fn_set_farm_type_returns | fn_farm_balance
  | fn_authorize | fn_help.

(** [f.__name__] *)
Definition func_name (f : Func) : string :=
  match f with
  | fn_name => "_name"
  | fn_transfer => "_transfer"
  | fn_adm_transfer => "_adm_transfer"
  | fn_open_account => "_open_account"
  | fn_set_public => "_set_public"
  | fn_leader_board => "_leader_board"
  | fn_adm_open_account => "_adm_open_account"
  | fn_freeze_account => "_freeze_account"
  | fn_unfreeze_account => "_unfreeze_account"
  | fn_balance => "_balance"
  | fn_full_balance => "_full_balance"
  | fn_money_supply => "_money_supply"
  | fn_add_public_key => "_add_public_key"
  | fn_list_accounts => "_list_accounts"
  | fn_print_money => "_print_money"
  | fn_remove_funds => "_remove_funds"
  | fn_create_recurring_transfer => "_create_recurring_transfer"
  | fn_admin_create_recurring_transfer => "_admin_create_recurring_transfer"
  | fn_proxy => "_proxy"
  | fn_proxy_dsa => "_proxy_dsa"
  | fn_request_alias => "_request_alias"
  | fn_add_alias => "_add_alias"
  | fn_admin_add_proxy => "_admin_add_proxy"
  | fn_admin_remove_proxy => "_admin_remove_proxy"
  | fn_delete_account => "_delete_account"
  | fn_add_tax_bracket => "_add_tax_bracket"
  | fn_remove_tax_bracket => "_remove_tax_bracket"
  | fn_force_tax => "_force_tax"
  | fn_toggle_auto_tax => "_toggle_auto_tax"
  | fn_force_ticks => "_force_ticks"
  | fn_shoot_account => "_shoot_account"
  | fn_set_gun_price => "_set_gun_price"
  | fn_set_vest_price => "_set_vest_price"
  | fn_buy_gun => "_buy_gun"
  | fn_buy_vest => "_buy_vest"
  | fn_gun_balance => "_gun_balance"
  | fn_vest_balance => "_vest_balance"
  | fn_buy_farm => "_buy_farm"
  | fn_set_farm_type_cost => "_set_farm_type_cost"
  | fn_set_farm_type_duration => "_set_farm_type_duration"
  | fn_set_farm_type_returns => "_set_farm_type_returns"
  | fn_farm_balance => "_farm_balance"
  | fn_authorize => "_authorize"
  | fn_help => "_help"
  end.

(** The positional parameters of [f], as its [def] lists them. *)
Definition func_params (f : Func) : list string :=
  match f with
  | fn_name => ["author"; "rest"; "server"]
  | fn_transfer => ["author"; "amount"; "destination"; "rest"; "server"]
  | fn_adm_transfer =>
      ["author"; "amount"; "source"; "destination"; "rest"; "server"]
  | fn_open_account => ["author"; "rest"; "server"]
  | fn_set_public => ["author"; "rest"; "server"]
  | fn_leader_board => ["author"; "limit"; "rest"; "server"]
  | fn_adm_open_account => ["author"; "account"; "rest"; "server"]
  | fn_freeze_account => ["author"; "account"; "rest"; "server"]
  | fn_unfreeze_account => ["author"; "account"; "rest"; "server"]
  | fn_balance => ["author"; "rest"; "server"]
  | fn_full_balance => ["author"; "rest"; "server"]
  | fn_money_supply => ["author"; "rest"; "server"]
  | fn_add_public_key => ["author"; "key"; "rest"; "server"]
  | fn_list_accounts => ["author"; "rest"; "server"]
  | fn_print_money => ["author"; "amount"; "account"; "rest"; "server"]
  | fn_remove_funds => ["author"; "amount"; "account"; "rest"; "server"]
  | fn_create_recurring_transfer =>
      ["author"; "amount"; "destination"; "tick_count"; "rest"; "server"]
  | fn_admin_create_recurring_transfer =>
      ["author"; "amount"; "source"; "destination";
       "tick_count"; "rest"; "server"]
  | fn_proxy => ["author"; "account"; "command"; "rest"; "server"]
  | fn_proxy_dsa =>
      ["author"; "account"; "signature"; "command"; "rest"; "server"]
  | fn_request_alias => ["author"; "alias"; "rest"; "server"]
  | fn_add_alias => ["author"; "account"; "request_code"; "rest"; "server"]
  | fn_admin_add_proxy => ["author"; "proxy"; "account"; "rest"; "server"]
  | fn_admin_remove_proxy => ["author"; "proxy"; "account"; "rest"; "server"]
  | fn_delete_account => ["author"; "account"; "rest"; "server"]
  | fn_add_tax_bracket =>
      ["author"; "start"; "rate"; "end"; "name"; "rest"; "server"]
  | fn_remove_tax_bracket => ["author"; "name"; "rest"; "server"]
  | fn_force_tax => ["author"; "rest"; "server"]
  | fn_toggle_auto_tax => ["author"; "rest"; "server"]
  | fn_force_ticks => ["author"; "ticks"; "rest"; "server"]
  | fn_shoot_account => ["author"; "victim"; "rest"; "server"]
  | fn_set_gun_price => ["author"; "price"; "rest"; "server"]
  | fn_set_vest_price => ["author"; "price"; "rest"; "server"]
  | fn_buy_gun => ["author"; "rest"; "server"]
  | fn_buy_vest => ["author"; "rest"; "server"]
  | fn_gun_balance => ["author"; "rest"; "server"]
  | fn_vest_balance => ["author"; "rest"; "server"]
  | fn_buy_farm => ["author_id"; "farm_name"; "rest"; "server"]
  | fn_set_farm_type_cost =>
      ["author_id"; "farm_name"; "new_cost"; "rest"; "server"]
  | fn_set_farm_type_duration =>
      ["author_id"; "farm_name"; "new_duration"; "rest"; "server"]
  | fn_set_farm_type_returns =>
      ["author_id"; "farm_name"; "new_returns"; "rest"; "server"]
  | fn_farm_balance => ["author"; "rest"; "server"]
  | fn_authorize => ["author"; "account"; "level"; "rest"; "server"]
  | fn_help => ["author"; "rest"; "server"]
  end.

(** The [args] dictionary of a command: parameter name to the pair
    (coercion, help text), in insertion order. *)
Definition ArgsDict : Set := list (string * (Coercion * string)).

(** An instance of the class [_Command].  [args] is a reference to a
    dictionary object: copies of a command share it. *)
Record _Command : Set := mk_Command {
  func : Func;
  args : nat;
  name : string;
  description : string
}.

(** The objects the module allocates while it loads, and its global
    dictionary [_commands], which maps a command name to a reference to a
    [_Command] object. *)
Record Store : Set := mkStore {
  dicts : list ArgsDict;
  objects : list _Command;
  _commands : list (string * nat)
}.

Definition empty_store : Store :=
  {| dicts := []; objects := []; _commands := [] |}.

(** [d[k]] and [d.update({k: v})] on an insertion-ordered dictionary. *)
Fixpoint dict_get {V : Type} (k : string) (d : list (string * V)) : option V :=
  match d with
  | [] => None
  | (k', v) :: d' => if String.eqb k k' then Some v else dict_get k d'
  end.

Fixpoint dict_update {V : Type} (k : string) (v : V) (d : list (string * V))
  : list (string * V) :=
  match d with
  | [] => [(k, v)]
  | (k', v') :: d' =>
      if String.eqb k k' then (k', v) :: d' else (k', v') :: dict_update k v d'
  end.

(** Evaluation of a dictionary display and of a call [_Command(...)]: a
    fresh object. *)
Definition new_dict (d : ArgsDict) (st : Store) : nat * Store :=
  (length (dicts st),
   {| dicts := dicts st ++ [d]; objects := objects st;
      _commands := _commands st |}).

Definition new_Command (c : _Command) (st : Store) : nat * Store :=
  (length (objects st),
   {| dicts := dicts st; objects := objects st ++ [c];
      _commands := _commands st |}).

(** [self.copy()] *)
Definition copy (self : nat) (st : Store) : option (nat * Store) :=
  match objects st !! self with
  | Some c =>
      Some (new_Command
              {| func := func c; args := args c; name := name c;
                 description := description c |} st)
  | None => None
  end.

(** The assignments [cmd.name = n] and [cmd.description = d]. *)
Definition set_name (cmd : nat) (n : string) (st : Store) : Store :=
  match objects st !! cmd with
  | Some c =>
      {| dicts := dicts st;
         objects := <[cmd := {| func := func c; args := args c; name := n;
                                description := description c |}]> (objects st);
         _commands := _commands st |}
  | None => st
  end.

Definition set_description (cmd : nat) (d : string) (st : Store) : Store :=
  match objects st !! cmd with
  | Some c =>
      {| dicts := dicts st;
         objects := <[cmd := {| func := func c; args := args c;
                                name := name c; description := d |}]>
                      (objects st);
         _commands := _commands st |}
  | None => st
  end.

Definition _add_command (name : string) (args : nat) (func : Func)
  (description : string) (st : Store) : Store :=
  let '(cmd, st) :=
    new_Command {| func := func; args := args; name := name;
                   description := description |} st in
  {| dicts := dicts st; objects := objects st;
     _commands := dict_update name cmd (_commands st) |}.

(** [_alias(name, alias)].  The lookup [_commands[name]] raises [KeyError]
    for an unregistered name. *)
Definition _alias (name alias : string) (st : Store) : Exn + Store :=
  match dict_get name (_commands st) with
  | None => inl (mkExn KeyError (Py.repr name))
  | Some o =>
      match copy o st with
      | Some (cmd, st) =>
          let st := set_name cmd alias st in
          inr {| dicts := dicts st; objects := objects st;
                 _commands := dict_update alias cmd (_commands st) |}
      | None => inl (mkExn OtherException "dangling reference")
      end
  end.

(** [sorted(d.items(), key=lambda x: x[0])]: the keys compare as strings. *)
Definition sorted_items {V : Type} (d : list (string * V))
  : list (string * V) :=
  Py.sorted fst String.ltb false d.

(** The statements that the module executes on the registry while it
    loads. *)
Inductive Stmt : Set :=
  | AddCommand (name : string) (args : ArgsDict) (func : Func)
      (description : string)
  | Alias (name alias : string)
  | SortCommands.

Definition exec (stmt : Stmt) (st : Store) : Exn + Store :=
  match stmt with
  | AddCommand name args func description =>
      let '(d, st) := new_dict args st in
      inr (_add_command name d func description st)
  | Alias name alias => _alias name alias st
  | SortCommands =>
      inr {| dicts := dicts st; objects := objects st;
             _commands := sorted_items (_commands st) |}
  end.

Fixpoint exec_all (body : list Stmt) (st : Store) : Exn + Store :=
  match body with
  | [] => inr st
  | stmt :: body' =>
      match exec stmt st with
      | inr st' => exec_all body' st'
      | inl e => inl e
      end
  end.

Definition module_body : list Stmt :=
  [ AddCommand "name"
      []
      fn_name
      "Produces your real or hypothetical account ID";
    AddCommand "transfer"
      [ ("amount", (CFraction, "Amount to transfer"));
        ("destination", (Cparse_account_id, "Beneficiary to transfer to")) ]
      fn_transfer
      "Transfers an amount of money from your account to a beneficiary's";
    AddCommand "admin-transfer"
      [ ("amount", (CFraction, "Amount to transfer"));
        ("source", (Cparse_account_id, "Account from which the amount is sent"));
        ("destination", (Cparse_account_id, "Beneficiary to transfer to")) ]
      fn_adm_transfer
      "Transfers an amount of money from a source account to a beneficiary's";
    AddCommand "open"
      []
      fn_open_account
      "Opens a new account";
    AddCommand "toggle-public"
      []
      fn_set_public
      "toggle whether or not your account is public";
    AddCommand "leader-board"
      [ ("limit", (Clambda_limit, "the maximum number of accounts to display -1 for no limit")) ]
      fn_leader_board
      "view a list of all public accounts sorted by balance";
    Alias "leader-board" "lb";
    AddCommand "admin-open"
      [ ("account", (Cparse_account_id, "Account to open")) ]
      fn_adm_open_account
      "Open a new account for someone else";
    AddCommand "admin-freeze"
      [ ("account", (Cparse_account_id, "Account to freeze")) ]
      fn_freeze_account
      "Freeze an account";
    AddCommand "admin-unfreeze"
      [ ("account", (Cparse_account_id, "Account to unfreeze")) ]
      fn_unfreeze_account
      "Unfreeze an account";
    AddCommand "balance"
      []
      fn_balance
      "Print account balance";
    Alias "balance" "bal";
    AddCommand "full-balance"
      []
      fn_full_balance
      "Print un-rounded balance";
    Alias "full-balance" "full-bal";
    AddCommand "money-supply"
      []
      fn_money_supply
      "Print the total money supply";
    AddCommand "add-public-key"
      [ ("key", (Cstr, "Key to use")) ]
      fn_add_public_key
      "Adds a public key to your account";
    AddCommand "list"
      []
      fn_list_accounts
      "List all accounts";
    Alias "list" "ls";
    AddCommand "print-money"
      [ ("amount", (CFraction, "Amount to print"));
        ("account", (Cparse_account_id, "Account to print to")) ]
      fn_print_money
      "Print amount of money to account";
    AddCommand "remove-funds"
      [ ("amount", (CFraction, "Amount to delete"));
        ("account", (Cparse_account_id, "Account to print to")) ]
      fn_remove_funds
      "Deletes fund from an account";
    AddCommand "create-recurring-transfer"
      [ ("amount", (CFraction, "Amount to transfer"));
        ("destination", (Cparse_account_id, "Beneficiary to transfer to"));
        ("tick_count", (Cint, "Interval to transfer by, in ticks")) ]
      fn_create_recurring_transfer
      "Create a transfer which reccurs according to an interval";
    AddCommand "admin-create-recurring-transfer"
      [ ("amount", (CFraction, "Amount to transfer"));
        ("source", (CFraction, "Source to transfer from"));
        ("destination", (Cparse_account_id, "Beneficiary to transfer to"));
        ("tick_count", (Cint, "Interval to transfer by, in ticks")) ]
      fn_create_recurring_transfer
      "Create a transfer from someone else which reccurs according to an interval";
    AddCommand "proxy"
      [ ("account", (Cparse_account_id, "Account to proxy"));
        ("command", (Cstr, "Command to run")) ]
      fn_proxy
      "Proxy another account";
    AddCommand "proxy-dsa"
      [ ("account", (Cparse_account_id, "Account to proxy"));
        ("signature", (Cstr, "ECDSA signature of command to run"));
        ("command", (Cstr, "Command to run")) ]
      fn_proxy_dsa
      "Proxy another account using ECDSA verification";
    AddCommand "request-alias"
      [ ("account", (Cparse_account_id, "Account to alias")) ]
      fn_request_alias
      "Request an alias code";
    AddCommand "add-alias"
      [ ("account", (Cparse_account_id, "Account to alias"));
        ("request_code", (Cstr, "Code generated on the other account")) ]
      fn_add_alias
      "Add another account as an alias";
    AddCommand "admin-add-proxy"
      [ ("proxy", (Cparse_account_id, "Account that will be able to act as a proxy for `account`"));
        ("account", (Cparse_account_id, "Account that `proxy` will be able to access")) ]
      fn_admin_add_proxy
      "Let an account proxy another account";
    AddCommand "admin-remove-proxy"
      [ ("proxy", (Cparse_account_id, "Account that can currently act as a proxy for `account`"));
        ("account", (Cparse_account_id, "Account that `proxy` will no longer be able to access")) ]
      fn_admin_remove_proxy
      "Unlet an account proxy another account";
    AddCommand "admin-delete-account"
      [ ("account", (Cparse_account_id, "Account to delete")) ]
      fn_delete_account
      "Delete an account";
    AddCommand "add-tax-bracket"
      [ ("start", (CFraction, "Lower bound of the tax bracket"));
        ("end", (CFraction, "Upper bound of the tax bracker (-1 for infinity)"));
        ("rate", (CFraction, "Tax rate"));
        ("name", (Cstr, "Name of the tax bracket")) ]
      fn_add_tax_bracket
      "Add a tax bracket";
    AddCommand "remove-tax-bracket"
      [ ("name", (Cstr, "Name of the bracket to delete")) ]
      fn_remove_tax_bracket
      "Removes a tax bracker";
    AddCommand "force-tax"
      []
      fn_force_tax
      "Manually apply tax brakcets";
    AddCommand "auto-tax"
      []
      fn_toggle_auto_tax
      "Toggle automatic taxation";
    AddCommand "force-ticks"
      [ ("ticks", (Cint, "Amount of ticks to force")) ]
      fn_force_ticks
      "Forcibly run ticks";
    AddCommand "shoot"
      [ ("victim", (Cparse_account_id, "person to shoot")) ]
      fn_shoot_account
      "shoots Account";
    AddCommand "set-gun-price"
      [ ("price", (CFraction, "price for new guns")) ]
      fn_set_gun_price
      "Sets the price of a gun";
    AddCommand "set-vest-price"
      [ ("price", (CFraction, "price for new vests")) ]
      fn_set_vest_price
      "sets the price of a vest";
    AddCommand "buy-gun"
      []
      fn_buy_gun
      "buys a gun";
    AddCommand "buy-vest"
      []
      fn_buy_vest
      "buys a vest";
    AddCommand "gun-balance"
      []
      fn_gun_balance
      "displays how many guns you own";
    Alias "gun-balance" "gun-bal";
    AddCommand "vest-balance"
      []
      fn_vest_balance
      "displays whether or not you have a vest";
    Alias "vest-balance" "vest-bal";
    AddCommand "buy-farm"
      [ ("farm-type", (Cstr, "Type of the farm you want to buy")) ]
      fn_buy_farm
      "Buys a farm";
    AddCommand "set-farm-type-cost"
      [ ("farm-type", (Cstr, "Type of the farm you want to change the cost of"));
        ("new-cost", (CFraction, "The new cost of the farm")) ]
      fn_set_farm_type_cost
      "Sets the cost of a type of farm";
    AddCommand "set-farm-type-duration"
      [ ("farm-type", (Cstr, "Type of farm you want to change the duration of"));
        ("new-duration", (Cint, "New duration for that Farm Type")) ]
      fn_set_farm_type_duration
      "Sets the duration of a given farm type";
    AddCommand "set-farm-type-returns"
      [ ("farm-type", (Cstr, "Type of the farm you want to change the returns of"));
        ("new-returns", (CFraction, "The new returns")) ]
      fn_set_farm_type_returns
      "Sets the returns per day for a given farm type";
    AddCommand "farm-balance"
      []
      fn_farm_balance
      "displays your farms";
    AddCommand "authorize"
      [ ("account", (Cparse_account_id, "Account to authorize"));
        ("level", (Clambda_level, "Authorization level")) ]
      fn_authorize
      "Authorize a command";
    Alias "authorize" "authorise";
    AddCommand "help"
      []
      fn_help
      "List all commands";
    SortCommands ].

(** The registry once the module is loaded. *)
Definition loaded : Store :=
  Eval vm_compute in
    match exec_all module_body empty_store with
    | inr st => st
    | inl _ => empty_store
    end.

(** [_commands[key]], dereferenced. *)
Definition lookup (st : Store) (key : string) : option _Command :=
  match dict_get key (_commands st) with
  | Some o => objects st !! o
  | None => None
  end.

(** [cmd.args], dereferenced. *)
Definition args_of (st : Store) (cmd : _Command) : ArgsDict :=
  match dicts st !! args cmd with
  | Some d => d
  | None => []
  end.

(** [cmd.usage()] *)
Definition usage (st : Store) (cmd : _Command) : string :=
  Py.join Py.nl
    [ "Usage: " +:+ name cmd +:+ " " +:+ Py.join " " (map fst (args_of st cmd));
      description cmd +:+ "";
      "Options: ";
      Py.join Py.nl
        (map (fun '(arg, meta) => "    " +:+ arg +:+ " -- " +:+ snd meta)
           (args_of st cmd)) ].

(** ** The accounting service

    The functions of the [commands] module that the handlers call.  Each
    takes the server as its last argument. *)

Module commands.

Inductive fn : Set :=
  | name | transfer | open_account | toggle_public | list_public_accounts
  | freeze_account | unfreeze_account | balance | get_money_supply
  | add_public_key | list_accounts | print_money | remove_funds
  | create_recurring_transfer | verify_proxy | request_alias | add_alias
  | add_proxy | remove_proxy | delete_account | add_tax_bracket
  | remove_tax_bracket | force_tax | auto_tax | force_ticks | shoot_account
  | set_gun_price | set_vest_price | buy_gun | buy_vest | gun_balance
  | vest_balance | buy_farm | set_farm_cost | set_farm_duration
  | set_farm_type_returns | get_farm_balance | authorize.

(** What a handler does with the result fixes the type it is taken at:
    a balance is a [Fraction], a listing a list of objects, a result that is
    only tested a [bool], a result that is only formatted any value, and a
    result that is dropped carries nothing. *)
Definition result (f : fn) : Type :=
  match f with
  | balance | get_money_supply => Q
  | list_public_accounts | list_accounts | get_farm_balance => list Obj
  | verify_proxy | toggle_public | auto_tax | shoot_account | vest_balance =>
      bool
  | create_recurring_transfer => Obj
  | name | request_alias | gun_balance => Value
  | _ => unit
  end.

End commands.

(** The [accounting] and [commands] modules, as far as this module uses
    them.  [call_commands f argv server] is the call
    [commands.f( *argv, server)]: it returns or raises, and leaves the server
    in a new state.  [parse_account_id] depends on its argument only, and
    the methods of objects only read the server. *)
Class Accounting : Type := {
  Server : Type;
  parse_account_id : string -> Exn + Value;
  (** the members [a] of the enumeration [Authorization], in definition
      order, as pairs [(a.name, a)] *)
  Authorization : list (string * Obj);
  call_commands :
    forall f : commands.fn,
      list Value -> Server -> (Exn + commands.result f) * Server;
  (** [str(o)], [repr(o)] and [o == v] *)
  str_obj : Obj -> string;
  repr_obj : Obj -> string;
  eq_obj : Obj -> Value -> bool;
  (** [o.readable()], [o.get_id()] and [o.type.name] *)
  readable : Obj -> string;
  get_id : Obj -> Value;
  type_name : Obj -> string;
  (** [server.get_account_ids(acc)], [acc.get_authorization().name] and
      [acc.get_balance()] *)
  get_account_ids : Server -> Obj -> list Value;
  get_authorization_name : Server -> Obj -> string;
  get_balance : Server -> Obj -> Q;
  (** floating point.  [truediv n d] is [n / d] on the integers [n] and
      [d > 0]: a float, or nothing when the quotient is too large for one
      and the division raises [OverflowError].  On a float [x] that a
      division returned, [float_int x] is [int(x)], [float_le1 x] is
      [x <= 1] and [float_round2 x] is [str(round(x, 2))]. *)
  Float : Type;
  truediv : Z -> Z -> option Float;
  float_int : Float -> Z;
  float_le1 : Float -> bool;
  float_round2 : Float -> string
}.

(** ** Effects

    A computation runs on a server state and ends in an outcome, a new
    server state and the trace of what it did.  The trace is a ghost: it
    records every entry into [run_command], every entry into the body of a
    handler, every call into [commands] and every [print]. *)

Inductive Event : Set :=
  | Dispatched (author : Value) (message : string)
  | Invoked (f : Func) (argv : list Value)
  | Called (f : commands.fn) (argv : list Value)
  | Printed (s : string).

(** [Exhausted]: the fuel of the model ran out (see [run_command_fuel]). *)
Inductive Outcome (A : Type) : Type :=
  | Return (a : A)
  | Raise (e : Exn)
  | Exhausted.

Arguments Return {A} a.
Arguments Raise {A} e.
Arguments Exhausted {A}.

Section Bot.

Context `{Acc : Accounting}.

Definition M (A : Type) : Type := Server -> Outcome A * Server * list Event.

Definition ret {A : Type} (a : A) : M A := fun s => (Return a, s, []).

Definition raise {A : Type} (e : Exn) : M A := fun s => (Raise e, s, []).

Definition exhausted {A : Type} : M A := fun s => (Exhausted, s, []).

Definition bind {A B : Type} (m : M A) (k : A -> M B) : M B :=
  fun s =>
    match m s with
    | (Return a, s1, t1) =>
        let '(o, s2, t2) := k a s1 in (o, s2, t1 ++ t2)
    | (Raise e, s1, t1) => (Raise e, s1, t1)
    | (Exhausted, s1, t1) => (Exhausted, s1, t1)
    end.

(** [try: m  except ...: h]: [h e] is the clause that catches [e], if any. *)
Definition try_except {A : Type} (m : M A) (h : Exn -> option (M A)) : M A :=
  fun s =>
    match m s with
    | (Raise e, s1, t1) =>
        match h e with
        | Some k => let '(o, s2, t2) := k s1 in (o, s2, t1 ++ t2)
        | None => (Raise e, s1, t1)
        end
    | r => r
    end.

Definition tell (e : Event) : M unit := fun s => (Return tt, s, [e]).

Definition get_server : M Server := fun s => (Return s, s, []).

(** A pure computation that returns or raises. *)
Definition lift {A : Type} (r : Exn + A) : M A :=
  match r with
  | inr a => ret a
  | inl e => raise e
  end.

(** The call [commands.f( *argv, server)]. *)
Definition call (f : commands.fn) (argv : list Value) : M (commands.result f) :=
  fun s =>
    let '(r, s') := call_commands f argv s in
    (match r with inr a => Return a | inl e => Raise e end, s', [Called f argv]).

(** Exceptions that the interpreter raises.  Their text never reaches a
    reply and is left empty. *)
Definition type_error : Exn := mkExn TypeError "".
Definition attribute_error : Exn := mkExn AttributeError "".
Definition index_error : Exn := mkExn IndexError "".
Definition overflow_error : Exn :=
  mkExn OverflowError "integer division result too large for a float".

(** ** Operations on values *)

(** [repr(v)] and [str(v)] *)
Fixpoint py_repr (v : Value) : string :=
  match v with
  | VNone => "None"
  | VBool b => if b then "True" else "False"
  | VInt z => Py.str_int z
  | VFrac q =>
      let q := Qred q in
      "Fraction(" +:+ Py.str_int (Qnum q) +:+ ", "
        +:+ Py.str_int (Zpos (Qden q)) +:+ ")"
  | VStr s => Py.repr s
  | VObj o => repr_obj o
  | VList l => "[" +:+ Py.join ", " (map py_repr l) +:+ "]"
  | VDict d =>
      "{" +:+ Py.join ", "
                (map (fun kv => Py.repr (fst kv) +:+ ": " +:+ py_repr (snd kv)) d)
          +:+ "}"
  end.

Definition py_str (v : Value) : string :=
  match v with
  | VStr s => s
  | VFrac q => Py.str_Fraction q
  | VObj o => str_obj o
  | _ => py_repr v
  end.

(** The numbers: [bool], [int] and [Fraction]. *)
Definition as_number (v : Value) : option Q :=
  match v with
  | VBool b => Some (if b then 1 else 0)%Q
  | VInt z => Some (inject_Z z)
  | VFrac q => Some q
  | _ => None
  end.

(** [a == b] on the values that stand for accounts: strings compare by
    content, an object decides for itself. *)
Definition py_eq (a b : Value) : bool :=
  match a, b with
  | VObj o, _ => eq_obj o b
  | _, VObj o => eq_obj o a
  | VStr s, VStr t => String.eqb s t
  | VNone, VNone => true
  | _, _ =>
      match as_number a, as_number b with
      | Some p, Some q => Qeq_bool p q
      | _, _ => false
      end
  end.

(** [v.readable()] *)
Definition py_readable (v : Value) : Exn + string :=
  match v with
  | VObj o => inr (readable o)
  | _ => inl attribute_error
  end.

(** [a + b] where the source concatenates strings. *)
Definition py_add (a b : Value) : Exn + Value :=
  match a, b with
  | VStr s, VStr t => inr (VStr (s +:+ t))
  | _, _ => inl type_error
  end.

(** ** UI utilities *)

(** [n / d] on integers, with its exception. *)
Definition py_truediv (n d : Z) : Exn + Float :=
  match truediv n d with
  | Some x => inr x
  | None => inl overflow_error
  end.

(** [_mixed(f)]: [f] needs the attributes [numerator] and [denominator],
    which the numbers have.  Each of the quotients [f.numerator /
    f.denominator] is a float division, which raises [OverflowError] when
    the quotient is out of range. *)
Definition _mixed (f : Value) : Exn + string :=
  match as_number f with
  | None => inl attribute_error
  | Some q =>
      let numerator := Qnum (Qred q) in
      let denominator := Zpos (Qden (Qred q)) in
      if (numerator mod denominator =? 0)%Z
      then match py_truediv numerator denominator with
           | inl e => inl e
           | inr x => inr (Py.str_int (float_int x))
           end
      else match py_truediv numerator denominator with
           | inl e => inl e
           | inr x =>
               if float_le1 x then inr (py_str f)
               else match py_truediv numerator denominator with
                    | inl e => inl e
                    | inr y =>
                        inr (Py.str_int (float_int y) +:+ " "
                             +:+ Py.str_int (numerator mod denominator) +:+ "/"
                             +:+ Py.str_int denominator)
                    end
           end
  end.

(** [_rounded(f)]: [float(f)] is the division [f.numerator /
    f.denominator] and raises [OverflowError] with it. *)
Definition _rounded (f : Q) : Exn + string :=
  match py_truediv (Qnum (Qred f)) (Zpos (Qden (Qred f))) with
  | inl e => inl e
  | inr x => inr (float_round2 x)
  end.

(** A list comprehension whose element expression may raise: the first
    exception ends it. *)
Fixpoint collect {A B : Type} (f : A -> Exn + B) (l : list A)
  : Exn + list B :=
  match l with
  | [] => inr []
  | a :: l' =>
      match f a with
      | inl e => inl e
      | inr b =>
          match collect f l' with
          | inl e => inl e
          | inr bs => inr (b :: bs)
          end
      end
  end.

End Bot.

Notation "x <- m ;; k" := (bind m (fun x => k))
  (at level 100, m at next level, right associativity).
Notation "m ;;; k" := (bind m (fun _ => k))
  (at level 100, right associativity).

(** ** Commands *)

Section Handlers.

Context `{Acc : Accounting}.

(** The nested entry into [run_command] that the proxy handlers make. *)
Variable run_command : Value -> string -> M Value.

(** The registry that [_help] reads. *)
Variable st : Store.

(** [return s] for a string [s]. *)
Definition reply (s : string) : M Value := ret (VStr s).

Definition _name (author rest : Value) : M Value :=
  id <- call commands.name [author];;
  reply ("Your ID for the purpose of accounting is " +:+ py_str id).

Definition _transfer (author amount destination rest : Value) : M Value :=
  call commands.transfer [author; author; destination; amount];;;
  reply ("Transferred " +:+ py_str amount +:+ " to " +:+ py_str destination).

Definition _adm_transfer (author amount source destination rest : Value)
  : M Value :=
  call commands.transfer [author; source; destination; amount];;;
  reply ("Transferred " +:+ py_str amount +:+ " from " +:+ py_str source
        +:+ " to " +:+ py_str destination).

(** The clause [except commands.ValueCommandException: return reply]. *)
Definition on_value_error (msg : string) (e : Exn) : option (M (option Value)) :=
  match kind e with
  | ValueCommandException => Some (ret (Some (VStr msg)))
  | _ => None
  end.

(** A [try] block around one call whose [except] clause returns from the
    handler, followed by the rest of the handler. *)
Definition try_call (f : commands.fn) (argv : list Value) (msg : string)
  (k : M Value) : M Value :=
  r <- try_except (call f argv;;; ret None) (on_value_error msg);;
  match r with
  | Some v => ret v
  | None => k
  end.

Definition _open_account (author rest : Value) : M Value :=
  try_call commands.open_account [author; author]
    ("Looks like you already have an account. "
     +:+ "No need to open another one")
    (reply "Account opened succesfully").

Definition _set_public (author rest : Value) : M Value :=
  value <- call commands.toggle_public [author; author];;
  reply ("Account marked as " +:+ (if (value : bool) then "public" else "private")).

Definition _adm_open_account (author account rest : Value) : M Value :=
  try_call commands.open_account [author; account]
    ("Looks like they already have an account" +:+ Py.nl
     +:+ "No need to open a new one")
    (reply "Account opened successfully").

Definition _freeze_account (author account rest : Value) : M Value :=
  call commands.freeze_account [author; account];;;
  reply "Account frozen".

Definition _unfreeze_account (author account rest : Value) : M Value :=
  call commands.unfreeze_account [author; account];;;
  reply "Account unfrozen".

Definition _balance (author rest : Value) : M Value :=
  bal <- call commands.balance [author; author];;
  rounded <- lift (_rounded bal);;
  reply ("Your balance is " +:+ rounded).

Definition _full_balance (author rest : Value) : M Value :=
  bal <- call commands.balance [author; author];;
  mixed <- lift (_mixed (VFrac bal));;
  reply ("Your un-rounded balance is " +:+ mixed).

Definition _money_supply (author rest : Value) : M Value :=
  bal <- call commands.get_money_supply [author];;
  mixed <- lift (_mixed (VFrac bal));;
  reply ("The total money supply is " +:+ mixed).

Definition _add_public_key (author key rest : Value) : M Value :=
  let pem :=
    Py.join Py.nl
      (List.filter
         (fun line => negb (String.eqb line "") && negb (Py.isspace line))
         (Py.splitlines (py_str key +:+ " " +:+ py_str rest))) in
  call commands.add_public_key [author; author; VStr pem];;;
  reply "Public key added successfully".

(** One account of a listing: its ids, its authorization and its balance,
    in columns. *)
Definition account_columns (server : Server) (acc : Obj) : Exn + string :=
  let ids := Py.join ":" (map py_str (get_account_ids server acc)) in
  let authorization := Py.lower (get_authorization_name server acc) in
  match _rounded (get_balance server acc) with
  | inl e => inl e
  | inr rounded =>
      inr (Py.ljust 28 ids +:+ " | " +:+ Py.ljust 9 authorization
           +:+ " | " +:+ Py.rjust 8 rounded)
  end.

Definition _list_accounts (author rest : Value) : M Value :=
  accounts <- call commands.list_accounts [author];;
  server <- get_server;;
  rows <- lift (collect
                  (fun acc =>
                     match account_columns server acc with
                     | inl e => inl e
                     | inr columns => inr (" " +:+ columns)
                     end)
                  accounts);;
  reply (Py.join Py.nl rows).

Definition _print_money (author amount account rest : Value) : M Value :=
  try_call commands.print_money [author; account; amount]
    "Invalid arguement: Cannot print negative amounts"
    (mixed <- lift (_mixed amount);;
     reply ("Printed " +:+ mixed +:+ " to " +:+ py_str account)).

Definition _remove_funds (author amount account rest : Value) : M Value :=
  try_call commands.remove_funds [author; account; amount]
    "Invalid argument: Cannot remove negative amounts"
    (mixed <- lift (_mixed amount);;
     reply ("Deleted " +:+ mixed +:+ " from " +:+ py_str account)).

Definition _create_recurring_transfer
  (author amount destination tick_count rest : Value) : M Value :=
  transfer <- call commands.create_recurring_transfer
                [author; author; destination; amount; tick_count];;
  let transfer_id := get_id transfer in
  mixed <- lift (_mixed amount);;
  to <- lift (py_readable destination);;
  reply ("Set up recurring transfer of " +:+ mixed
        +:+ " to " +:+ to +:+ " every " +:+ py_str tick_count +:+ " ticks"
        +:+ " (Transfer " +:+ py_str transfer_id +:+ ").").

Definition _admin_create_recurring_transfer
  (author amount source destination tick_count rest : Value) : M Value :=
  transfer <- call commands.create_recurring_transfer
                [author; source; destination; amount; tick_count];;
  let transfer_id := get_id transfer in
  mixed <- lift (_mixed amount);;
  from <- lift (py_readable source);;
  to <- lift (py_readable destination);;
  reply ("Set up recurring transfer of " +:+ mixed
        +:+ " from " +:+ from
        +:+ " to " +:+ to +:+ " every " +:+ py_str tick_count +:+ " ticks"
        +:+ " (Transfer " +:+ py_str transfer_id +:+ ").").

(** [command + ' ' + rest] *)
Definition nested_line (command rest : Value) : Exn + Value :=
  match py_add command (VStr " ") with
  | inr c => py_add c rest
  | inl e => inl e
  end.

Definition _proxy (author account command rest : Value) : M Value :=
  line <- lift (nested_line command rest);;
  ok <- call commands.verify_proxy [author; account; VNone; line];;
  if (ok : bool) then
    line <- lift (nested_line command rest);;
    match line with
    | VStr line => run_command account line
    | _ => raise type_error
    end
  else reply "Unauthorized proxy".

Definition _proxy_dsa (author account signature command rest : Value)
  : M Value :=
  line <- lift (nested_line command rest);;
  ok <- call commands.verify_proxy [author; account; signature; line];;
  if (ok : bool) then
    line <- lift (nested_line command rest);;
    match line with
    | VStr line => run_command account line
    | _ => raise type_error
    end
  else reply "Unauthorized proxy".

Definition _request_alias (author alias rest : Value) : M Value :=
  alias_code <- call commands.request_alias [author; alias];;
  reply ("Alias request code: `" +:+ py_str alias_code +:+ "`").

Definition _add_alias (author account request_code rest : Value) : M Value :=
  call commands.add_alias [author; account; request_code];;;
  a <- lift (py_readable author);;
  b <- lift (py_readable account);;
  reply (a +:+ " and " +:+ b +:+ "now refer to the same account").

Definition _admin_add_proxy (author proxy account rest : Value) : M Value :=
  call commands.add_proxy [author; account; proxy];;;
  reply "Account proxied".

Definition _admin_remove_proxy (author proxy account rest : Value) : M Value :=
  call commands.remove_proxy [author; account; proxy];;;
  reply "Account unproxied".

Definition _delete_account (author account rest : Value) : M Value :=
  call commands.delete_account [author; account];;;
  reply "Account deleted.".

(** The en dash U+2013 lies outside the alphabet of the model; it is kept
    as its three UTF-8 bytes. *)
Definition en_dash : string := Py.chr 226 +:+ Py.chr 128 +:+ Py.chr 147.

Definition _add_tax_bracket (author start rate end_ name rest : Value)
  : M Value :=
  end_ <- match as_number end_ with
          | Some q => ret (if Qle_bool 0 q then end_ else VNone)
          | None => raise type_error
          end;;
  call commands.add_tax_bracket [author; start; end_; rate; name];;;
  reply ("Tax bracket " +:+ py_str name +:+ ": [" +:+ py_str start
         +:+ en_dash +:+ py_str end_ +:+ "] " +:+ py_str rate +:+ " added").

Definition _remove_tax_bracket (author name rest : Value) : M Value :=
  call commands.remove_tax_bracket [author; name];;;
  reply "Removed tax bracket".

Definition _force_tax (author rest : Value) : M Value :=
  call commands.force_tax [author];;;
  reply "Applied tax".

Definition _toggle_auto_tax (author rest : Value) : M Value :=
  ans <- call commands.auto_tax [author];;
  reply ("Automatic taxation " +:+ (if (ans : bool) then "on" else "off")).

Definition _force_ticks (author ticks rest : Value) : M Value :=
  call commands.force_ticks [author; ticks];;;
  reply ("Forced " +:+ py_str ticks +:+ " ticks").

Definition _shoot_account (author victim rest : Value) : M Value :=
  r <- try_except
         (was_shot <- call commands.shoot_account [author; author; victim];;
          ret (inl was_shot))
         (fun e =>
            Some (if String.eqb (text e) "Victim cannot be shot"
                  then (tell (Printed "1");;;
                        ret (inr (VStr ("You tried to shoot " +:+ py_str victim
                                        +:+ " but they dodged"))))
                  else raise e));;
  match r with
  | inr v => ret v
  | inl was_shot =>
      if (was_shot : bool) then
        ret (VDict [("response", VStr ("Successfully shot " +:+ py_str victim));
                    ("to_be_muted", victim)])
      else
        reply ("You tried to shoot " +:+ py_str victim
               +:+ " but they had a bullet-proof vest that protected them."
               +:+ Py.nl
               +:+ "Because of your shot, their vest has been damaged "
               +:+ "and they are now vulnerable.")
  end.

Definition _set_gun_price (author price rest : Value) : M Value :=
  call commands.set_gun_price [author; price];;;
  reply ("Set price to " +:+ py_str price).

Definition _set_vest_price (author price rest : Value) : M Value :=
  call commands.set_vest_price [author; price];;;
  reply ("Set price to " +:+ py_str price).

Definition _buy_gun (author rest : Value) : M Value :=
  call commands.buy_gun [author];;;
  reply "You bought a gun".

Definition _buy_vest (author rest : Value) : M Value :=
  call commands.buy_vest [author];;;
  reply "You bought a vest".

(** The first lines of the balance handlers:
    [account = author; if rest != "": account = parse_account_id(rest.split()[0])] *)
Definition account_of_rest (author rest : Value) : Exn + Value :=
  match rest with
  | VStr EmptyString => inr author
  | VStr r =>
      match Py.split r with
      | t :: _ => parse_account_id t
      | [] => inl index_error
      end
  | _ => inl attribute_error
  end.

Definition _gun_balance (author rest : Value) : M Value :=
  account <- lift (account_of_rest author rest);;
  bal <- call commands.gun_balance [author; account];;
  if py_eq account author
  then reply ("your gun-balance is " +:+ py_str bal)
  else reply (py_str account +:+ " 's gun-balance is " +:+ py_str bal).

Definition _vest_balance (author rest : Value) : M Value :=
  account <- lift (account_of_rest author rest);;
  has_vest <- call commands.vest_balance [author; account];;
  if (has_vest : bool)
  then reply (py_str account +:+ " has a vest")
  else reply (py_str account +:+ " does not have a vest").

Definition _buy_farm (author_id farm_name rest : Value) : M Value :=
  call commands.buy_farm [author_id; farm_name];;;
  reply ("Successfully bought " +:+ py_str farm_name).

Definition _set_farm_type_cost (author_id farm_name new_cost rest : Value)
  : M Value :=
  call commands.set_farm_cost [author_id; farm_name; new_cost];;;
  reply (py_str farm_name +:+ " now costs " +:+ py_str new_cost).

Definition _set_farm_type_duration
  (author_id farm_name new_duration rest : Value) : M Value :=
  call commands.set_farm_duration [author_id; farm_name; new_duration];;;
  reply (py_str farm_name +:+ " now lasts for " +:+ py_str new_duration
         +:+ " days").

Definition _set_farm_type_returns
  (author_id farm_name new_returns rest : Value) : M Value :=
  call commands.set_farm_type_returns [author_id; farm_name; new_returns];;;
  reply (py_str farm_name +:+ " now returns " +:+ py_str new_returns
         +:+ "/day").

Definition _farm_balance (author rest : Value) : M Value :=
  account <- lift (account_of_rest author rest);;
  balance <- call commands.get_farm_balance [author; account];;
  match (balance : list Obj) with
  | [] => reply "Your inventory is empty"
  | _ =>
      reply (Py.join "Your inventory contains "
               (map (fun farm => type_name farm +:+ ", ") balance))
  end.

Definition _authorize (author account level rest : Value) : M Value :=
  call commands.authorize [author; account; level];;;
  reply "Authorized".

(** The condition [limit is None or i < limit] of the leader board. *)
Definition within_limit (limit : Value) (i : nat) : Exn + bool :=
  match limit with
  | VNone => inr true
  | _ =>
      match as_number limit with
      | Some q => inr (Py.Qlt_bool (inject_Z (Z.of_nat i)) q)
      | None => inl type_error
      end
  end.

(** One row of the leader board: the rank [i + 1] and the account. *)
Definition leader_board_row (server : Server) (i : nat) (acc : Obj)
  : Exn + string :=
  match account_columns server acc with
  | inl e => inl e
  | inr columns =>
      inr (Py.ljust 3 (Py.str_int (Z.of_nat (i + 1))) +:+ " | " +:+ columns)
  end.

(** The list comprehension of [_leader_board]: for each account in turn,
    the condition, and when it holds, the row. *)
Fixpoint leader_board_rows (server : Server) (limit : Value)
  (accounts : list (nat * Obj)) : Exn + list string :=
  match accounts with
  | [] => inr []
  | (i, acc) :: accounts' =>
      match within_limit limit i with
      | inl e => inl e
      | inr true =>
          match leader_board_row server i acc with
          | inl e => inl e
          | inr row =>
              match leader_board_rows server limit accounts' with
              | inl e => inl e
              | inr rows => inr (row :: rows)
              end
          end
      | inr false => leader_board_rows server limit accounts'
      end
  end.

Definition _leader_board (author limit rest : Value) : M Value :=
  listed <- call commands.list_public_accounts [author];;
  server <- get_server;;
  let accounts := Py.sorted (get_balance server) Py.Qlt_bool true listed in
  rows <- lift (leader_board_rows server limit (Py.enumerate accounts));;
  reply (Py.join Py.nl rows).

(** [_commands.values()] *)
Definition values_of (st : Store) : list _Command :=
  omap (fun kv => objects st !! snd kv) (_commands st).

Definition _help (author rest : Value) : M Value :=
  match rest with
  | VStr rest =>
      match Py.split (Py.strip rest) with
      | command_name :: _ =>
          match lookup st command_name with
          | Some command => reply (usage st command)
          | None => reply ("No such command: " +:+ command_name)
          end
      | [] =>
          reply (Py.join Py.nl
                   [ "List of commands:";
                     Py.join Py.nl
                       (map (fun command =>
                               "    " +:+ name command +:+ " -- "
                               +:+ description command)
                          (values_of st)) ])
      end
  | _ => raise attribute_error
  end.

(** The body of [f] on the positional arguments [argv]; the last argument of
    the source, [server], is the state of the computation. *)
Definition body (f : Func) (argv : list Value) : M Value :=
  match f with
  | fn_name => match argv with [a; r] => _name a r | _ => raise type_error end
  | fn_transfer =>
      match argv with
      | [a; b; c; r] => _transfer a b c r | _ => raise type_error end
  | fn_adm_transfer =>
      match argv with
      | [a; b; c; d; r] => _adm_transfer a b c d r | _ => raise type_error end
  | fn_open_account =>
      match argv with [a; r] => _open_account a r | _ => raise type_error end
  | fn_set_public =>
      match argv with [a; r] => _set_public a r | _ => raise type_error end
  | fn_leader_board =>
      match argv with
      | [a; b; r] => _leader_board a b r | _ => raise type_error end
  | fn_adm_open_account =>
      match argv with
      | [a; b; r] => _adm_open_account a b r | _ => raise type_error end
  | fn_freeze_account =>
      match argv with
      | [a; b; r] => _freeze_account a b r | _ => raise type_error end
  | fn_unfreeze_account =>
      match argv with
      | [a; b; r] => _unfreeze_account a b r | _ => raise type_error end
  | fn_balance =>
      match argv with [a; r] => _balance a r | _ => raise type_error end
  | fn_full_balance =>
      match argv with [a; r] => _full_balance a r | _ => raise type_error end
  | fn_money_supply =>
      match argv with [a; r] => _money_supply a r | _ => raise type_error end
  | fn_add_public_key =>
      match argv with
      | [a; b; r] => _add_public_key a b r | _ => raise type_error end
  | fn_list_accounts =>
      match argv with [a; r] => _list_accounts a r | _ => raise type_error end
  | fn_print_money =>
      match argv with
      | [a; b; c; r] => _print_money a b c r | _ => raise type_error end
  | fn_remove_funds =>
      match argv with
      | [a; b; c; r] => _remove_funds a b c r | _ => raise type_error end
  | fn_create_recurring_transfer =>
      match argv with
      | [a; b; c; d; r] => _create_recurring_transfer a b c d r
      | _ => raise type_error
      end
  | fn_admin_create_recurring_transfer =>
      match argv with
      | [a; b; c; d; e; r] => _admin_create_recurring_transfer a b c d e r
      | _ => raise type_error
      end
  | fn_proxy =>
      match argv with
      | [a; b; c; r] => _proxy a b c r | _ => raise type_error end
  | fn_proxy_dsa =>
      match argv with
      | [a; b; c; d; r] => _proxy_dsa a b c d r | _ => raise type_error end
  | fn_request_alias =>
      match argv with
      | [a; b; r] => _request_alias a b r | _ => raise type_error end
  | fn_add_alias =>
      match argv with
      | [a; b; c; r] => _add_alias a b c r | _ => raise type_error end
  | fn_admin_add_proxy =>
      match argv with
      | [a; b; c; r] => _admin_add_proxy a b c r | _ => raise type_error end
  | fn_admin_remove_proxy =>
      match argv with
      | [a; b; c; r] => _admin_remove_proxy a b c r | _ => raise type_error end
  | fn_delete_account =>
      match argv with
      | [a; b; r] => _delete_account a b r | _ => raise type_error end
  | fn_add_tax_bracket =>
      match argv with
      | [a; b; c; d; e; r] => _add_tax_bracket a b c d e r
      | _ => raise type_error
      end
  | fn_remove_tax_bracket =>
      match argv with
      | [a; b; r] => _remove_tax_bracket a b r | _ => raise type_error end
  | fn_force_tax =>
      match argv with [a; r] => _force_tax a r | _ => raise type_error end
  | fn_toggle_auto_tax =>
      match argv with [a; r] => _toggle_auto_tax a r | _ => raise type_error end
  | fn_force_ticks =>
      match argv with
      | [a; b; r] => _force_ticks a b r | _ => raise type_error end
  | fn_shoot_account =>
      match argv with
      | [a; b; r] => _shoot_account a b r | _ => raise type_error end
  | fn_set_gun_price =>
      match argv with
      | [a; b; r] => _set_gun_price a b r | _ => raise type_error end
  | fn_set_vest_price =>
      match argv with
      | [a; b; r] => _set_vest_price a b r | _ => raise type_error end
  | fn_buy_gun =>
      match argv with [a; r] => _buy_gun a r | _ => raise type_error end
  | fn_buy_vest =>
      match argv with [a; r] => _buy_vest a r | _ => raise type_error end
  | fn_gun_balance =>
      match argv with [a; r] => _gun_balance a r | _ => raise type_error end
  | fn_vest_balance =>
      match argv with [a; r] => _vest_balance a r | _ => raise type_error end
  | fn_buy_farm =>
      match argv with
      | [a; b; r] => _buy_farm a b r | _ => raise type_error end
  | fn_set_farm_type_cost =>
      match argv with
      | [a; b; c; r] => _set_farm_type_cost a b c r | _ => raise type_error end
  | fn_set_farm_type_duration =>
      match argv with
      | [a; b; c; r] => _set_farm_type_duration a b c r
      | _ => raise type_error
      end
  | fn_set_farm_type_returns =>
      match argv with
      | [a; b; c; r] => _set_farm_type_returns a b c r
      | _ => raise type_error
      end
  | fn_farm_balance =>
      match argv with [a; r] => _farm_balance a r | _ => raise type_error end
  | fn_authorize =>
      match argv with
      | [a; b; c; r] => _authorize a b c r | _ => raise type_error end
  | fn_help => match argv with [a; r] => _help a r | _ => raise type_error end
  end.

(** The call [f( *argv, server)].  Python binds the arguments to the
    parameters of [f] first and raises [TypeError] when their numbers
    differ; only then does the body of [f] start. *)
Definition call_func (f : Func) (argv : list Value) : M Value :=
  if length argv + 1 =? length (func_params f)
  then tell (Invoked f argv);;; body f argv
  else raise type_error.

End Handlers.

(** ** Parsing and dispatch *)

Section Dispatch.

Context `{Acc : Accounting}.

(** The lambda of [leader-board]: [None if int(x) < 0 else int(x)]. *)
Definition lambda_limit (x : string) : Exn + Value :=
  match Py.int x with
  | inl e => inl e
  | inr z =>
      if (z <? 0)%Z then inr VNone
      else match Py.int x with
           | inl e => inl e
           | inr z' => inr (VInt z')
           end
  end.

(** The lambda of [authorize]:
    [{a.name.lower(): a for a in Authorization}[s.lower()]].  A later member
    replaces an earlier one of the same lowered name. *)
Definition lambda_level (s : string) : Exn + Value :=
  let levels :=
    fold_left (fun d a => dict_update (Py.lower (fst a)) (snd a) d)
      Authorization [] in
  match dict_get (Py.lower s) levels with
  | Some a => inr (VObj a)
  | None => inl (mkExn KeyError (Py.repr (Py.lower s)))
  end.

(** The call [arg[0](input)] of a stored coercion function. *)
Definition coerce (c : Coercion) (input : string) : Exn + Value :=
  match c with
  | CFraction =>
      match Py.Fraction input with inr q => inr (VFrac q) | inl e => inl e end
  | Cint => match Py.int input with inr z => inr (VInt z) | inl e => inl e end
  | Cstr => inr (VStr input)
  | Cparse_account_id => parse_account_id input
  | Clambda_limit => lambda_limit input
  | Clambda_level => lambda_level input
  end.

(** [list(map(lambda arg, input: arg[0](input), values, inputs))]: the two
    sequences are walked together up to the end of the shorter one, and the
    first coercion that raises ends the walk. *)
Fixpoint coerce_all (values : list (Coercion * string)) (inputs : list string)
  : Exn + list Value :=
  match values, inputs with
  | arg :: values', input :: inputs' =>
      match coerce (fst arg) input with
      | inl e => inl e
      | inr v =>
          match coerce_all values' inputs' with
          | inl e => inl e
          | inr vs => inr (v :: vs)
          end
      end
  | _, _ => inr []
  end.

Variable st : Store.

Definition _parse_command_args (cmd : _Command) (message : string)
  : Exn + (list Value * string) :=
  let split := Py.split message in
  match split with
  | [] => inl index_error
  | split_0 :: inputs =>
      if negb (String.eqb (name cmd) split_0)
      then inl (mkExn ValueError "Command message does not match command")
      else
        match coerce_all (map snd (args_of st cmd)) inputs with
        | inl e => inl e
        | inr args =>
            if length args <? length (args_of st cmd)
            then inl (mkExn ValueError "Not enough arguments")
            else
              let rest :=
                Py.join " " (drop (1 + length (args_of st cmd)) split) in
              inr (args, rest)
        end
  end.

(** The [except] clauses of [run_command], in the scope of [command]. *)
Definition except_clauses (command : _Command) (key : string) (e : Exn)
  : option (M Value) :=
  match kind e with
  | ValueError =>
      Some (reply (Py.join Py.nl ["Error: " +:+ text e; usage st command]))
  | ValueCommandException =>
      Some (reply (Py.join Py.nl
                     ["Invalid argument: " +:+ text e; ""; usage st command]))
  | AccountCommandException => Some (reply ("Invalid account: " +:+ text e))
  | UnauthorizedCommandException => Some (reply "Unauthorized command")
  | ProcessCommandException =>
      Some (reply "Something went wrong. Please try again later")
  | KeyError => Some (reply ("No such command: " +:+ key))
  | _ => None
  end.

(** The body of [run_command(author, message, server)], with [run_command]
    itself, which the handlers [_proxy] and [_proxy_dsa] call, as a
    parameter.

    The first statement of the [try] block, [command =
    _commands[message.split()[0]]], raises [IndexError], which no clause
    catches, or [KeyError], whose clause needs no [command]; every other
    exception is raised once [command] is bound. *)
Definition dispatch (run_command : Value -> string -> M Value)
  (author : Value) (message : string) : M Value :=
  tell (Dispatched author message);;;
  match Py.split message with
  | [] => raise index_error
  | key :: _ =>
      match lookup st key with
      | None => reply ("No such command: " +:+ key)
      | Some command =>
          try_except
            (parsed <- lift (_parse_command_args command message);;
             call_func run_command st (func command)
               (author :: fst parsed ++ [VStr (snd parsed)]))
            (except_clauses command key)
      end
  end.

(** [run_command] with a bound on the depth of the nested calls. *)
Fixpoint run_command_fuel (fuel : nat) : Value -> string -> M Value :=
  match fuel with
  | O => fun _ _ => exhausted
  | S fuel' => dispatch (run_command_fuel fuel')
  end.

End Dispatch.

(** [run_command(author, message, server)], on the registry of the loaded
    module.  A nested call receives a line with fewer words than the line
    of its caller, so a bound of one more than the number of words is never
    reached ([run_command_total]), and [run_command] satisfies the equation
    of the source ([run_command_eq]). *)
Definition run_command `{Acc : Accounting} (author : Value) (message : string)
  : M Value :=
  run_command_fuel loaded (S (length (Py.split message))) author message.

(** ** Exact floats

    The floats of the two instances below: rationals, kept exact.  A
    division is out of range from the first quotient that a double rounds
    to infinity.  Exact arithmetic agrees with doubles on the integers below
    [2 ^ 53] and on what is printed of them; elsewhere it can differ from a
    double in the last place, and it never prints an exponent. *)

Module Exact.

Definition limit : Z := (2 ^ 1024 - 2 ^ 970)%Z.

Definition truediv (n d : Z) : option Q :=
  if (limit * d <=? Z.abs n)%Z then None else Some (Qred (n # Z.to_pos d)).

(** [int(x)]: towards zero. *)
Definition to_int (x : Q) : Z := Z.quot (Qnum x) (Zpos (Qden x)).

Definition le1 (x : Q) : bool := Qle_bool x 1.

(** The hundredths of [|x|], half to even. *)
Definition hundredths (x : Q) : Z :=
  let a := (100 * Z.abs (Qnum x))%Z in
  let d := Zpos (Qden x) in
  let q := (a / d)%Z in
  let r := (a mod d)%Z in
  if (d <? 2 * r)%Z || ((d =? 2 * r)%Z && Z.odd q) then (q + 1)%Z else q.

(** [str(round(x, 2))]: at least one decimal place, at most two. *)
Definition round2 (x : Q) : string :=
  let c := hundredths x in
  (if (Qnum x <? 0)%Z then "-" else "")
  +:+ Py.str_int (c / 100) +:+ "."
  +:+ Py.str_int (c mod 100 / 10)
  +:+ (if (c mod 10 =? 0)%Z then "" else Py.str_int (c mod 10)).

End Exact.

(** ** A ledger to run the bot on

    An instance of the interface for concrete runs: the server is the list
    of the public accounts with their balances, ["alice"] may act for every
    account and nobody else for any, only ["alice"] may authorize, and
    [force_tax] fails.  Account ids are plain strings, and the floats are
    the exact ones above. *)

Module Demo.

Definition ledger : Type := list (Obj * Q).

Definition balance_in (s : ledger) (o : Obj) : Q :=
  match find (fun p => N.eqb (fst p) o) s with
  | Some p => snd p
  | None => 0%Q
  end.

Definition serve (f : commands.fn) (argv : list Value) (s : ledger)
  : (Exn + commands.result f) * ledger :=
  match f return (Exn + commands.result f) * ledger with
  | commands.balance => (inr (42 # 1), s)
  | commands.get_money_supply => (inr (100 # 1), s)
  | commands.list_public_accounts => (inr (map fst s), s)
  | commands.list_accounts => (inr (map fst s), s)
  | commands.get_farm_balance => (inr [], s)
  | commands.verify_proxy =>
      (inr match argv with
           | VStr "alice" :: _ => true
           | _ => false
           end, s)
  | commands.toggle_public => (inr true, s)
  | commands.auto_tax => (inr true, s)
  | commands.shoot_account => (inr false, s)
  | commands.vest_balance => (inr false, s)
  | commands.create_recurring_transfer => (inr 0%N, s)
  | commands.name => (inr (hd VNone argv), s)
  | commands.request_alias => (inr (VStr "code"), s)
  | commands.gun_balance => (inr (VInt 0), s)
  | commands.authorize =>
      (match argv with
       | VStr "alice" :: _ => inr tt
       | _ => inl (mkExn UnauthorizedCommandException "not an admin")
       end, s)
  | commands.force_tax =>
      (inl (mkExn ProcessCommandException "database locked"), s)
  | _ => (inr tt, s)
  end.

#[global] Instance accounting : Accounting := {|
  Server := ledger;
  parse_account_id := fun s => inr (VStr s);
  Authorization :=
    [("CITIZEN", 0%N); ("OFFICER", 1%N); ("ADMIN", 2%N); ("DEVELOPER", 3%N)];
  call_commands := serve;
  str_obj := fun o => "object " +:+ Py.str_int (Z.of_N o);
  repr_obj := fun o => "<object " +:+ Py.str_int (Z.of_N o) +:+ ">";
  eq_obj := fun o v => match v with VObj o' => N.eqb o o' | _ => false end;
  readable := fun o => "object " +:+ Py.str_int (Z.of_N o);
  get_id := fun o => VInt (Z.of_N o);
  type_name := fun _ => "farm";
  get_account_ids := fun _ o => [VStr ("acct" +:+ Py.str_int (Z.of_N o))];
  get_authorization_name := fun _ _ => "CITIZEN";
  get_balance := balance_in;
  Float := Q;
  truediv := Exact.truediv;
  float_int := Exact.to_int;
  float_le1 := Exact.le1;
  float_round2 := Exact.round2
|}.

(** Three public accounts, two of them with the same balance. *)
Definition three : ledger := [(1%N, 5 # 1); (2%N, 7 # 1); (3%N, 5 # 1)].


End Demo.

(** ** A bank to run the bot on

    A second instance of the interface, with a state that changes: the
    server is the list of the open accounts, by name, with their balances.
    Opening an account twice and printing or removing a negative amount are
    value errors, as is transferring a negative amount; an unknown account
    is an account error, an account that is not open cannot be shot,
    ["root"] may act for every account, ["ann"] owns a wheat farm and
    ["ben"] a wheat farm and a corn farm. *)

Module Bank.

Definition accounts : Type := list (string * Q).

Definition credit (a : string) (q : Q) (s : accounts) : accounts :=
  map (fun p => if String.eqb (fst p) a then (fst p, Qred (snd p + q)) else p) s.

Definition value_error (msg : string) : Exn := mkExn ValueCommandException msg.
Definition account_error (msg : string) : Exn :=
  mkExn AccountCommandException msg.

Definition open_account (argv : list Value) (s : accounts)
  : (Exn + unit) * accounts :=
  match argv with
  | [_; VStr a] =>
      match dict_get a s with
      | Some _ => (inl (value_error "Account already exists"), s)
      | None => (inr tt, s ++ [(a, 0%Q)])
      end
  | _ => (inl (value_error "Invalid account id"), s)
  end.

Definition balance (argv : list Value) (s : accounts) : (Exn + Q) * accounts :=
  match argv with
  | [_; VStr a] =>
      match dict_get a s with
      | Some q => (inr q, s)
      | None => (inl (account_error "No such account"), s)
      end
  | _ => (inl (account_error "No such account"), s)
  end.

Definition change (sign : Z) (argv : list Value) (s : accounts)
  : (Exn + unit) * accounts :=
  match argv with
  | [_; VStr a; VFrac q] =>
      if Py.Qlt_bool q 0 then (inl (value_error "Negative amount"), s)
      else match dict_get a s with
           | Some _ => (inr tt, credit a (inject_Z sign * q) s)
           | None => (inl (account_error "No such account"), s)
           end
  | _ => (inl (value_error "Invalid amount"), s)
  end.

Definition transfer (argv : list Value) (s : accounts)
  : (Exn + unit) * accounts :=
  match argv with
  | [_; VStr a; VStr b; VFrac q] =>
      if Py.Qlt_bool q 0 then (inl (value_error "Negative amount"), s)
      else match dict_get a s, dict_get b s with
           | Some _, Some _ => (inr tt, credit b q (credit a (- q) s))
           | _, _ => (inl (account_error "No such account"), s)
           end
  | _ => (inl (value_error "Invalid amount"), s)
  end.

Definition shoot_account (argv : list Value) (s : accounts)
  : (Exn + bool) * accounts :=
  match argv with
  | [_; _; VStr v] =>
      match dict_get v s with
      | Some q => (inr (Py.Qlt_bool 0 q), s)
      | None => (inl (value_error "Victim cannot be shot"), s)
      end
  | _ => (inl (account_error "No such account"), s)
  end.

Definition serve (f : commands.fn) (argv : list Value) (s : accounts)
  : (Exn + commands.result f) * accounts :=
  match f return (Exn + commands.result f) * accounts with
  | commands.open_account => open_account argv s
  | commands.transfer => transfer argv s
  | commands.balance => balance argv s
  | commands.print_money => change 1 argv s
  | commands.remove_funds => change (-1) argv s
  | commands.shoot_account => shoot_account argv s
  | commands.get_money_supply =>
      (inr (fold_right (fun p q => Qred (snd p + q)) 0%Q s), s)
  | commands.list_public_accounts => (inr [], s)
  | commands.list_accounts => (inr [], s)
  | commands.get_farm_balance =>
      (inr match argv with
           | [_; VStr "ann"] => [1%N]
           | [_; VStr "ben"] => [1%N; 2%N]
           | _ => []
           end, s)
  | commands.verify_proxy =>
      (inr match argv with
           | VStr "root" :: _ => true
           | _ => false
           end, s)
  | commands.toggle_public => (inr false, s)
  | commands.auto_tax => (inr false, s)
  | commands.vest_balance => (inr false, s)
  | commands.create_recurring_transfer => (inr 7%N, s)
  | commands.name => (inr (hd VNone argv), s)
  | commands.request_alias => (inr (VStr "code"), s)
  | commands.gun_balance => (inr (VInt 0), s)
  | _ => (inr tt, s)
  end.

Definition accounting : Accounting := {|
  Server := accounts;
  parse_account_id := fun s => inr (VStr s);
  Authorization :=
    [("CITIZEN", 0%N); ("OFFICER", 1%N); ("ADMIN", 2%N); ("DEVELOPER", 3%N)];
  call_commands := serve;
  str_obj := fun o => "object " +:+ Py.str_int (Z.of_N o);
  repr_obj := fun o => "<object " +:+ Py.str_int (Z.of_N o) +:+ ">";
  eq_obj := fun o v => match v with VObj o' => N.eqb o o' | _ => false end;
  readable := fun o => "object " +:+ Py.str_int (Z.of_N o);
  get_id := fun o => VInt (Z.of_N o);
  type_name := fun o => if N.eqb o 1 then "wheat" else "corn";
  get_account_ids := fun _ o => [VStr ("acct" +:+ Py.str_int (Z.of_N o))];
  get_authorization_name := fun _ _ => "CITIZEN";
  get_balance := fun _ _ => 0%Q;
  Float := Q;
  truediv := Exact.truediv;
  float_int := Exact.to_int;
  float_le1 := Exact.le1;
  float_round2 := Exact.round2
|}.

(** Two open accounts. *)
Definition two : accounts := [("ann", 5 # 1); ("ben", 0 # 1)].

End Bank.

(** ** Vocabulary of the properties *)

(** A word: a non-empty string without whitespace. *)
Fixpoint no_space (s : string) : bool :=
  match s with
  | EmptyString => true
  | String c s' => negb (Py.is_space c) && no_space s'
  end.

Definition word (t : string) : Prop := t <> EmptyString /\ no_space t = true.

(** The string is empty or starts with whitespace. *)
Definition starts_blank (s : string) : Prop :=
  match s with
  | EmptyString => True
  | String c _ => Py.is_space c = true
  end.

(** A registry is well formed when every name leads to a command object
    that carries that name. *)
Definition wf (st : Store) : Prop :=
  Forall (fun kv => exists c, objects st !! snd kv = Some c /\ name c = fst kv)
    (_commands st).

(** The registry at the moment the module reaches its first alias,
    [_alias('leader-board', 'lb')]. *)
Definition before_first_alias : Store :=
  Eval vm_compute in
    match exec_all (take 6 module_body) empty_store with
    | inr st => st
    | inl _ => empty_store
    end.

#[global] Instance Coercion_eq_dec : EqDecision Coercion.
Proof. solve_decision. Defined.

#[global] Instance Func_eq_dec : EqDecision Func.
Proof. solve_decision. Defined.

(** The coercions of the parameters of a command, in order. *)
Definition coercions (st : Store) (c : _Command) : list Coercion :=
  map (fun kv => fst (snd kv)) (args_of st c).

(** The commands that run the proxy handlers declare an account and, last,
    the first word of the nested line as a plain string. *)
Definition proxy_shape (st : Store) (c : _Command) : bool :=
  match func c with
  | fn_proxy => bool_decide (coercions st c = [Cparse_account_id; Cstr])
  | fn_proxy_dsa =>
      bool_decide (coercions st c = [Cparse_account_id; Cstr; Cstr])
  | _ => true
  end.

Definition proxy_shapes (st : Store) : bool :=
  forallb (fun kv =>
             match objects st !! snd kv with
             | Some c => proxy_shape st c
             | None => true
             end)
    (_commands st).

(** A computation that returns or raises from every state: the bound on
    the nesting depth is not reached. *)
Definition total `{Acc : Accounting} {A : Type} (m : M A) : Prop :=
  forall s, fst (fst (m s)) <> Exhausted.

(** The two proxy commands side by side: [None] is the unsigned [proxy],
    [Some signature] is [proxy-dsa] with that signature word.  The words of
    an invocation, the signature handed to [verify_proxy], the handler and
    the arguments it is called with. *)
Definition proxy_words (signature : option string) (a c : string)
  (more : list string) : list string :=
  match signature with
  | None => "proxy" :: a :: c :: more
  | Some sig => "proxy-dsa" :: a :: sig :: c :: more
  end.

Definition proxy_signature (signature : option string) : Value :=
  match signature with
  | None => VNone
  | Some sig => VStr sig
  end.

Definition proxy_func (signature : option string) : Func :=
  match signature with
  | None => fn_proxy
  | Some _ => fn_proxy_dsa
  end.

Definition proxy_argv (signature : option string) (author account : Value)
  (c : string) (more : list string) : list Value :=
  match signature with
  | None => [author; account; VStr c; VStr (Py.join " " more)]
  | Some sig => [author; account; VStr sig; VStr c; VStr (Py.join " " more)]
  end.

(** What a proxy invocation does before it decides: it is dispatched, its
    handler is entered, and [verify_proxy] is asked about the nested line. *)
Definition proxy_trace (signature : option string) (author account : Value)
  (message c : string) (more : list string) : list Event :=
  [ Dispatched author message;
    Invoked (proxy_func signature) (proxy_argv signature author account c more);
    Called commands.verify_proxy
      [author; account; proxy_signature signature;
       VStr ((c +:+ " ") +:+ Py.join " " more)] ].

(** The exception classes that no [except] clause of [run_command]
    catches. *)
Definition uncaught (k : ExnKind) : Prop :=
  match k with
  | ValueError | KeyError | ValueCommandException | AccountCommandException
  | UnauthorizedCommandException | ProcessCommandException => False
  | _ => True
  end.

(** The entries into [run_command] that a trace records. *)
Definition dispatches (t : list Event) : list (Value * string) :=
  omap (fun ev => match ev with
                  | Dispatched author message => Some (author, message)
                  | _ => None
                  end) t.

(** The entries into handler bodies that a trace records. *)
Definition invocations (t : list Event) : list Func :=
  omap (fun ev => match ev with
                  | Invoked f _ => Some f
                  | _ => None
                  end) t.

(** The handler calls of a run, with their arguments. *)
Definition invocations_of {S A : Type} (r : Outcome A * S * list Event)
  : list (Func * list Value) :=
  omap (fun ev => match ev with
                  | Invoked f argv => Some (f, argv)
                  | _ => None
                  end) (snd r).




(** The leader board as its reader sees it.  These definitions say what a
    listing looks like without the handler: they use none of
    [leader_board_row], [account_columns], [_rounded] and [Py.enumerate]. *)



(** The line of the account [acc] at rank [rank], with its balance as
    printed: the rank in 3 columns, the ids of the account joined by colons
    in 28, its authorization in lower case in 9, and the balance,
    right-aligned, in 8; bars between them. *)
Definition listed `{Acc : Accounting} (server : Server) (rank : nat)
  (acc : Obj) (balance : string) : string :=
  Py.ljust 3 (Py.str_int (Z.of_nat rank)) +:+ " | "
  +:+ Py.ljust 28 (Py.join ":" (map py_str (get_account_ids server acc)))
  +:+ " | "
  +:+ Py.ljust 9 (Py.lower (get_authorization_name server acc))
  +:+ " | "
  +:+ Py.rjust 8 balance.






(** Some commands of the loaded registry, as [lookup] returns them. *)
Definition transfer_command : _Command :=
  {| func := fn_transfer; args := 1; name := "transfer";
     description :=
       "Transfers an amount of money from your account to a beneficiary's" |}.

Definition leader_board_command : _Command :=
  {| func := fn_leader_board; args := 5; name := "leader-board";
     description := "view a list of all public accounts sorted by balance" |}.

Definition add_public_key_command : _Command :=
  {| func := fn_add_public_key; args := 12; name := "add-public-key";
     description := "Adds a public key to your account" |}.

Definition authorise_command : _Command :=
  {| func := fn_authorize; args := 42; name := "authorise";
     description := "Authorize a command" |}.

Definition help_command : _Command :=
  {| func := fn_help; args := 43; name := "help";
     description := "List all commands" |}.

(** The invariant of the registry: its names are distinct, every name leads
    to a command object that carries that name, and every command object
    refers to an allocated [args] dictionary. *)
Definition sound (st : Store) : Prop :=
  wf st
  /\ NoDup (map fst (_commands st))
  /\ Forall (fun c => args c < length (dicts st)) (objects st).

(** Strictly ascending, as strings compare. *)
Definition strictly_ascending (names : list string) : Prop :=
  StronglySorted (fun a b => String.ltb a b = true) names.

(** One row of the general help. *)
Definition help_row (command : _Command) : string :=
  "    " +:+ name command +:+ " -- " +:+ description command.

(** The registry before the module sorts it: after its 51 registrations
    and aliases. *)
Definition unsorted : Store :=
  Eval vm_compute in
    match exec_all (take 51 module_body) empty_store with
    | inr st => st
    | inl _ => empty_store
    end.

(** The string holds no line boundary. *)
Fixpoint one_line (s : string) : bool :=
  match s with
  | EmptyString => true
  | String c s' => negb (Py.is_linebreak c) && one_line s'
  end.

(** A computation that enters [run_command] at most [d] times. *)
Definition nested `{Acc : Accounting} {A : Type} (d : nat) (m : M A) : Prop :=
  forall s, length (dispatches (snd (m s))) <= d.

(** A run whose trace is extended in front by the events [es]. *)
Definition after {S A : Type} (es : list Event) (r : Outcome A * S * list Event)
  : Outcome A * S * list Event :=
  let '(o, s, t) := r in (o, s, es ++ t).

(** * Properties *)

(** ** Strings *)

Lemma append_cons (c : ascii) (s t : string) :
  String c s +:+ t = String c (s +:+ t).
Proof. reflexivity. Qed.

Lemma append_empty_l (s : string) : EmptyString +:+ s = s.
Proof. reflexivity. Qed.

Lemma append_empty_r (s : string) : s +:+ EmptyString = s.
Proof.
  induction s as [|c s IH]; [reflexivity |].
  now rewrite append_cons, IH.
Qed.

Lemma append_assoc (a b c : string) : (a +:+ b) +:+ c = a +:+ (b +:+ c).
Proof.
  induction a as [|x a IH]; [reflexivity |].
  now rewrite !append_cons, IH.
Qed.

Lemma split_blank (s : string) : Py.all_space s = true -> Py.split s = [].
Proof.
  induction s as [|c s IH]; simpl; [reflexivity |].
  intros H. apply andb_prop in H as [Hc Hs]. rewrite Hc. now apply IH.
Qed.

Lemma split_skip (c : ascii) (s : string) :
  Py.is_space c = true -> Py.split (String c s) = Py.split s.
Proof. intros H. simpl. now rewrite H. Qed.

(** A word in front of a blank is the first word of the line. *)
Lemma split_word_app (t s : string) :
  word t -> starts_blank s -> Py.split (t +:+ s) = t :: Py.split s.
Proof.
  intros [Hne Hns] Hs. induction t as [|c t IH]; [congruence |].
  simpl in Hns. apply andb_prop in Hns as [Hc Ht].
  apply negb_true_iff in Hc.
  rewrite append_cons. destruct t as [|c' t'].
  - rewrite append_empty_l. cbn [Py.split]. rewrite Hc.
    destruct s as [|d s']; [reflexivity |].
    simpl in Hs. now rewrite Hs.
  - assert (IH' : Py.split (String c' t' +:+ s) = String c' t' :: Py.split s)
      by (apply IH; [discriminate | exact Ht]).
    simpl in Ht. apply andb_prop in Ht as [Hc' _].
    apply negb_true_iff in Hc'.
    rewrite append_cons in IH' |- *.
    cbn [Py.split]. rewrite Hc, Hc'.
    cbn [Py.split] in IH'. rewrite Hc' in IH'. now rewrite IH'.
Qed.

Lemma split_word (t : string) : word t -> Py.split t = [t].
Proof.
  intros H. rewrite <- (append_empty_r t) at 1.
  now rewrite split_word_app.
Qed.

(** The line [t + ' ' + s] starts with the word [t]. *)
Lemma split_word_space (t s : string) :
  word t -> Py.split (t +:+ " " +:+ s) = t :: Py.split s.
Proof.
  intros H. rewrite split_word_app; [| exact H | reflexivity].
  reflexivity.
Qed.

(** [split] returns words. *)
Lemma split_words (s : string) : Forall word (Py.split s).
Proof.
  induction s as [|c s IH]; [constructor |].
  cbn [Py.split]. destruct (Py.is_space c) eqn:Hc; [exact IH |].
  assert (Hw : forall t, no_space t = true -> word (String c t)).
  { intros t Ht. split; [discriminate |]. simpl. now rewrite Hc, Ht. }
  destruct s as [|c' s'].
  - constructor; [now apply Hw | constructor].
  - destruct (Py.is_space c') eqn:Hc'.
    + constructor; [now apply Hw | exact IH].
    + destruct (Py.split (String c' s')) as [|t ts].
      * constructor; [now apply Hw | constructor].
      * inversion IH as [|? ? [_ Ht] Hts]; subst.
        constructor; [now apply Hw | exact Hts].
Qed.

(** Joining words with single spaces and splitting again gives the words
    back. *)
Lemma split_join (ts : list string) :
  Forall word ts -> Py.split (Py.join " " ts) = ts.
Proof.
  induction ts as [|t ts IH]; intros H; [reflexivity |].
  inversion H as [|? ? Ht Hts]; subst.
  destruct ts as [|u ts].
  - simpl. now apply split_word.
  - change (Py.join " " (t :: u :: ts))
      with (t +:+ " " +:+ Py.join " " (u :: ts)).
    rewrite split_word_space by exact Ht. now rewrite IH.
Qed.

(** The nested line of a proxy, [command + ' ' + rest]: a word, a space and
    the joined rest. *)
Lemma split_nested (c : string) (more : list string) :
  word c -> Forall word more ->
  Py.split ((c +:+ " ") +:+ Py.join " " more) = c :: more.
Proof.
  intros Hc Hmore. rewrite append_assoc, split_word_space by exact Hc.
  now rewrite split_join.
Qed.

(** ** The parser *)

Section Parser.

Context `{Acc : Accounting}.

Lemma coerce_all_length values inputs args :
  coerce_all values inputs = inr args ->
  length args = Nat.min (length values) (length inputs).
Proof.
  revert inputs args.
  induction values as [|arg values IH]; intros [|input inputs] args H;
    simpl in H; try (injection H as <-; reflexivity).
  destruct (coerce (fst arg) input) as [e|v]; [discriminate |].
  destruct (coerce_all values inputs) as [e|vs] eqn:Hvs; [discriminate |].
  injection H as <-. simpl. f_equal. now apply IH.
Qed.

Variable st : Store.

(** Enough words, and all of them coerce: the typed arguments, and the
    remaining words joined by single spaces. *)
Lemma parse_ok command message key inputs args :
  Py.split message = key :: inputs ->
  name command = key ->
  coerce_all (map snd (args_of st command)) inputs = inr args ->
  length (args_of st command) <= length inputs ->
  _parse_command_args st command message
  = inr (args, Py.join " " (drop (length (args_of st command)) inputs)).
Proof.
  intros Hsplit Hname Hargs Hlen. unfold _parse_command_args.
  rewrite Hsplit, Hname, String.eqb_refl. cbn [negb]. rewrite Hargs.
  apply coerce_all_length in Hargs. rewrite length_map in Hargs.
  assert (Hn : (length args <? length (args_of st command)) = false)
    by (apply Nat.ltb_ge; lia).
  now rewrite Hn.
Qed.

(** Fewer words than parameters, and those present coerce. *)
Lemma parse_short command message key inputs args :
  Py.split message = key :: inputs ->
  name command = key ->
  coerce_all (map snd (args_of st command)) inputs = inr args ->
  length inputs < length (args_of st command) ->
  _parse_command_args st command message
  = inl (mkExn ValueError "Not enough arguments").
Proof.
  intros Hsplit Hname Hargs Hlen. unfold _parse_command_args.
  rewrite Hsplit, Hname, String.eqb_refl. cbn [negb]. rewrite Hargs.
  apply coerce_all_length in Hargs. rewrite length_map in Hargs.
  assert (Hn : (length args <? length (args_of st command)) = true)
    by (apply Nat.ltb_lt; lia).
  now rewrite Hn.
Qed.

(** A coercion raises. *)
Lemma parse_coercion_error command message key inputs e :
  Py.split message = key :: inputs ->
  name command = key ->
  coerce_all (map snd (args_of st command)) inputs = inl e ->
  _parse_command_args st command message = inl e.
Proof.
  intros Hsplit Hname Hargs. unfold _parse_command_args.
  rewrite Hsplit, Hname, String.eqb_refl. cbn [negb]. now rewrite Hargs.
Qed.

(** ** One step of dispatch *)

Variable rc : Value -> string -> M Value.

Lemma dispatch_blank author message s :
  Py.split message = [] ->
  dispatch st rc author message s
  = (Raise index_error, s, [Dispatched author message]).
Proof. intros H. unfold dispatch, bind, tell, raise. now rewrite H. Qed.

Lemma dispatch_unknown author message key inputs s :
  Py.split message = key :: inputs ->
  lookup st key = None ->
  dispatch st rc author message s
  = (Return (VStr ("No such command: " +:+ key)), s,
     [Dispatched author message]).
Proof.
  intros H Hl. unfold dispatch, bind, tell, reply, ret. now rewrite H, Hl.
Qed.

Lemma dispatch_parsed author message key inputs command args rest s :
  Py.split message = key :: inputs ->
  lookup st key = Some command ->
  _parse_command_args st command message = inr (args, rest) ->
  dispatch st rc author message s
  = after [Dispatched author message]
      (try_except
         (call_func rc st (func command) (author :: args ++ [VStr rest]))
         (except_clauses st command key) s).
Proof.
  intros H Hl Hp. unfold dispatch, bind at 1, tell. rewrite H, Hl.
  unfold try_except, bind, lift, ret. rewrite Hp. cbn [fst snd].
  now destruct (call_func rc st (func command) (author :: args ++ [VStr rest])
                  s) as [[o s1] t1].
Qed.

Lemma dispatch_parse_error author message key inputs command e s :
  Py.split message = key :: inputs ->
  lookup st key = Some command ->
  _parse_command_args st command message = inl e ->
  dispatch st rc author message s
  = after [Dispatched author message]
      match except_clauses st command key e with
      | Some k => k s
      | None => (Raise e, s, [])
      end.
Proof.
  intros H Hl Hp. unfold dispatch, bind at 1, tell. rewrite H, Hl.
  unfold try_except, bind, lift, raise. rewrite Hp.
  destruct (except_clauses st command key e) as [k|]; [| reflexivity].
  now destruct (k s) as [[o s2] t2].
Qed.

(** Binding the arguments succeeds when their number fits. *)
Lemma call_func_bound f argv s :
  length argv + 1 = length (func_params f) ->
  call_func rc st f argv s = after [Invoked f argv] (body rc st f argv s).
Proof.
  intros H. unfold call_func. apply Nat.eqb_eq in H. rewrite H.
  unfold bind, tell. now destruct (body rc st f argv s) as [[o s'] t].
Qed.

Lemma call_func_unbound f argv s :
  length argv + 1 <> length (func_params f) ->
  call_func rc st f argv s = (Raise type_error, s, []).
Proof.
  intros H. unfold call_func. apply Nat.eqb_neq in H. now rewrite H.
Qed.

End Parser.

(** ** Sorting *)

Section SortedFacts.

Context {A K : Type} (key : A -> K) (lt : K -> K -> bool).

Lemma insert_perm x l : Permutation (Py.insert key lt x l) (x :: l).
Proof.
  induction l as [|y l IH]; simpl; [reflexivity |].
  destruct (lt (key x) (key y)); [reflexivity |].
  rewrite IH. apply perm_swap.
Qed.

Lemma sort_from_perm l acc :
  Permutation (fold_left (fun acc x => Py.insert key lt x acc) l acc) (acc ++ l).
Proof.
  revert acc. induction l as [|x l IH]; intros acc; simpl.
  - now rewrite app_nil_r.
  - rewrite IH, insert_perm.
    change (x :: acc ++ l) with ((x :: acc) ++ l).
    rewrite (Permutation_middle acc l x). reflexivity.
Qed.

Lemma sort_perm l : Permutation (Py.sort key lt l) l.
Proof. unfold Py.sort. now rewrite sort_from_perm. Qed.

Lemma sorted_perm reverse l : Permutation (Py.sorted key lt reverse l) l.
Proof.
  unfold Py.sorted. destruct reverse; [| apply sort_perm].
  now rewrite <- Permutation_rev, sort_perm, <- Permutation_rev.
Qed.

End SortedFacts.

(** ** The registry *)

Lemma dict_get_In {V : Type} (k : string) (v : V) d :
  dict_get k d = Some v -> In (k, v) d.
Proof.
  induction d as [|[k' v'] d IH]; simpl; [discriminate |].
  destruct (String.eqb_spec k k') as [->|Hne].
  - intros [= ->]. now left.
  - intros H. right. now apply IH.
Qed.

Lemma dict_get_update_eq {V : Type} (k : string) (v : V) d :
  dict_get k (dict_update k v d) = Some v.
Proof.
  induction d as [|[k' v'] d IH]; simpl.
  - now rewrite String.eqb_refl.
  - destruct (String.eqb_spec k k') as [->|Hne]; simpl.
    + now rewrite String.eqb_refl.
    + apply String.eqb_neq in Hne. now rewrite Hne.
Qed.

Lemma dict_get_update_ne {V : Type} (k k' : string) (v : V) d :
  k <> k' -> dict_get k' (dict_update k v d) = dict_get k' d.
Proof.
  intros Hne. induction d as [|[k0 v0] d IH]; simpl.
  - apply not_eq_sym, String.eqb_neq in Hne. now rewrite Hne.
  - destruct (String.eqb_spec k k0) as [->|Hk]; simpl.
    + apply not_eq_sym, String.eqb_neq in Hne. now rewrite Hne.
    + now rewrite IH.
Qed.

Lemma dict_update_Forall {V : Type} (P : string * V -> Prop) k v d :
  Forall P d -> P (k, v) -> Forall P (dict_update k v d).
Proof.
  intros Hd Hk. induction Hd as [|[k' v'] d Hx Hd IH]; simpl.
  - now repeat constructor.
  - destruct (String.eqb_spec k k') as [->|Hne]; constructor; auto.
Qed.

(** In a well-formed registry a command is found under its own name. *)
Lemma wf_lookup st key c : wf st -> lookup st key = Some c -> name c = key.
Proof.
  intros Hwf H. unfold lookup in H.
  destruct (dict_get key (_commands st)) as [o|] eqn:Ho; [| discriminate].
  apply dict_get_In in Ho. apply (proj2 (list_elem_of_In _ _)) in Ho.
  unfold wf in Hwf. rewrite Forall_forall in Hwf.
  destruct (Hwf _ Ho) as (c' & Hc' & Hname). simpl in *. congruence.
Qed.

Lemma wf_empty : wf empty_store.
Proof. constructor. Qed.

(** Allocating an object keeps the references of the registry. *)
Lemma wf_grow (cmds : list (string * nat)) objs c :
  Forall (fun kv => exists c, objs !! snd kv = Some c /\ name c = fst kv) cmds ->
  Forall (fun kv => exists c', (objs ++ [c]) !! snd kv = Some c'
                               /\ name c' = fst kv) cmds.
Proof.
  intros H. eapply Forall_impl; [exact H |].
  intros [k o] (c' & Hc' & Hname). exists c'.
  split; [| exact Hname]. simpl in *.
  rewrite lookup_app_l; [exact Hc' | now apply lookup_lt_Some in Hc'].
Qed.

Lemma wf_add_command key d f descr st :
  wf st -> wf (_add_command key d f descr st).
Proof.
  intros Hwf. unfold wf, _add_command, new_Command. simpl.
  apply dict_update_Forall.
  - now apply wf_grow.
  - eexists. split; [apply list_lookup_middle; reflexivity | reflexivity].
Qed.

Lemma wf_alias key alias st st' :
  wf st -> _alias key alias st = inr st' -> wf st'.
Proof.
  intros Hwf H. unfold _alias in H.
  destruct (dict_get key (_commands st)) as [o|]; [| discriminate].
  unfold copy in H. destruct (objects st !! o) as [c|]; [| discriminate].
  unfold new_Command, set_name in H. cbn [objects dicts _commands] in H.
  rewrite list_lookup_middle in H by reflexivity.
  injection H as <-. unfold wf. cbn [objects _commands].
  apply dict_update_Forall.
  - eapply Forall_impl; [exact Hwf |].
    intros [k o'] (c' & Hc' & Hname). exists c'. split; [| exact Hname].
    simpl in *. pose proof (lookup_lt_Some _ _ _ Hc') as Hlt.
    rewrite list_lookup_insert_ne by lia.
    now rewrite lookup_app_l.
  - eexists. split.
    + cbn [snd]. apply list_lookup_insert_eq. rewrite length_app. simpl. lia.
    + reflexivity.
Qed.

Lemma wf_exec stmt st st' : wf st -> exec stmt st = inr st' -> wf st'.
Proof.
  intros Hwf H. destruct stmt as [key d f descr|key alias|]; simpl in H.
  - injection H as <-. now apply wf_add_command.
  - now apply wf_alias in H.
  - injection H as <-. unfold wf in *. cbn [objects _commands].
    unfold sorted_items.
    eapply Permutation_Forall; [| exact Hwf].
    symmetry. apply sorted_perm.
Qed.

(** Every registry that a sequence of registrations and aliases builds is
    well formed. *)
Lemma wf_exec_all body st st' :
  wf st -> exec_all body st = inr st' -> wf st'.
Proof.
  revert st. induction body as [|stmt body IH]; intros st Hwf H; simpl in H.
  - now injection H as <-.
  - destruct (exec stmt st) as [e|st1] eqn:H1; [discriminate |].
    eapply IH; [| exact H]. now apply wf_exec in H1.
Qed.

Lemma loaded_eq : exec_all module_body empty_store = inr loaded.
Proof. vm_compute. reflexivity. Qed.

Lemma wf_loaded : wf loaded.
Proof. exact (wf_exec_all _ _ _ wf_empty loaded_eq). Qed.

(** C7. In a registry built by registrations and aliases, aliasing a
    registered command under another name makes both names resolve: the
    original name to the object it had, the alias to a new object with the
    same [args] dictionary (the same reference) and the same handler, whose
    name is the alias and differs from the original's.  The two are distinct
    objects: assigning a description to either leaves the other as it was. *)
Theorem alias_is_independent_copy (body : list Stmt) (st : Store)
  (key alias : string) (c : _Command) :
  exec_all body empty_store = inr st ->
  lookup st key = Some c ->
  key <> alias ->
  exists st' o o' c',
    _alias key alias st = inr st'
    /\ dict_get key (_commands st') = Some o
    /\ dict_get alias (_commands st') = Some o'
    /\ lookup st' key = Some c
    /\ lookup st' alias = Some c'
    /\ args c' = args c
    /\ func c' = func c
    /\ name c = key
    /\ name c' = alias
    /\ name c' <> name c
    /\ o' <> o
    /\ forall d,
         lookup (set_description o' d st') key = Some c
         /\ description <$> lookup (set_description o' d st') alias = Some d
         /\ lookup (set_description o d st') alias = Some c'
         /\ description <$> lookup (set_description o d st') key = Some d.
Proof.
  intros Hbuilt Hc Hne.
  pose proof (wf_exec_all _ _ _ wf_empty Hbuilt) as Hwf.
  pose proof (wf_lookup _ _ _ Hwf Hc) as Hname.
  unfold lookup in Hc.
  destruct (dict_get key (_commands st)) as [o|] eqn:Ho; [| discriminate].
  pose proof (lookup_lt_Some _ _ _ Hc) as Hlt.
  set (o' := length (objects st)).
  set (copied := {| func := func c; args := args c; name := name c;
                    description := description c |}).
  set (c' := {| func := func c; args := args c; name := alias;
                description := description c |}).
  set (objs := <[o' := c']> (objects st ++ [copied])).
  set (cmds := dict_update alias o' (_commands st)).
  assert (Hlen : o' < length (objects st ++ [copied]))
    by (rewrite length_app; simpl; subst o'; lia).
  assert (Hobj : objs !! o = Some c).
  { subst objs. rewrite list_lookup_insert_ne by (subst o'; lia).
    now rewrite lookup_app_l. }
  assert (Hobj' : objs !! o' = Some c')
    by (subst objs; now apply list_lookup_insert_eq).
  assert (Hkey : dict_get key cmds = Some o)
    by (subst cmds; rewrite dict_get_update_ne; auto).
  assert (Halias : dict_get alias cmds = Some o')
    by (subst cmds; apply dict_get_update_eq).
  exists {| dicts := dicts st; objects := objs; _commands := cmds |}, o, o', c'.
  assert (Hobjs : length objs = length (objects st ++ [copied]))
    by (subst objs; apply length_insert).
  repeat split; try assumption; try reflexivity.
  - unfold _alias, copy. rewrite Ho, Hc. unfold new_Command, set_name.
    cbn [objects dicts _commands]. fold o' copied.
    rewrite list_lookup_middle by reflexivity. reflexivity.
  - unfold lookup. cbn [objects _commands]. now rewrite Hkey.
  - unfold lookup. cbn [objects _commands]. now rewrite Halias.
  - rewrite Hname. cbn [name c']. congruence.
  - subst o'. lia.
  - unfold lookup, set_description. cbn [objects _commands].
    rewrite Hobj'. cbn [objects _commands]. rewrite Hkey.
    rewrite list_lookup_insert_ne by (subst o'; lia). exact Hobj.
  - unfold lookup, set_description. cbn [objects _commands].
    rewrite Hobj'. cbn [objects _commands]. rewrite Halias.
    rewrite list_lookup_insert_eq by lia. reflexivity.
  - unfold lookup, set_description. cbn [objects _commands].
    rewrite Hobj. cbn [objects _commands]. rewrite Halias.
    rewrite list_lookup_insert_ne by (subst o'; lia). exact Hobj'.
  - unfold lookup, set_description. cbn [objects _commands].
    rewrite Hobj. cbn [objects _commands]. rewrite Hkey.
    rewrite list_lookup_insert_eq by lia. reflexivity.
Qed.

(** The seven aliases of the module, in the loaded registry: each alias
    and its original share the [args] reference and the handler, and differ
    in name and in object. *)
Lemma loaded_aliases :
  Forall (fun p =>
            exists o o' c c',
              dict_get (fst p) (_commands loaded) = Some o
              /\ dict_get (snd p) (_commands loaded) = Some o'
              /\ objects loaded !! o = Some c
              /\ objects loaded !! o' = Some c'
              /\ o <> o' /\ args c' = args c /\ func c' = func c
              /\ name c = fst p /\ name c' = snd p)
    [ ("leader-board", "lb"); ("balance", "bal"); ("full-balance", "full-bal");
      ("list", "ls"); ("gun-balance", "gun-bal"); ("vest-balance", "vest-bal");
      ("authorize", "authorise") ].
Proof.
  repeat constructor; do 4 eexists; cbn [fst snd];
    (split; [vm_compute; reflexivity |]);
    (split; [vm_compute; reflexivity |]);
    (split; [vm_compute; reflexivity |]);
    (split; [vm_compute; reflexivity |]);
    repeat split; discriminate.
Qed.

Lemma alias_is_independent_copy_witness :
  exec_all (take 6 module_body) empty_store = inr before_first_alias
  /\ lookup before_first_alias "leader-board" = Some leader_board_command
  /\ "leader-board" <> "lb"
  /\ exists st' o o' c',
       _alias "leader-board" "lb" before_first_alias = inr st'
       /\ dict_get "leader-board" (_commands st') = Some o
       /\ dict_get "lb" (_commands st') = Some o'
       /\ lookup st' "leader-board" = Some leader_board_command
       /\ lookup st' "lb" = Some c'
       /\ args c' = args leader_board_command
       /\ func c' = func leader_board_command
       /\ name leader_board_command = "leader-board"
       /\ name c' = "lb"
       /\ name c' <> name leader_board_command
       /\ o' <> o
       /\ forall d,
            lookup (set_description o' d st') "leader-board"
            = Some leader_board_command
            /\ description <$> lookup (set_description o' d st') "lb" = Some d
            /\ lookup (set_description o d st') "lb" = Some c'
            /\ description <$> lookup (set_description o d st') "leader-board"
               = Some d.
Proof.
  split; [vm_compute; reflexivity |].
  split; [vm_compute; reflexivity |].
  split; [discriminate |].
  apply (alias_is_independent_copy (take 6 module_body) before_first_alias
           "leader-board" "lb" leader_board_command).
  - vm_compute. reflexivity.
  - vm_compute. reflexivity.
  - discriminate.
Defined.

Lemma loaded_proxy_shapes : proxy_shapes loaded = true.
Proof. vm_compute. reflexivity. Qed.

Lemma lookup_proxy_shape key c :
  lookup loaded key = Some c -> proxy_shape loaded c = true.
Proof.
  intros H. unfold lookup in H.
  destruct (dict_get key (_commands loaded)) as [o|] eqn:Ho; [| discriminate].
  apply dict_get_In in Ho.
  pose proof (proj1 (forallb_forall _ _) loaded_proxy_shapes _ Ho) as Hs.
  cbn [snd] in Hs. now rewrite H in Hs.
Qed.

(** ** Nested calls

    What [run_command] computes on a line depends on the nested calls for
    shorter lines only. *)

Section Nested.

Context `{Acc : Accounting}.

(** A successful parse, read backwards. *)
Lemma parse_inv st command message args rest :
  _parse_command_args st command message = inr (args, rest) ->
  exists inputs,
    Py.split message = name command :: inputs
    /\ coerce_all (map snd (args_of st command)) inputs = inr args
    /\ length (args_of st command) <= length inputs
    /\ rest = Py.join " " (drop (length (args_of st command)) inputs).
Proof.
  unfold _parse_command_args. intros H.
  destruct (Py.split message) as [|key inputs]; [discriminate |].
  destruct (String.eqb_spec (name command) key) as [->|];
    cbn [negb] in H; [| discriminate].
  destruct (coerce_all (map snd (args_of st command)) inputs) as [e|vs] eqn:Hvs;
    [discriminate |].
  destruct (length vs <? length (args_of st command)) eqn:Hlen;
    [discriminate |].
  injection H as <- <-. exists inputs.
  apply Nat.ltb_ge in Hlen. apply coerce_all_length in Hvs as Hl.
  rewrite length_map in Hl. repeat split; auto; lia.
Qed.

(** The handlers other than the two proxies make no nested call. *)
Lemma body_no_nested_call rc1 rc2 st f argv :
  f <> fn_proxy -> f <> fn_proxy_dsa ->
  body rc1 st f argv = body rc2 st f argv.
Proof. intros H1 H2. destruct f; congruence || reflexivity. Qed.

(** The proxies call [run_command] on the nested line only. *)
Lemma proxy_nested_call rc1 rc2 author account command rest s :
  (forall s', rc1 account ((command +:+ " ") +:+ rest) s'
              = rc2 account ((command +:+ " ") +:+ rest) s') ->
  _proxy rc1 author account (VStr command) (VStr rest) s
  = _proxy rc2 author account (VStr command) (VStr rest) s.
Proof.
  intros H. unfold _proxy, bind, lift, nested_line, py_add, ret, call.
  destruct (call_commands commands.verify_proxy _ s) as [[e|[|]] s1];
    try reflexivity.
  cbn [app]. now rewrite H.
Qed.

Lemma proxy_dsa_nested_call rc1 rc2 author account signature command rest s :
  (forall s', rc1 account ((command +:+ " ") +:+ rest) s'
              = rc2 account ((command +:+ " ") +:+ rest) s') ->
  _proxy_dsa rc1 author account signature (VStr command) (VStr rest) s
  = _proxy_dsa rc2 author account signature (VStr command) (VStr rest) s.
Proof.
  intros H. unfold _proxy_dsa, bind, lift, nested_line, py_add, ret, call.
  destruct (call_commands commands.verify_proxy _ s) as [[e|[|]] s1];
    try reflexivity.
  cbn [app]. now rewrite H.
Qed.

(** The words of a line, once the line is known to split into them. *)
Lemma split_words_of message ts :
  Py.split message = ts -> Forall word ts.
Proof. intros <-. apply split_words. Qed.

(** The step of dispatch on the loaded registry looks at the nested calls
    for lines at least two words shorter only. *)
Lemma dispatch_nested rc1 rc2 author message s :
  (forall account line s',
      length (Py.split line) + 2 <= length (Py.split message) ->
      rc1 account line s' = rc2 account line s') ->
  dispatch loaded rc1 author message s = dispatch loaded rc2 author message s.
Proof.
  intros Hrc.
  destruct (Py.split message) as [|key inputs] eqn:Hsplit.
  { now rewrite !dispatch_blank. }
  destruct (lookup loaded key) as [command|] eqn:Hl.
  2: { now rewrite !(dispatch_unknown _ _ _ _ _ _ _ Hsplit Hl). }
  destruct (_parse_command_args loaded command message) as [e|[args rest]]
    eqn:Hp.
  { now rewrite !(dispatch_parse_error _ _ _ _ _ _ _ _ _ Hsplit Hl Hp). }
  rewrite !(dispatch_parsed _ _ _ _ _ _ _ _ _ _ Hsplit Hl Hp).
  f_equal. unfold try_except.
  enough (call_func rc1 loaded (func command) (author :: args ++ [VStr rest]) s
          = call_func rc2 loaded (func command) (author :: args ++ [VStr rest])
              s) as -> by reflexivity.
  unfold call_func.
  destruct (length (author :: args ++ [VStr rest]) + 1
            =? length (func_params (func command))); [| reflexivity].
  unfold bind, tell.
  enough (body rc1 loaded (func command) (author :: args ++ [VStr rest]) s
          = body rc2 loaded (func command) (author :: args ++ [VStr rest]) s)
    as -> by reflexivity.
  pose proof (lookup_proxy_shape _ _ Hl) as Hshape.
  apply parse_inv in Hp as (inputs' & Hsplit' & Hargs & Hlen & ->).
  rewrite Hsplit in Hsplit'. injection Hsplit' as Hkey <-.
  pose proof (split_words_of _ _ Hsplit) as Hwords.
  unfold proxy_shape, coercions in Hshape.
  destruct (decide (func command = fn_proxy)) as [Hf|Hf];
    [| destruct (decide (func command = fn_proxy_dsa)) as [Hf'|Hf']].
  - rewrite Hf in Hshape |- *. apply bool_decide_eq_true in Hshape.
    destruct (args_of loaded command)
      as [|[n1 [c1 h1]] [|[n2 [c2 h2]] [|]]]; try discriminate.
    injection Hshape as -> ->.
    destruct inputs as [|t1 [|t2 more]]; simpl in Hlen; try lia.
    simpl in Hargs.
    destruct (parse_account_id t1) as [e|a]; [discriminate |].
    injection Hargs as <-. cbn [length drop app body].
    apply proxy_nested_call. intros s'. apply Hrc.
    inversion Hwords as [|? ? _ Hw1]; subst.
    inversion Hw1 as [|? ? _ Hw2]; subst.
    inversion Hw2 as [|? ? Ht2 Hmore]; subst.
    rewrite drop_0, split_nested by assumption. simpl. lia.
  - rewrite Hf' in Hshape |- *. apply bool_decide_eq_true in Hshape.
    destruct (args_of loaded command)
      as [|[n1 [c1 h1]] [|[n2 [c2 h2]] [|[n3 [c3 h3]] [|]]]]; try discriminate.
    injection Hshape as -> -> ->.
    destruct inputs as [|t1 [|t2 [|t3 more]]]; simpl in Hlen; try lia.
    simpl in Hargs.
    destruct (parse_account_id t1) as [e|a]; [discriminate |].
    injection Hargs as <-. cbn [length drop app body].
    apply proxy_dsa_nested_call. intros s'. apply Hrc.
    inversion Hwords as [|? ? _ Hw1]; subst.
    inversion Hw1 as [|? ? _ Hw2]; subst.
    inversion Hw2 as [|? ? _ Hw3]; subst.
    inversion Hw3 as [|? ? Ht3 Hmore]; subst.
    rewrite drop_0, split_nested by assumption. simpl. lia.
  - now rewrite (body_no_nested_call rc1 rc2).
Qed.

(** More fuel than the line has words is as good as the fuel that
    [run_command] supplies. *)
Lemma fuel_enough n :
  forall author message s,
    length (Py.split message) < n ->
    run_command_fuel loaded n author message s = run_command author message s.
Proof.
  induction n as [n IH] using lt_wf_ind. intros author message s Hn.
  destruct n as [|n]; [lia |].
  unfold run_command. cbn [run_command_fuel].
  apply dispatch_nested. intros account line s' Hline.
  rewrite IH by lia. symmetry. apply IH; lia.
Qed.

(** [run_command] satisfies the recursive equation of the source: it is the
    dispatch step with [run_command] itself for the nested calls. *)
Lemma run_command_eq author message s :
  run_command author message s = dispatch loaded run_command author message s.
Proof.
  unfold run_command at 1. cbn [run_command_fuel].
  apply dispatch_nested. intros account line s' Hline.
  apply fuel_enough. lia.
Qed.

End Nested.

(** ** Termination *)

Section Total.

Context `{Acc : Accounting}.

Lemma total_ret {A : Type} (a : A) : total (ret a).
Proof. intros s. discriminate. Qed.

Lemma total_raise {A : Type} (e : Exn) : total (raise (A := A) e).
Proof. intros s. discriminate. Qed.

Lemma total_reply (msg : string) : total (reply msg).
Proof. apply total_ret. Qed.

Lemma total_tell (e : Event) : total (tell e).
Proof. intros s. discriminate. Qed.

Lemma total_get_server : total get_server.
Proof. intros s. discriminate. Qed.

Lemma total_lift {A : Type} (r : Exn + A) : total (lift r).
Proof. destruct r; [apply total_raise | apply total_ret]. Qed.

Lemma total_call (f : commands.fn) (argv : list Value) : total (call f argv).
Proof.
  intros s. unfold call.
  destruct (call_commands f argv s) as [[e|a] s']; discriminate.
Qed.

Lemma total_bind {A B : Type} (m : M A) (k : A -> M B) :
  total m -> (forall a, total (k a)) -> total (bind m k).
Proof.
  intros Hm Hk s. unfold bind. specialize (Hm s).
  destruct (m s) as [[[a|e|] s1] t1]; simpl in *; try congruence.
  specialize (Hk a s1). now destruct (k a s1) as [[o s2] t2].
Qed.

Lemma total_try_except {A : Type} (m : M A) (h : Exn -> option (M A)) :
  total m -> (forall e k, h e = Some k -> total k) -> total (try_except m h).
Proof.
  intros Hm Hh s. unfold try_except. specialize (Hm s).
  destruct (m s) as [[[a|e|] s1] t1]; simpl in *; try congruence.
  destruct (h e) as [k|] eqn:He; [| discriminate].
  specialize (Hh e k He s1). now destruct (k s1) as [[o s2] t2].
Qed.

Lemma total_try_call f argv msg (k : M Value) :
  total k -> total (try_call f argv msg k).
Proof.
  intros Hk. unfold try_call. apply total_bind.
  - apply total_try_except.
    + apply total_bind; [apply total_call | intros; apply total_ret].
    + intros e k' He. unfold on_value_error in He.
      destruct (kind e); try discriminate.
      injection He as <-. apply total_ret.
  - intros [v|]; [apply total_ret | exact Hk].
Qed.

Create HintDb total discriminated.

Hint Resolve total_ret total_raise total_reply total_tell total_get_server
  total_lift total_call : total.

(** One step through a computation: a bind, a branch, or a leaf. *)
Ltac total_step :=
  lazymatch goal with
  | |- total (bind _ _) => apply total_bind; [| intros ?]
  | |- total (try_call _ _ _ _) => apply total_try_call
  | |- total (if ?b then _ else _) => destruct b
  | |- total (match ?x with _ => _ end) => destruct x
  | |- total _ => solve [eauto with total]
  end.

Ltac total_auto := repeat total_step.

Lemma total_shoot_account author victim rest :
  total (_shoot_account author victim rest).
Proof.
  unfold _shoot_account. apply total_bind.
  - apply total_try_except; [total_auto |].
    intros e k [= <-]. total_auto.
  - intros [was_shot|v]; total_auto.
Qed.

Hint Resolve total_shoot_account : total.

Create HintDb handlers discriminated.

Hint Unfold _name _transfer _adm_transfer _open_account _set_public
  _leader_board _adm_open_account _freeze_account _unfreeze_account _balance
  _full_balance _money_supply _add_public_key _list_accounts _print_money
  _remove_funds _create_recurring_transfer _admin_create_recurring_transfer
  _proxy _proxy_dsa _request_alias _add_alias _admin_add_proxy
  _admin_remove_proxy _delete_account _add_tax_bracket _remove_tax_bracket
  _force_tax _toggle_auto_tax _force_ticks _set_gun_price _set_vest_price
  _buy_gun _buy_vest _gun_balance _vest_balance _buy_farm
  _set_farm_type_cost _set_farm_type_duration _set_farm_type_returns
  _farm_balance _authorize _help : handlers.

(** A handler returns or raises when its nested calls do. *)
Lemma total_body rc st f argv :
  (forall account line, total (rc account line)) -> total (body rc st f argv).
Proof.
  intros Hrc.
  destruct f; cbn [body];
    repeat lazymatch goal with
      | |- total (match ?l with [] => _ | _ :: _ => _ end) => destruct l
      end;
    try apply total_raise;
    autounfold with handlers;
    total_auto.
Qed.

Lemma total_call_func rc st f argv :
  (forall account line, total (rc account line)) ->
  total (call_func rc st f argv).
Proof.
  intros Hrc. unfold call_func.
  destruct (length argv + 1 =? length (func_params f));
    [| apply total_raise].
  apply total_bind; [apply total_tell | intros _; now apply total_body].
Qed.

Lemma total_dispatch rc st author message :
  (forall account line, total (rc account line)) ->
  total (dispatch st rc author message).
Proof.
  intros Hrc. unfold dispatch.
  apply total_bind; [apply total_tell | intros _].
  destruct (Py.split message) as [|key inputs]; [apply total_raise |].
  destruct (lookup st key) as [command|]; [| apply total_reply].
  apply total_try_except.
  - apply total_bind; [apply total_lift | intros parsed].
    now apply total_call_func.
  - intros e k He. unfold except_clauses in He.
    destruct (kind e); try discriminate; injection He as <-;
      apply total_reply.
Qed.

(** [run_command] returns or raises on every line. *)
Theorem run_command_total author message : total (run_command author message).
Proof.
  remember (length (Py.split message)) as n eqn:Hn.
  revert author message Hn.
  induction n as [n IH] using lt_wf_ind. intros author message Hn s.
  rewrite run_command_eq.
  pose (g := fun account line (s' : Server) =>
               if length (Py.split line) + 2 <=? n
               then run_command account line s'
               else (Raise index_error, s', [])).
  rewrite (dispatch_nested run_command g).
  - apply total_dispatch. intros account line s'. unfold g.
    destruct (Nat.leb_spec (length (Py.split line) + 2) n) as [Hle|Hgt];
      [| discriminate].
    eapply IH; [| reflexivity]. lia.
  - intros account line s' Hline. unfold g. rewrite Hn.
    apply Nat.leb_le in Hline. now rewrite Hline.
Qed.

End Total.

(** ** Dispatch on the loaded registry *)

Section Loaded.

Context `{Acc : Accounting}.

(** A line with enough words that all coerce reaches its handler. *)
Lemma dispatch_loaded rc author message key inputs command args s :
  Py.split message = key :: inputs ->
  lookup loaded key = Some command ->
  coerce_all (map snd (args_of loaded command)) inputs = inr args ->
  length (args_of loaded command) <= length inputs ->
  dispatch loaded rc author message s
  = after [Dispatched author message]
      (try_except
         (call_func rc loaded (func command)
            (author :: args
               ++ [VStr (Py.join " "
                           (drop (length (args_of loaded command)) inputs))]))
         (except_clauses loaded command key) s).
Proof.
  intros Hsplit Hl Hargs Hlen.
  apply (dispatch_parsed _ _ _ _ _ inputs _ _ _ _ Hsplit Hl).
  apply (parse_ok _ _ _ _ _ _ Hsplit (wf_lookup _ _ _ wf_loaded Hl) Hargs Hlen).
Qed.

Lemma except_clauses_uncaught st command key e :
  uncaught (kind e) <-> except_clauses st command key e = None.
Proof.
  unfold except_clauses, uncaught. destruct (kind e); split;
    intros H; try reflexivity; try discriminate; try exact I; contradiction.
Qed.

Lemma except_clauses_reply st command key e k :
  except_clauses st command key e = Some k -> exists msg, k = reply msg.
Proof.
  unfold except_clauses. destruct (kind e); intros [= <-]; eauto.
Qed.

(** An exception that leaves [run_command] is of a class that no clause
    catches. *)
Lemma dispatch_raises_uncaught st rc author message s e s' t :
  dispatch st rc author message s = (Raise e, s', t) -> uncaught (kind e).
Proof.
  unfold dispatch, bind at 1, tell.
  destruct (Py.split message) as [|key inputs].
  { intros [= <- _ _]. exact I. }
  destruct (lookup st key) as [command|]; [| discriminate].
  unfold try_except.
  destruct (bind _ _ s) as [[[v|e0|] s1] t1]; try discriminate.
  destruct (except_clauses st command key e0) as [k|] eqn:Hk.
  - apply except_clauses_reply in Hk as [msg ->]. discriminate.
  - intros [= <- _ _]. now apply (except_clauses_uncaught st command key).
Qed.

Lemma run_command_raises_uncaught author message s e s' t :
  run_command author message s = (Raise e, s', t) -> uncaught (kind e).
Proof. rewrite run_command_eq. apply dispatch_raises_uncaught. Qed.

(** A [try] block lets through a result that is not an exception of a
    class it catches. *)
Lemma try_except_pass {A : Type} (m : M A) (h : Exn -> option (M A)) s r :
  m s = r ->
  (forall e s1 t1, r = (Raise e, s1, t1) -> h e = None) ->
  try_except m h s = r.
Proof.
  intros Hm Hr. unfold try_except. rewrite Hm.
  destruct r as [[[v|e|] s1] t1]; try reflexivity.
  now rewrite (Hr e s1 t1).
Qed.

(** The two proxy commands of the loaded registry. *)
Lemma lookup_proxy signature a c more :
  exists command,
    lookup loaded (hd "" (proxy_words signature a c more)) = Some command
    /\ func command = proxy_func signature
    /\ map snd (args_of loaded command)
       = match signature with
         | None =>
             [(Cparse_account_id, "Account to proxy");
              (Cstr, "Command to run")]
         | Some _ =>
             [(Cparse_account_id, "Account to proxy");
              (Cstr, "ECDSA signature of command to run");
              (Cstr, "Command to run")]
         end.
Proof.
  destruct signature; eexists; (split; [vm_compute; reflexivity |]);
    split; reflexivity.
Qed.

(** A proxy invocation up to the answer of [verify_proxy]: on [false] the
    handler returns, on [true] it calls [run_command] on the nested line. *)
Lemma proxy_run signature author message a c more account ok s s' :
  Py.split message = proxy_words signature a c more ->
  parse_account_id a = inr account ->
  call_commands commands.verify_proxy
    [author; account; proxy_signature signature;
     VStr ((c +:+ " ") +:+ Py.join " " more)] s
  = (inr ok, s') ->
  run_command author message s
  = after (proxy_trace signature author account message c more)
      (if (ok : bool)
       then run_command account ((c +:+ " ") +:+ Py.join " " more) s'
       else (Return (VStr "Unauthorized proxy"), s', [])).
Proof.
  intros Hsplit Ha Hverify.
  destruct (lookup_proxy signature a c more) as (command & Hl & Hf & Hargs).
  rewrite run_command_eq.
  assert (Hcall :
    call_func run_command loaded (proxy_func signature)
      (proxy_argv signature author account c more) s
    = after
        [ Invoked (proxy_func signature)
            (proxy_argv signature author account c more);
          Called commands.verify_proxy
            [author; account; proxy_signature signature;
             VStr ((c +:+ " ") +:+ Py.join " " more)] ]
        (if ok
         then run_command account ((c +:+ " ") +:+ Py.join " " more) s'
         else (Return (VStr "Unauthorized proxy"), s', []))).
  { destruct signature as [sig|];
      unfold call_func, bind, tell, body, proxy_func, proxy_argv, _proxy,
        _proxy_dsa, bind, lift, nested_line, py_add, ret, call, reply;
      cbn [length Nat.add Nat.eqb func_params proxy_signature] in *;
      rewrite Hverify; destruct ok; try reflexivity;
      now destruct (run_command account _ s') as [[o s2] t2]. }
  assert (Hpass :
    try_except
      (call_func run_command loaded (proxy_func signature)
         (proxy_argv signature author account c more))
      (except_clauses loaded command (hd "" (proxy_words signature a c more))) s
    = after
        [ Invoked (proxy_func signature)
            (proxy_argv signature author account c more);
          Called commands.verify_proxy
            [author; account; proxy_signature signature;
             VStr ((c +:+ " ") +:+ Py.join " " more)] ]
        (if ok
         then run_command account ((c +:+ " ") +:+ Py.join " " more) s'
         else (Return (VStr "Unauthorized proxy"), s', []))).
  { apply try_except_pass; [exact Hcall |].
    intros e s1 t1 He. apply except_clauses_uncaught.
    destruct ok; [| discriminate].
    destruct (run_command account _ s') as [[o s2] t2] eqn:Hrun.
    cbn [after] in He. injection He as -> -> _.
    now apply run_command_raises_uncaught in Hrun. }
  destruct signature as [sig|]; cbn [proxy_words hd] in Hsplit, Hl, Hpass.
  - rewrite (dispatch_loaded _ _ _ _ _ _ [account; VStr sig; VStr c] _
               Hsplit Hl).
    2: { rewrite Hargs. simpl. now rewrite Ha. }
    2: { rewrite <- (length_map snd), Hargs. simpl. lia. }
    rewrite <- (length_map snd (args_of loaded command)), Hargs, Hf.
    cbn [length drop app proxy_func]. rewrite drop_0.
    cbn [proxy_argv proxy_func] in Hpass. rewrite Hpass.
    now destruct ok; [destruct (run_command account _ s') as [[o s2] t2] |].
  - rewrite (dispatch_loaded _ _ _ _ _ _ [account; VStr c] _ Hsplit Hl).
    2: { rewrite Hargs. simpl. now rewrite Ha. }
    2: { rewrite <- (length_map snd), Hargs. simpl. lia. }
    rewrite <- (length_map snd (args_of loaded command)), Hargs, Hf.
    cbn [length drop app proxy_func]. rewrite drop_0.
    cbn [proxy_argv proxy_func] in Hpass. rewrite Hpass.
    now destruct ok; [destruct (run_command account _ s') as [[o s2] t2] |].
Qed.

End Loaded.

(** ** The proxy commands *)

(** C1. A proxy invocation, unsigned ([proxy]) or signed ([proxy-dsa]), for
    which [verify_proxy] returns false is answered with exactly
    "Unauthorized proxy".  The nested line is not dispatched: the only entry
    into [run_command] is the invocation itself, the only handler entered is
    the proxy handler, the only call into the service is [verify_proxy], and
    the server is left as [verify_proxy] left it. *)
Theorem unauthorized_proxy `{Acc : Accounting} (signature : option string)
  (author : Value) (message a c : string) (more : list string)
  (account : Value) (s s' : Server) :
  Py.split message = proxy_words signature a c more ->
  parse_account_id a = inr account ->
  call_commands commands.verify_proxy
    [author; account; proxy_signature signature;
     VStr ((c +:+ " ") +:+ Py.join " " more)] s
  = (inr false, s') ->
  run_command author message s
  = (Return (VStr "Unauthorized proxy"), s',
     proxy_trace signature author account message c more)
  /\ dispatches (proxy_trace signature author account message c more)
     = [(author, message)]
  /\ invocations (proxy_trace signature author account message c more)
     = [proxy_func signature].
Proof.
  intros Hsplit Ha Hverify.
  rewrite (proxy_run signature author message a c more account false s s'
             Hsplit Ha Hverify).
  unfold after. rewrite app_nil_r. repeat split.
Qed.

Lemma unauthorized_proxy_witness :
  Py.split "proxy acct123 balance" = proxy_words None "acct123" "balance" []
  /\ parse_account_id "acct123" = inr (VStr "acct123")
  /\ call_commands commands.verify_proxy
       [VStr "bob"; VStr "acct123"; VNone; VStr "balance "] Demo.three
     = (inr false, Demo.three)
  /\ run_command (VStr "bob") "proxy acct123 balance" Demo.three
     = (Return (VStr "Unauthorized proxy"), Demo.three,
        [ Dispatched (VStr "bob") "proxy acct123 balance";
          Invoked fn_proxy
            [VStr "bob"; VStr "acct123"; VStr "balance"; VStr ""];
          Called commands.verify_proxy
            [VStr "bob"; VStr "acct123"; VNone; VStr "balance "] ]).
Proof.
  split; [reflexivity |]. split; [reflexivity |]. split; [reflexivity |].
  apply (unauthorized_proxy (Acc := Demo.accounting) None (VStr "bob") "proxy acct123 balance"
           "acct123" "balance" [] (VStr "acct123") Demo.three Demo.three);
    reflexivity.
Defined.

(** C2. A proxy invocation for which [verify_proxy] returns true is the
    dispatch of the nested line under the target account: what
    [run_command] returns or raises for the invocation, and the state it
    leaves, are those of [run_command(account, command + ' ' + rest,
    server)] on the server as [verify_proxy] left it, and its trace is the
    trace of that nested run behind the three events of the proxy itself.
    The words of the nested line are the command word and the words that
    followed it. *)
Theorem authorized_proxy `{Acc : Accounting} (signature : option string)
  (author : Value) (message a c : string) (more : list string)
  (account : Value) (s s' : Server) :
  Py.split message = proxy_words signature a c more ->
  parse_account_id a = inr account ->
  call_commands commands.verify_proxy
    [author; account; proxy_signature signature;
     VStr ((c +:+ " ") +:+ Py.join " " more)] s
  = (inr true, s') ->
  run_command author message s
  = after (proxy_trace signature author account message c more)
      (run_command account ((c +:+ " ") +:+ Py.join " " more) s')
  /\ Py.split ((c +:+ " ") +:+ Py.join " " more) = c :: more.
Proof.
  intros Hsplit Ha Hverify. split.
  - exact (proxy_run signature author message a c more account true s s'
             Hsplit Ha Hverify).
  - pose proof (split_words_of _ _ Hsplit) as Hw.
    destruct signature as [sig|]; cbn [proxy_words] in Hw.
    + inversion Hw as [|? ? _ Hw1]; subst.
      inversion Hw1 as [|? ? _ Hw2]; subst.
      inversion Hw2 as [|? ? _ Hw3]; subst.
      inversion Hw3 as [|? ? Hc Hmore]; subst.
      now apply split_nested.
    + inversion Hw as [|? ? _ Hw1]; subst.
      inversion Hw1 as [|? ? _ Hw2]; subst.
      inversion Hw2 as [|? ? Hc Hmore]; subst.
      now apply split_nested.
Qed.

Lemma authorized_proxy_witness :
  Py.split "proxy-dsa acct123 c0ffee balance" 
  = proxy_words (Some "c0ffee") "acct123" "balance" []
  /\ parse_account_id "acct123" = inr (VStr "acct123")
  /\ call_commands commands.verify_proxy
       [VStr "alice"; VStr "acct123"; VStr "c0ffee"; VStr "balance "]
       Demo.three
     = (inr true, Demo.three)
  /\ run_command (VStr "alice") "proxy-dsa acct123 c0ffee balance" Demo.three
     = after
         (proxy_trace (Some "c0ffee") (VStr "alice") (VStr "acct123")
            "proxy-dsa acct123 c0ffee balance" "balance" [])
         (run_command (VStr "acct123") "balance " Demo.three)
  /\ Py.split "balance " = ["balance"].
Proof.
  split; [reflexivity |]. split; [reflexivity |]. split; [reflexivity |].
  apply (authorized_proxy (Acc := Demo.accounting) (Some "c0ffee")
           (VStr "alice")
           "proxy-dsa acct123 c0ffee balance" "acct123" "balance" []
           (VStr "acct123") Demo.three Demo.three);
    reflexivity.
Defined.

(** Scenario D of the specification, run on the demo ledger: the reply to
    the proxy is the reply to a direct [balance] under the target. *)
Example scenario_D :
  fst (fst (run_command (VStr "alice") "proxy acct123 balance" Demo.three))
  = fst (fst (run_command (VStr "acct123") "balance" Demo.three)).
Proof. vm_compute. reflexivity. Qed.

(** ** The fixed replies *)

(** C3. When the handler of a dispatched line raises
    [UnauthorizedCommandException], [run_command] returns exactly
    "Unauthorized command"; when it raises [ProcessCommandException],
    exactly "Something went wrong. Please try again later".  Whatever the
    text of the exception, the reply is the same, and nothing (no usage) is
    added. *)
Theorem unauthorized_and_process_replies `{Acc : Accounting}
  (author : Value) (message key : string) (inputs : list string)
  (command : _Command) (args : list Value) (rest : string)
  (e : Exn) (s s' : Server) (t : list Event) :
  Py.split message = key :: inputs ->
  lookup loaded key = Some command ->
  _parse_command_args loaded command message = inr (args, rest) ->
  call_func run_command loaded (func command) (author :: args ++ [VStr rest]) s
  = (Raise e, s', t) ->
  (kind e = UnauthorizedCommandException ->
   run_command author message s
   = (Return (VStr "Unauthorized command"), s',
      Dispatched author message :: t))
  /\ (kind e = ProcessCommandException ->
      run_command author message s
      = (Return (VStr "Something went wrong. Please try again later"), s',
         Dispatched author message :: t)).
Proof.
  intros Hsplit Hl Hp Hcall.
  rewrite run_command_eq,
    (dispatch_parsed _ _ _ _ _ _ _ _ _ _ Hsplit Hl Hp).
  unfold try_except. rewrite Hcall. unfold except_clauses.
  split; intros ->; unfold reply, ret, after; now rewrite app_nil_r.
Qed.

Lemma unauthorized_and_process_replies_witness :
  Py.split "authorise bob Admin" = ["authorise"; "bob"; "Admin"]
  /\ lookup loaded "authorise" = Some authorise_command
  /\ _parse_command_args loaded authorise_command "authorise bob Admin"
     = inr ([VStr "bob"; VObj 2%N], "")
  /\ call_func run_command loaded fn_authorize
       [VStr "bob"; VStr "bob"; VObj 2%N; VStr ""] Demo.three
     = (Raise (mkExn UnauthorizedCommandException "not an admin"),
        Demo.three,
        [ Invoked fn_authorize [VStr "bob"; VStr "bob"; VObj 2%N; VStr ""];
          Called commands.authorize [VStr "bob"; VStr "bob"; VObj 2%N] ])
  /\ run_command (VStr "bob") "authorise bob Admin" Demo.three
     = (Return (VStr "Unauthorized command"), Demo.three,
        [ Dispatched (VStr "bob") "authorise bob Admin";
          Invoked fn_authorize [VStr "bob"; VStr "bob"; VObj 2%N; VStr ""];
          Called commands.authorize [VStr "bob"; VStr "bob"; VObj 2%N] ]).
Proof.
  split; [reflexivity |]. split; [reflexivity |]. split; [reflexivity |].
  split; [reflexivity |].
  apply (unauthorized_and_process_replies (Acc := Demo.accounting)
           (VStr "bob") "authorise bob Admin" "authorise" ["bob"; "Admin"]
           authorise_command [VStr "bob"; VObj 2%N] ""
           (mkExn UnauthorizedCommandException "not an admin")
           Demo.three Demo.three
           [ Invoked fn_authorize [VStr "bob"; VStr "bob"; VObj 2%N; VStr ""];
             Called commands.authorize [VStr "bob"; VStr "bob"; VObj 2%N] ]);
    reflexivity.
Defined.

(** The same on the demo ledger for a failure of the service itself. *)
Example process_error_reply :
  run_command (VStr "bob") "force-tax" Demo.three
  = (Return (VStr "Something went wrong. Please try again later"),
     Demo.three,
     [ Dispatched (VStr "bob") "force-tax";
       Invoked fn_force_tax [VStr "bob"; VStr ""];
       Called commands.force_tax [VStr "bob"] ]).
Proof. vm_compute. reflexivity. Qed.

(** ** Lines without words *)

(** C4 (what the code does).  On a line without words, empty or all
    whitespace, [message.split()[0]] raises [IndexError], which no [except]
    clause of [run_command] catches: the call raises and returns no reply,
    in particular not the reply for an unknown command. *)
Theorem blank_line_raises_IndexError `{Acc : Accounting}
  (author : Value) (message : string) (s : Server) :
  Py.all_space message = true ->
  run_command author message s
  = (Raise index_error, s, [Dispatched author message])
  /\ uncaught (kind index_error)
  /\ fst (fst (run_command author message s))
     <> Return (VStr ("No such command: " +:+ "")).
Proof.
  intros H. apply split_blank in H.
  rewrite run_command_eq, dispatch_blank by exact H.
  repeat split. discriminate.
Qed.

Lemma blank_line_raises_IndexError_witness :
  Py.all_space "" = true
  /\ run_command (VStr "alice") "" Demo.three
     = (Raise index_error, Demo.three, [Dispatched (VStr "alice") ""])
  /\ uncaught (kind index_error)
  /\ fst (fst (run_command (VStr "alice") "" Demo.three))
     <> Return (VStr ("No such command: " +:+ "")).
Proof.
  split; [reflexivity |].
  apply (blank_line_raises_IndexError (Acc := Demo.accounting)
           (VStr "alice") "" Demo.three).
  reflexivity.
Defined.

(** ** Arity *)

(** C5 (counterexample).  [transfer] declares two parameters; the line
    [transfer abc] has one word after the name.  The word is coerced before
    the words are counted, [Fraction('abc')] raises, and the reply carries
    its message, not "Not enough arguments". *)
Lemma short_line_coercion_first :
  lookup loaded "transfer" = Some transfer_command
  /\ length (args_of loaded transfer_command) = 2
  /\ Py.split "transfer abc" = ["transfer"; "abc"]
  /\ run_command (VStr "alice") "transfer abc" Demo.three
     = (Return (VStr (Py.join Py.nl
                        [ "Error: Invalid literal for Fraction: 'abc'";
                          usage loaded transfer_command ])),
        Demo.three, [Dispatched (VStr "alice") "transfer abc"])
  /\ run_command (VStr "alice") "transfer abc" Demo.three
     <> (Return (VStr (Py.join Py.nl
                         [ "Error: Not enough arguments";
                           usage loaded transfer_command ])),
         Demo.three, [Dispatched (VStr "alice") "transfer abc"]).
Proof.
  repeat split; try (vm_compute; reflexivity).
  vm_compute. discriminate.
Qed.

(** C5 (amended).  For a registered command with [n >= 1] parameters and a
    line of the name and [n - 1] more words, the handler is never entered
    and the service never called: the run leaves the server as it was and
    its trace holds the dispatch alone.  When the words present coerce under
    the first [n - 1] parameters, the reply is "Error: Not enough arguments"
    and the usage of the command. *)
Theorem short_line_is_arity_error `{Acc : Accounting}
  (author : Value) (message key : string) (inputs : list string)
  (command : _Command) (s : Server) :
  lookup loaded key = Some command ->
  1 <= length (args_of loaded command) ->
  Py.split message = key :: inputs ->
  length inputs = length (args_of loaded command) - 1 ->
  (exists o, run_command author message s
             = (o, s, [Dispatched author message]))
  /\ (forall args,
         coerce_all (map snd (args_of loaded command)) inputs = inr args ->
         run_command author message s
         = (Return (VStr (Py.join Py.nl
                            [ "Error: Not enough arguments";
                              usage loaded command ])),
            s, [Dispatched author message])).
Proof.
  intros Hl Hn Hsplit Hlen.
  pose proof (wf_lookup _ _ _ wf_loaded Hl) as Hname.
  assert (Hshort :
    forall args,
      coerce_all (map snd (args_of loaded command)) inputs = inr args ->
      run_command author message s
      = (Return (VStr (Py.join Py.nl
                         [ "Error: Not enough arguments";
                           usage loaded command ])),
         s, [Dispatched author message])).
  { intros args Hargs.
    rewrite run_command_eq.
    rewrite (dispatch_parse_error _ _ _ _ _ _ _
               (mkExn ValueError "Not enough arguments") _ Hsplit Hl).
    - reflexivity.
    - apply (parse_short _ _ _ _ _ _ Hsplit Hname Hargs). lia. }
  split; [| exact Hshort].
  destruct (coerce_all (map snd (args_of loaded command)) inputs)
    as [e|args] eqn:Hargs.
  - rewrite run_command_eq.
    rewrite (dispatch_parse_error _ _ _ _ _ _ _ e _ Hsplit Hl)
      by (now apply (parse_coercion_error _ _ _ _ _ _ Hsplit Hname)).
    destruct (except_clauses loaded command key e) as [k|] eqn:Hk.
    + apply except_clauses_reply in Hk as [msg ->]. eexists. reflexivity.
    + eexists. reflexivity.
  - eexists. exact (Hshort _ eq_refl).
Qed.

Lemma short_line_is_arity_error_witness :
  lookup loaded "transfer" = Some transfer_command
  /\ 1 <= length (args_of loaded transfer_command)
  /\ Py.split "transfer 1/2" = ["transfer"; "1/2"]
  /\ length ["1/2"] = length (args_of loaded transfer_command) - 1
  /\ (exists o, run_command (VStr "alice") "transfer 1/2" Demo.three
                = (o, Demo.three, [Dispatched (VStr "alice") "transfer 1/2"]))
  /\ (forall args,
         coerce_all (map snd (args_of loaded transfer_command)) ["1/2"]
         = inr args ->
         run_command (VStr "alice") "transfer 1/2" Demo.three
         = (Return (VStr (Py.join Py.nl
                            [ "Error: Not enough arguments";
                              usage loaded transfer_command ])),
            Demo.three, [Dispatched (VStr "alice") "transfer 1/2"])).
Proof.
  split; [reflexivity |]. split; [vm_compute; lia |].
  split; [reflexivity |]. split; [reflexivity |].
  apply (short_line_is_arity_error (Acc := Demo.accounting) (VStr "alice")
           "transfer 1/2" "transfer" ["1/2"] transfer_command Demo.three).
  - reflexivity.
  - vm_compute. lia.
  - reflexivity.
  - reflexivity.
Defined.

(** ** The rest of the line *)

(** Line boundaries are whitespace, so words hold none, and neither do
    words joined by spaces. *)
Lemma linebreak_space (c : ascii) :
  Py.is_linebreak c = true -> Py.is_space c = true.
Proof.
  unfold Py.is_linebreak, Py.is_space.
  destruct (Nat.leb_spec 10 (Py.code c)), (Nat.leb_spec (Py.code c) 13),
    (Nat.leb_spec 28 (Py.code c)), (Nat.leb_spec (Py.code c) 30),
    (Nat.eqb_spec (Py.code c) 133),
    (Nat.leb_spec 9 (Py.code c)), (Nat.leb_spec (Py.code c) 32),
    (Nat.eqb_spec (Py.code c) 160);
    cbn; try reflexivity; try discriminate; lia.
Qed.

Lemma no_space_one_line (s : string) : no_space s = true -> one_line s = true.
Proof.
  induction s as [|c s IH]; [reflexivity |]. simpl.
  intros [Hc Hs]%andb_prop. rewrite (IH Hs), andb_true_r.
  destruct (Py.is_linebreak c) eqn:Hb; [| reflexivity].
  now rewrite (linebreak_space _ Hb) in Hc.
Qed.

Lemma one_line_app (s t : string) :
  one_line (s +:+ t) = one_line s && one_line t.
Proof.
  induction s as [|c s IH]; [now rewrite append_empty_l |].
  rewrite append_cons. simpl. now rewrite IH, andb_assoc.
Qed.

Lemma one_line_join (ts : list string) :
  Forall word ts -> one_line (Py.join " " ts) = true.
Proof.
  induction 1 as [|t ts [_ Ht] Hts IH]; [reflexivity |].
  destruct ts as [|t' ts]; [now apply no_space_one_line |].
  change (Py.join " " (t :: t' :: ts))
    with (t +:+ " " +:+ Py.join " " (t' :: ts)).
  rewrite !one_line_app, IH, (no_space_one_line _ Ht). reflexivity.
Qed.

(** [help] declares no parameter.  The lines [help a  b], with two spaces,
    and [help a b] differ in the whitespace between the trailing words
    only, and both hand the rest [a b] to the handler: the two spaces are
    not preserved. *)
Example rest_drops_whitespace :
  lookup loaded "help" = Some help_command
  /\ length (args_of loaded help_command) = 0
  /\ _parse_command_args loaded help_command "help a  b" = inr ([], "a b")
  /\ _parse_command_args loaded help_command "help a b" = inr ([], "a b")
  /\ "a  b" <> "a b"
  /\ invocations_of (run_command (VStr "alice") "help a  b" Demo.three)
     = [(fn_help, [VStr "alice"; VStr "a b"])]
  /\ invocations_of (run_command (VStr "alice") "help a b" Demo.three)
     = [(fn_help, [VStr "alice"; VStr "a b"])].
Proof.
  repeat split; try (vm_compute; reflexivity).
  discriminate.
Qed.

(** C6.  The code against the claim.  The rest that a successful parse
    hands to the handler is the words beyond the declared parameters, each
    as it stands and in order, joined by single spaces: splitting the rest
    gives those words back.  The whitespace between them is not kept: the
    rest holds no line boundary, whatever the line held, and two lines with
    the same words parse to the same arguments and the same rest.
    [_add_public_key], which takes the rest apart into lines, relies on
    line boundaries that the parser has removed. *)
Theorem rest_is_joined_words `{Acc : Accounting} (st : Store)
  (command : _Command) (message : string) (args : list Value) (rest : string) :
  _parse_command_args st command message = inr (args, rest) ->
  rest = Py.join " "
           (drop (1 + length (args_of st command)) (Py.split message))
  /\ Py.split rest = drop (1 + length (args_of st command)) (Py.split message)
  /\ one_line rest = true
  /\ forall message',
       Py.split message' = Py.split message ->
       _parse_command_args st command message' = inr (args, rest).
Proof.
  intros H.
  assert (Hsame : forall message',
             Py.split message' = Py.split message ->
             _parse_command_args st command message' = inr (args, rest)).
  { intros message' Hm. unfold _parse_command_args in *. now rewrite Hm. }
  apply parse_inv in H as (inputs & Hsplit & _ & _ & ->).
  rewrite Hsplit in Hsame |- *. cbn [Nat.add drop].
  assert (Hw : Forall word (drop (length (args_of st command)) inputs)).
  { apply Forall_drop.
    pose proof (split_words_of _ _ Hsplit) as Hw. now inversion Hw. }
  split; [reflexivity |]. split; [now apply split_join |].
  split; [now apply one_line_join | exact Hsame].
Qed.

Lemma rest_is_joined_words_witness :
  lookup loaded "add-public-key" = Some add_public_key_command
  /\ _parse_command_args loaded add_public_key_command
       ("add-public-key -----BEGIN   PUBLIC" +:+ Py.nl +:+ "KEY-----")
     = inr ([VStr "-----BEGIN"], "PUBLIC KEY-----")
  /\ "PUBLIC KEY-----"
     = Py.join " "
         (drop (1 + length (args_of loaded add_public_key_command))
            (Py.split ("add-public-key -----BEGIN   PUBLIC" +:+ Py.nl
                       +:+ "KEY-----")))
  /\ Py.split "PUBLIC KEY-----"
     = drop (1 + length (args_of loaded add_public_key_command))
         (Py.split ("add-public-key -----BEGIN   PUBLIC" +:+ Py.nl
                    +:+ "KEY-----"))
  /\ one_line "PUBLIC KEY-----" = true
  /\ forall message',
       Py.split message'
       = Py.split ("add-public-key -----BEGIN   PUBLIC" +:+ Py.nl
                   +:+ "KEY-----") ->
       _parse_command_args loaded add_public_key_command message'
       = inr ([VStr "-----BEGIN"], "PUBLIC KEY-----").
Proof.
  split; [reflexivity |]. split; [vm_compute; reflexivity |].
  apply (rest_is_joined_words (Acc := Demo.accounting) loaded
           add_public_key_command
           ("add-public-key -----BEGIN   PUBLIC" +:+ Py.nl +:+ "KEY-----")
           [VStr "-----BEGIN"] "PUBLIC KEY-----").
  vm_compute. reflexivity.
Defined.

(** ** Coercions that raise [KeyError] *)

Section Levels.

Context `{Acc : Accounting}.

Lemma levels_without (k : string) (members : list (string * Obj)) d :
  Forall (fun m => Py.lower (fst m) <> k) members ->
  dict_get k
    (fold_left (fun d a => dict_update (Py.lower (fst a)) (snd a) d) members d)
  = dict_get k d.
Proof.
  intros H. revert d.
  induction H as [|m members Hm _ IH]; intros d; simpl; [reflexivity |].
  rewrite IH. now apply dict_get_update_ne.
Qed.

(** The lambda of [authorize] raises [KeyError] on a word that is no level
    name, whatever its case. *)
Lemma lambda_level_unknown (lvl : string) :
  Forall (fun m => Py.lower (fst m) <> Py.lower lvl) Authorization ->
  lambda_level lvl = inl (mkExn KeyError (Py.repr (Py.lower lvl))).
Proof.
  intros H. unfold lambda_level. now rewrite levels_without.
Qed.

End Levels.

(** C9. The level parameter of [authorize] (and of its alias [authorise])
    is coerced by a dictionary lookup.  For a word that is no authorization
    level the lookup raises [KeyError], the [except KeyError] clause of
    [run_command] catches it, and the reply is "No such command: authorize"
    although the command exists; no usage text follows, the handler is not
    entered and the service is not called. *)
Theorem unknown_level_is_unknown_command `{Acc : Accounting}
  (author : Value) (message key a lvl : string) (more : list string)
  (account : Value) (s : Server) :
  key = "authorize" \/ key = "authorise" ->
  Py.split message = key :: a :: lvl :: more ->
  parse_account_id a = inr account ->
  Forall (fun m => Py.lower (fst m) <> Py.lower lvl) Authorization ->
  run_command author message s
  = (Return (VStr ("No such command: " +:+ key)), s,
     [Dispatched author message])
  /\ exists command,
       lookup loaded key = Some command /\ func command = fn_authorize.
Proof.
  intros Hkey Hsplit Ha Hlvl.
  assert (Hl : exists command,
             lookup loaded key = Some command
             /\ func command = fn_authorize
             /\ map snd (args_of loaded command)
                = [(Cparse_account_id, "Account to authorize");
                   (Clambda_level, "Authorization level")]).
  { destruct Hkey as [-> | ->]; eexists;
      (split; [vm_compute; reflexivity |]); split; reflexivity. }
  destruct Hl as (command & Hl & Hf & Hargs).
  split; [| now exists command].
  rewrite run_command_eq.
  rewrite (dispatch_parse_error _ _ _ _ _ _ _
             (mkExn KeyError (Py.repr (Py.lower lvl))) _ Hsplit Hl).
  - reflexivity.
  - apply (parse_coercion_error _ _ _ _ _ _ Hsplit
             (wf_lookup _ _ _ wf_loaded Hl)).
    rewrite Hargs. simpl. rewrite Ha. now rewrite lambda_level_unknown.
Qed.

Lemma unknown_level_is_unknown_command_witness :
  ("authorize" = "authorize" \/ "authorize" = "authorise")
  /\ Py.split "authorize bob emperor" = ["authorize"; "bob"; "emperor"]
  /\ parse_account_id "bob" = inr (VStr "bob")
  /\ Forall (fun m => Py.lower (fst m) <> Py.lower "emperor") Authorization
  /\ run_command (VStr "alice") "authorize bob emperor" Demo.three
     = (Return (VStr "No such command: authorize"), Demo.three,
        [Dispatched (VStr "alice") "authorize bob emperor"])
  /\ exists command,
       lookup loaded "authorize" = Some command
       /\ func command = fn_authorize.
Proof.
  split; [now left |]. split; [reflexivity |]. split; [reflexivity |].
  assert (H : Forall (fun m => Py.lower (fst m) <> Py.lower "emperor")
                (Authorization (Accounting := Demo.accounting)))
    by (repeat constructor; discriminate).
  split; [exact H |].
  apply (unknown_level_is_unknown_command (Acc := Demo.accounting)
           (VStr "alice") "authorize bob emperor" "authorize" "bob" "emperor"
           [] (VStr "bob") Demo.three);
    [now left | reflexivity | reflexivity | exact H].
Defined.

(** ** A handler with too few parameters *)

(** C10. [admin-create-recurring-transfer] declares four parameters and is
    registered with [_create_recurring_transfer], which takes six positional
    arguments, while [run_command] supplies seven: the author, the four
    coerced words, the rest and the server.  When the four words coerce,
    the call raises [TypeError] before the body of the handler starts; no
    [except] clause catches it, so [run_command] raises it and returns no
    reply. *)
Theorem admin_create_recurring_transfer_raises_TypeError `{Acc : Accounting}
  (author : Value) (message t1 t2 t3 t4 : string) (more : list string)
  (amount source : Q) (destination : Value) (tick_count : Z) (s : Server) :
  Py.split message
  = "admin-create-recurring-transfer" :: t1 :: t2 :: t3 :: t4 :: more ->
  Py.Fraction t1 = inr amount ->
  Py.Fraction t2 = inr source ->
  parse_account_id t3 = inr destination ->
  Py.int t4 = inr tick_count ->
  run_command author message s
  = (Raise type_error, s, [Dispatched author message])
  /\ uncaught (kind type_error)
  /\ (exists command,
         lookup loaded "admin-create-recurring-transfer" = Some command
         /\ func command = fn_create_recurring_transfer
         /\ length (args_of loaded command) = 4)
  /\ length (func_params fn_create_recurring_transfer) = 6
  /\ length ([author; VFrac amount; VFrac source; destination;
              VInt tick_count; VStr (Py.join " " more)]) + 1 = 7.
Proof.
  intros Hsplit H1 H2 H3 H4.
  assert (Hl : exists command,
             lookup loaded "admin-create-recurring-transfer" = Some command
             /\ func command = fn_create_recurring_transfer
             /\ map snd (args_of loaded command)
                = [(CFraction, "Amount to transfer");
                   (CFraction, "Source to transfer from");
                   (Cparse_account_id, "Beneficiary to transfer to");
                   (Cint, "Interval to transfer by, in ticks")]).
  { eexists. split; [vm_compute; reflexivity |]. split; reflexivity. }
  destruct Hl as (command & Hl & Hf & Hargs).
  split; [| repeat split].
  - rewrite run_command_eq.
    rewrite (dispatch_loaded _ _ _ _ _ _
               [VFrac amount; VFrac source; destination; VInt tick_count] _
               Hsplit Hl).
    2: { rewrite Hargs. simpl. now rewrite H1, H2, H3, H4. }
    2: { rewrite <- (length_map snd), Hargs. simpl. lia. }
    rewrite Hf.
    rewrite (try_except_pass _ _ _ (Raise type_error, s, [])).
    + reflexivity.
    + apply call_func_unbound.
      rewrite <- (length_map snd (args_of loaded command)), Hargs.
      simpl. lia.
    + intros e s1 t1' [= <- _ _]. now apply except_clauses_uncaught.
  - exists command. repeat split; try assumption.
    now rewrite <- (length_map snd), Hargs.
Qed.

Lemma admin_create_recurring_transfer_raises_TypeError_witness :
  Py.split "admin-create-recurring-transfer 10 1/2 bob 3"
  = ["admin-create-recurring-transfer"; "10"; "1/2"; "bob"; "3"]
  /\ Py.Fraction "10" = inr (10 # 1)
  /\ Py.Fraction "1/2" = inr (1 # 2)
  /\ parse_account_id "bob" = inr (VStr "bob")
  /\ Py.int "3" = inr 3%Z
  /\ run_command (VStr "alice") "admin-create-recurring-transfer 10 1/2 bob 3"
       Demo.three
     = (Raise type_error, Demo.three,
        [Dispatched (VStr "alice")
           "admin-create-recurring-transfer 10 1/2 bob 3"]).
Proof.
  split; [reflexivity |]. split; [reflexivity |]. split; [reflexivity |].
  split; [reflexivity |]. split; [reflexivity |].
  apply (admin_create_recurring_transfer_raises_TypeError
           (Acc := Demo.accounting) (VStr "alice")
           "admin-create-recurring-transfer 10 1/2 bob 3"
           "10" "1/2" "bob" "3" [] (10 # 1) (1 # 2) (VStr "bob") 3%Z
           Demo.three); reflexivity.
Defined.

(** ** Sorting by a [Fraction] key *)





Section SortedByBalance.

Context {A : Type} (key : A -> Q).

Abbreviation insert := (Py.insert key Py.Qlt_bool).
Abbreviation sort := (Py.sort key Py.Qlt_bool).












End SortedByBalance.

(** ** Decimal numerals *)










(** ** The leader board *)

Section LeaderBoard.

Context `{Acc : Accounting}.









End LeaderBoard.




(** * Further properties of the dispatcher *)

Section Replies.

Context `{Acc : Accounting}.

(** The run of a line that reaches its handler, from what the body of the
    handler does. *)
Lemma run_command_found author message key inputs command args s :
  Py.split message = key :: inputs ->
  lookup loaded key = Some command ->
  coerce_all (map snd (args_of loaded command)) inputs = inr args ->
  length (args_of loaded command) <= length inputs ->
  let argv :=
    author :: args
      ++ [VStr (Py.join " " (drop (length (args_of loaded command)) inputs))] in
  length argv + 1 = length (func_params (func command)) ->
  run_command author message s
  = after [Dispatched author message]
      (try_except
         (fun s0 => after [Invoked (func command) argv]
                      (body run_command loaded (func command) argv s0))
         (except_clauses loaded command key) s).
Proof.
  intros Hsplit Hl Hargs Hlen argv Harity.
  rewrite run_command_eq, (dispatch_loaded _ _ _ _ _ _ _ _ Hsplit Hl Hargs Hlen).
  fold argv. unfold try_except.
  now rewrite (call_func_bound _ _ _ _ _ Harity).
Qed.

(** The run of a line one of whose words fails to coerce. *)
Lemma run_command_coercion_error author message key inputs command e s :
  Py.split message = key :: inputs ->
  lookup loaded key = Some command ->
  coerce_all (map snd (args_of loaded command)) inputs = inl e ->
  run_command author message s
  = after [Dispatched author message]
      match except_clauses loaded command key e with
      | Some k => k s
      | None => (Raise e, s, [])
      end.
Proof.
  intros Hsplit Hl Hargs. rewrite run_command_eq.
  apply (dispatch_parse_error _ _ _ _ _ _ _ _ _ Hsplit Hl).
  exact (parse_coercion_error _ _ _ _ _ _ Hsplit
           (wf_lookup _ _ _ wf_loaded Hl) Hargs).
Qed.

End Replies.

(** X1. A line whose first word is not a registered name is answered with
    "No such command: " and that word, whatever follows it; no handler is
    entered, the service is not called, and no usage is shown. *)
Theorem unknown_command_reply `{Acc : Accounting}
  (author : Value) (message key : string) (inputs : list string) (s : Server) :
  Py.split message = key :: inputs ->
  lookup loaded key = None ->
  run_command author message s
  = (Return (VStr ("No such command: " +:+ key)), s,
     [Dispatched author message]).
Proof.
  intros Hsplit Hl. rewrite run_command_eq.
  exact (dispatch_unknown _ _ _ _ _ _ _ Hsplit Hl).
Qed.

Lemma unknown_command_reply_witness :
  Py.split "  Balance  now" = ["Balance"; "now"]
  /\ lookup loaded "Balance" = None
  /\ run_command (Acc := Bank.accounting) (VStr "ann") "  Balance  now"
       Bank.two
     = (Return (VStr "No such command: Balance"), Bank.two,
        [Dispatched (VStr "ann") "  Balance  now"]).
Proof.
  split; [reflexivity |]. split; [reflexivity |].
  apply (unknown_command_reply (Acc := Bank.accounting) (VStr "ann")
           "  Balance  now" "Balance" ["now"] Bank.two); reflexivity.
Defined.

(** X2. When the handler of a dispatched line raises
    [ValueCommandException], the reply is "Invalid argument: " with the text
    of the exception, an empty line and the usage of the command; when it
    raises [AccountCommandException], the reply is "Invalid account: " with
    the text of the exception and no usage.  The server stays as the handler
    left it. *)
Theorem value_and_account_replies `{Acc : Accounting}
  (author : Value) (message key : string) (inputs : list string)
  (command : _Command) (args : list Value) (rest : string)
  (e : Exn) (s s' : Server) (t : list Event) :
  Py.split message = key :: inputs ->
  lookup loaded key = Some command ->
  _parse_command_args loaded command message = inr (args, rest) ->
  call_func run_command loaded (func command) (author :: args ++ [VStr rest]) s
  = (Raise e, s', t) ->
  (kind e = ValueCommandException ->
   run_command author message s
   = (Return (VStr (Py.join Py.nl
                      ["Invalid argument: " +:+ text e; "";
                       usage loaded command])),
      s', Dispatched author message :: t))
  /\ (kind e = AccountCommandException ->
      run_command author message s
      = (Return (VStr ("Invalid account: " +:+ text e)), s',
         Dispatched author message :: t)).
Proof.
  intros Hsplit Hl Hp Hcall.
  rewrite run_command_eq,
    (dispatch_parsed _ _ _ _ _ _ _ _ _ _ Hsplit Hl Hp).
  unfold try_except. rewrite Hcall. unfold except_clauses.
  split; intros ->; unfold reply, ret, after; now rewrite app_nil_r.
Qed.

Lemma value_and_account_replies_witness :
  Py.split "transfer -1 ben" = ["transfer"; "-1"; "ben"]
  /\ lookup loaded "transfer" = Some transfer_command
  /\ _parse_command_args (Acc := Bank.accounting) loaded transfer_command
       "transfer -1 ben"
     = inr ([VFrac (-1); VStr "ben"], "")
  /\ call_func (Acc := Bank.accounting) run_command loaded fn_transfer
       [VStr "ann"; VFrac (-1); VStr "ben"; VStr ""] Bank.two
     = (Raise (Bank.value_error "Negative amount"), Bank.two,
        [ Invoked fn_transfer [VStr "ann"; VFrac (-1); VStr "ben"; VStr ""];
          Called commands.transfer
            [VStr "ann"; VStr "ann"; VStr "ben"; VFrac (-1)] ])
  /\ run_command (Acc := Bank.accounting) (VStr "ann") "transfer -1 ben"
       Bank.two
     = (Return (VStr (Py.join Py.nl
                        ["Invalid argument: Negative amount"; "";
                         usage loaded transfer_command])),
        Bank.two,
        [ Dispatched (VStr "ann") "transfer -1 ben";
          Invoked fn_transfer [VStr "ann"; VFrac (-1); VStr "ben"; VStr ""];
          Called commands.transfer
            [VStr "ann"; VStr "ann"; VStr "ben"; VFrac (-1)] ]).
Proof.
  split; [reflexivity |]. split; [reflexivity |]. split; [reflexivity |].
  split; [reflexivity |].
  apply (value_and_account_replies (Acc := Bank.accounting) (VStr "ann")
           "transfer -1 ben" "transfer" ["-1"; "ben"] transfer_command
           [VFrac (-1); VStr "ben"] "" (Bank.value_error "Negative amount")
           Bank.two Bank.two
           [ Invoked fn_transfer [VStr "ann"; VFrac (-1); VStr "ben"; VStr ""];
             Called commands.transfer
               [VStr "ann"; VStr "ann"; VStr "ben"; VFrac (-1)] ]);
    reflexivity.
Defined.

(** Scenario A of the specification on the bank: a balance query by
    somebody without an account. *)
Example scenario_A :
  run_command (Acc := Bank.accounting) (VStr "cy") "balance" Bank.two
  = (Return (VStr "Invalid account: No such account"), Bank.two,
     [ Dispatched (VStr "cy") "balance";
       Invoked fn_balance [VStr "cy"; VStr ""];
       Called commands.balance [VStr "cy"; VStr "cy"] ]).
Proof. vm_compute. reflexivity. Qed.

(** X3. When a word of the line fails to coerce, the exception of the
    first failing coercion decides the outcome, and the handler is not
    entered.  A [ValueError] gives the reply "Error: " with its text and the
    usage of the command.  An exception of a class that [run_command] does
    not catch, such as the [ZeroDivisionError] of [Fraction('1/0')], leaves
    [run_command]: there is no reply. *)
Theorem failing_coercion_outcome `{Acc : Accounting}
  (author : Value) (message key : string) (inputs : list string)
  (command : _Command) (e : Exn) (s : Server) :
  Py.split message = key :: inputs ->
  lookup loaded key = Some command ->
  coerce_all (map snd (args_of loaded command)) inputs = inl e ->
  (kind e = ValueError ->
   run_command author message s
   = (Return (VStr (Py.join Py.nl ["Error: " +:+ text e;
                                   usage loaded command])),
      s, [Dispatched author message]))
  /\ (uncaught (kind e) ->
      run_command author message s = (Raise e, s, [Dispatched author message])).
Proof.
  intros Hsplit Hl Hargs.
  rewrite (run_command_coercion_error _ _ _ _ _ _ _ Hsplit Hl Hargs).
  split.
  - intros Hk. unfold except_clauses. now rewrite Hk.
  - intros Hk. apply (except_clauses_uncaught loaded command key) in Hk.
    now rewrite Hk.
Qed.

Lemma failing_coercion_outcome_witness :
  Py.split "transfer 1/0 ben" = ["transfer"; "1/0"; "ben"]
  /\ lookup loaded "transfer" = Some transfer_command
  /\ coerce_all (Acc := Bank.accounting)
       (map snd (args_of loaded transfer_command)) ["1/0"; "ben"]
     = inl (mkExn ZeroDivisionError "Fraction(1, 0)")
  /\ uncaught ZeroDivisionError
  /\ run_command (Acc := Bank.accounting) (VStr "ann") "transfer 1/0 ben"
       Bank.two
     = (Raise (mkExn ZeroDivisionError "Fraction(1, 0)"), Bank.two,
        [Dispatched (VStr "ann") "transfer 1/0 ben"]).
Proof.
  split; [reflexivity |]. split; [reflexivity |]. split; [reflexivity |].
  split; [exact I |].
  apply (failing_coercion_outcome (Acc := Bank.accounting) (VStr "ann")
           "transfer 1/0 ben" "transfer" ["1/0"; "ben"] transfer_command
           (mkExn ZeroDivisionError "Fraction(1, 0)") Bank.two);
    [reflexivity | reflexivity | reflexivity | exact I].
Defined.

(** Scenario B of the specification on the bank: a word that is no number
    where an amount is expected. *)
Example scenario_B :
  run_command (Acc := Bank.accounting) (VStr "ann") "transfer abc ben" Bank.two
  = (Return (VStr (Py.join Py.nl
                     ["Error: Invalid literal for Fraction: 'abc'";
                      usage loaded transfer_command])),
     Bank.two, [Dispatched (VStr "ann") "transfer abc ben"]).
Proof. vm_compute. reflexivity. Qed.

(** ** The typed arguments *)

Section Arguments.

Context `{Acc : Accounting}.

(** Coercion looks at as many words as there are parameters. *)
Lemma coerce_all_take values inputs :
  coerce_all values (take (length values) inputs) = coerce_all values inputs.
Proof.
  revert inputs. induction values as [|arg values IH]; intros [|input inputs];
    simpl; try reflexivity.
  now rewrite IH.
Qed.

End Arguments.

(** X4. A successful parse returns one typed value per declared parameter:
    the coercions of the first words after the name, in order.  The words
    beyond them are never coerced: two lines that agree on the name and on
    the words for the parameters parse to the same typed arguments, whatever
    follows. *)
Theorem parse_arguments `{Acc : Accounting} (st : Store) (command : _Command)
  (message : string) (args : list Value) (rest : string) :
  _parse_command_args st command message = inr (args, rest) ->
  let n := length (args_of st command) in
  length args = n
  /\ coerce_all (map snd (args_of st command))
       (take n (drop 1 (Py.split message)))
     = inr args
  /\ forall message',
       take (1 + n) (Py.split message') = take (1 + n) (Py.split message) ->
       exists rest',
         _parse_command_args st command message' = inr (args, rest').
Proof.
  intros H n.
  apply parse_inv in H as (inputs & Hsplit & Hargs & Hlen & _).
  pose proof (coerce_all_length _ _ _ Hargs) as Hl.
  rewrite length_map in Hl. fold n in Hl, Hlen.
  assert (Htake : coerce_all (map snd (args_of st command)) (take n inputs)
                  = inr args).
  { unfold n. rewrite <- (length_map snd (args_of st command)).
    now rewrite coerce_all_take. }
  split; [lia |]. split.
  { rewrite Hsplit. cbn [drop]. rewrite drop_0. exact Htake. }
  intros message' Hm. rewrite Hsplit in Hm. cbn [Nat.add take] in Hm.
  destruct (Py.split message') as [|key' inputs'] eqn:Hsplit';
    [discriminate |].
  cbn [take] in Hm. injection Hm as -> Hinputs.
  eexists. apply (parse_ok _ _ _ _ inputs' args Hsplit' eq_refl).
  - rewrite <- coerce_all_take, length_map. fold n. now rewrite Hinputs.
  - fold n. apply (f_equal length) in Hinputs.
    rewrite !length_take in Hinputs. lia.
Qed.

Lemma parse_arguments_witness :
  _parse_command_args (Acc := Bank.accounting) loaded transfer_command
    "transfer 1/2 ben  for   lunch"
  = inr ([VFrac (1 # 2); VStr "ben"], "for lunch")
  /\ length [VFrac (1 # 2); VStr "ben"]
     = length (args_of loaded transfer_command)
  /\ coerce_all (Acc := Bank.accounting)
       (map snd (args_of loaded transfer_command))
       (take (length (args_of loaded transfer_command))
          (drop 1 (Py.split "transfer 1/2 ben  for   lunch")))
     = inr [VFrac (1 # 2); VStr "ben"]
  /\ forall message',
       take (1 + length (args_of loaded transfer_command)) (Py.split message')
       = take (1 + length (args_of loaded transfer_command))
           (Py.split "transfer 1/2 ben  for   lunch") ->
       exists rest',
         _parse_command_args (Acc := Bank.accounting) loaded transfer_command
           message'
         = inr ([VFrac (1 # 2); VStr "ben"], rest').
Proof.
  split; [vm_compute; reflexivity |].
  apply (parse_arguments (Acc := Bank.accounting) loaded transfer_command
           "transfer 1/2 ben  for   lunch" [VFrac (1 # 2); VStr "ben"]
           "for lunch").
  vm_compute. reflexivity.
Defined.

(** * Further properties of the registry *)

Lemma dict_get_None {V : Type} (k : string) (d : list (string * V)) :
  dict_get k d = None <-> ~ In k (map fst d).
Proof.
  induction d as [|[k' v] d IH]; simpl; [tauto |].
  destruct (String.eqb_spec k k') as [->|Hne].
  - split; [discriminate | intros H; exfalso; apply H; now left].
  - rewrite IH. split; [intros H [Heq|Hin]; congruence | tauto].
Qed.

(** With distinct keys, a dictionary holds exactly the pairs it returns. *)
Lemma dict_get_Some {V : Type} (k : string) (v : V) (d : list (string * V)) :
  NoDup (map fst d) -> dict_get k d = Some v <-> In (k, v) d.
Proof.
  intros Hd. split; [apply dict_get_In |].
  induction d as [|[k' v'] d IH]; simpl; [tauto |].
  apply NoDup_cons in Hd as [Hk' Hd].
  intros [[= -> ->]|Hin].
  - now rewrite String.eqb_refl.
  - destruct (String.eqb_spec k k') as [->|Hne]; [| now apply IH].
    exfalso. apply Hk'. apply list_elem_of_In.
    apply (in_map fst) in Hin. exact Hin.
Qed.

(** Equal as sets of pairs, with distinct keys: equal as dictionaries. *)
Lemma dict_get_perm {V : Type} (k : string) (d d' : list (string * V)) :
  Permutation d d' -> NoDup (map fst d) -> dict_get k d = dict_get k d'.
Proof.
  intros Hp Hd.
  assert (Hd' : NoDup (map fst d'))
    by (now rewrite <- (Permutation_map fst Hp)).
  destruct (dict_get k d) as [v|] eqn:H.
  - symmetry. apply (dict_get_Some _ _ _ Hd').
    apply (Permutation_in _ Hp). now apply dict_get_In.
  - symmetry. apply dict_get_None. apply dict_get_None in H.
    intros Hin. apply H.
    apply (Permutation_in _ (Permutation_sym (Permutation_map fst Hp))).
    exact Hin.
Qed.

Lemma dict_update_keys {V : Type} (k : string) (v : V) (d : list (string * V)) :
  map fst (dict_update k v d)
  = match dict_get k d with
    | Some _ => map fst d
    | None => map fst d ++ [k]
    end.
Proof.
  induction d as [|[k' v'] d IH]; simpl; [reflexivity |].
  destruct (String.eqb_spec k k') as [->|Hne]; simpl; [reflexivity |].
  rewrite IH. now destruct (dict_get k d).
Qed.

Lemma dict_update_NoDup {V : Type} (k : string) (v : V) (d : list (string * V)) :
  NoDup (map fst d) -> NoDup (map fst (dict_update k v d)).
Proof.
  intros Hd. rewrite dict_update_keys.
  destruct (dict_get k d) as [v'|] eqn:H; [exact Hd |].
  apply dict_get_None in H. apply NoDup_app. repeat split.
  - exact Hd.
  - intros x Hx Hk. apply list_elem_of_In in Hx.
    apply list_elem_of_In in Hk. destruct Hk as [<-|[]]. contradiction.
  - apply NoDup_singleton.
Qed.

Lemma sound_empty : sound empty_store.
Proof. repeat split; constructor. Qed.

Lemma sound_exec stmt st st' : sound st -> exec stmt st = inr st' -> sound st'.
Proof.
  intros (Hwf & Hnd & Hargs) H.
  split; [exact (wf_exec _ _ _ Hwf H) |].
  destruct stmt as [key d f descr|key alias|]; simpl in H.
  - injection H as <-. unfold _add_command, new_Command.
    cbn [_commands objects dicts]. split.
    + now apply dict_update_NoDup.
    + rewrite length_app. apply Forall_app. split.
      * eapply Forall_impl; [exact Hargs |]. intros c Hc. simpl in *. lia.
      * repeat constructor. simpl. lia.
  - unfold _alias in H.
    destruct (dict_get key (_commands st)) as [o|]; [| discriminate].
    unfold copy in H. destruct (objects st !! o) as [c|] eqn:Hc;
      [| discriminate].
    unfold new_Command, set_name in H. cbn [objects dicts _commands] in H.
    rewrite list_lookup_middle in H by reflexivity.
    injection H as <-. cbn [_commands objects dicts]. split.
    + now apply dict_update_NoDup.
    + assert (Hc' : args c < length (dicts st)).
      { rewrite Forall_forall in Hargs. apply Hargs.
        eapply list_elem_of_lookup_2. exact Hc. }
      apply Forall_insert; [| exact Hc'].
      apply Forall_app. split; [exact Hargs | now repeat constructor].
  - injection H as <-. cbn [_commands objects dicts]. split; [| exact Hargs].
    unfold sorted_items.
    now rewrite (Permutation_map fst (sorted_perm fst String.ltb false _)).
Qed.

Lemma sound_exec_all body st st' :
  sound st -> exec_all body st = inr st' -> sound st'.
Proof.
  revert st. induction body as [|stmt body IH]; intros st Hs H; simpl in H.
  - now injection H as <-.
  - destruct (exec stmt st) as [e|st1] eqn:H1; [discriminate |].
    eapply IH; [| exact H]. now apply sound_exec in H1.
Qed.

(** X5. Whatever sequence of registrations, aliases and sortings built the
    registry, its names are distinct, every name in it resolves to a command
    that carries exactly that name, and the parameters of every such command
    are an allocated dictionary. *)
Theorem registry_invariant (body : list Stmt) (st : Store) :
  exec_all body empty_store = inr st ->
  NoDup (map fst (_commands st))
  /\ (forall key, In key (map fst (_commands st)) <-> is_Some (lookup st key))
  /\ (forall key c,
         lookup st key = Some c ->
         name c = key /\ is_Some (dicts st !! args c)).
Proof.
  intros Hbuilt.
  destruct (sound_exec_all _ _ _ sound_empty Hbuilt) as (Hwf & Hnd & Hargs).
  split; [exact Hnd |]. split.
  - intros key. unfold lookup. split.
    + intros Hin.
      destruct (dict_get key (_commands st)) as [o|] eqn:Ho.
      * apply dict_get_In in Ho. unfold wf in Hwf.
        rewrite Forall_forall in Hwf.
        apply (proj2 (list_elem_of_In _ _)) in Ho.
        destruct (Hwf _ Ho) as (c & Hc & _). simpl in Hc. now exists c.
      * apply dict_get_None in Ho. contradiction.
    + intros [c Hc].
      destruct (dict_get key (_commands st)) as [o|] eqn:Ho;
        [| discriminate].
      apply dict_get_In in Ho. now apply (in_map fst) in Ho.
  - intros key c Hc. split; [exact (wf_lookup _ _ _ Hwf Hc) |].
    unfold lookup in Hc.
    destruct (dict_get key (_commands st)) as [o|]; [| discriminate].
    apply lookup_lt_is_Some. rewrite Forall_forall in Hargs.
    apply Hargs. eapply list_elem_of_lookup_2. exact Hc.
Qed.

Lemma registry_invariant_witness :
  exec_all module_body empty_store = inr loaded
  /\ NoDup (map fst (_commands loaded))
  /\ (forall key,
         In key (map fst (_commands loaded)) <-> is_Some (lookup loaded key))
  /\ (forall key c,
         lookup loaded key = Some c ->
         name c = key /\ is_Some (dicts loaded !! args c)).
Proof.
  split; [vm_compute; reflexivity |].
  apply (registry_invariant module_body loaded).
  vm_compute. reflexivity.
Defined.

(** X6. Registering a command makes its name resolve to it, with the
    handler, description and parameters given, also when the name was
    registered before: the last registration wins.  Every other name
    resolves as before, to a command with the parameters it had. *)
Theorem registration_last_wins (body : list Stmt) (st st' : Store)
  (key : string) (d : ArgsDict) (f : Func) (descr : string) :
  exec_all body empty_store = inr st ->
  exec (AddCommand key d f descr) st = inr st' ->
  (exists c,
      lookup st' key = Some c
      /\ func c = f /\ name c = key /\ description c = descr
      /\ args_of st' c = d)
  /\ forall k,
       k <> key ->
       lookup st' k = lookup st k
       /\ forall c, lookup st k = Some c -> args_of st' c = args_of st c.
Proof.
  intros Hbuilt H.
  destruct (sound_exec_all _ _ _ sound_empty Hbuilt) as (Hwf & Hnd & Hargs).
  simpl in H. injection H as <-. unfold _add_command, new_Command.
  cbn [dicts objects _commands]. split.
  - eexists. unfold lookup, args_of. cbn [dicts objects _commands].
    rewrite dict_get_update_eq, list_lookup_middle by reflexivity.
    repeat split. cbn [args]. now rewrite list_lookup_middle.
  - intros k Hk. unfold lookup, args_of. cbn [dicts objects _commands].
    rewrite dict_get_update_ne by congruence.
    destruct (dict_get k (_commands st)) as [o|] eqn:Ho; [| now split].
    apply dict_get_In in Ho. apply (proj2 (list_elem_of_In _ _)) in Ho.
    unfold wf in Hwf. rewrite Forall_forall in Hwf.
    destruct (Hwf _ Ho) as (c & Hc & _). cbn [snd] in Hc.
    rewrite Hc, (lookup_app_l_Some _ _ _ _ Hc). split; [reflexivity |].
    intros c' [= <-]. rewrite Forall_forall in Hargs.
    rewrite lookup_app_l; [reflexivity |].
    apply Hargs. eapply list_elem_of_lookup_2. exact Hc.
Qed.

Lemma registration_last_wins_witness :
  exec_all module_body empty_store = inr loaded
  /\ (exists st',
         exec (AddCommand "balance" [("account", (Cstr, "Whose balance"))]
                 fn_full_balance "Print un-rounded balance") loaded
         = inr st'
         /\ (exists c,
                lookup st' "balance" = Some c
                /\ func c = fn_full_balance /\ name c = "balance"
                /\ description c = "Print un-rounded balance"
                /\ args_of st' c = [("account", (Cstr, "Whose balance"))])
         /\ forall k,
              k <> "balance" ->
              lookup st' k = lookup loaded k
              /\ forall c,
                   lookup loaded k = Some c ->
                   args_of st' c = args_of loaded c).
Proof.
  split; [vm_compute; reflexivity |].
  eexists. split; [reflexivity |].
  apply (registration_last_wins module_body loaded _ "balance"
           [("account", (Cstr, "Whose balance"))] fn_full_balance
           "Print un-rounded balance");
    [vm_compute; reflexivity | reflexivity].
Defined.

(** X7. [_alias(name, alias)] raises [KeyError] exactly when [name] is not
    registered; for a registered name it succeeds, also when the alias is
    the name itself or is taken already. *)
Theorem alias_raises_KeyError_iff_unregistered (body : list Stmt) (st : Store)
  (key alias : string) :
  exec_all body empty_store = inr st ->
  (lookup st key = None ->
   _alias key alias st = inl (mkExn KeyError (Py.repr key)))
  /\ (is_Some (lookup st key) -> exists st', _alias key alias st = inr st')
  /\ (forall e, _alias key alias st = inl e ->
                lookup st key = None /\ kind e = KeyError).
Proof.
  intros Hbuilt.
  pose proof (wf_exec_all _ _ _ wf_empty Hbuilt) as Hwf.
  assert (Hres : forall o, dict_get key (_commands st) = Some o ->
                           is_Some (objects st !! o)).
  { intros o Ho. apply dict_get_In in Ho.
    apply (proj2 (list_elem_of_In _ _)) in Ho.
    unfold wf in Hwf. rewrite Forall_forall in Hwf.
    destruct (Hwf _ Ho) as (c & Hc & _). now exists c. }
  unfold lookup, _alias, copy.
  destruct (dict_get key (_commands st)) as [o|] eqn:Ho.
  - destruct (Hres o eq_refl) as [c Hc]. rewrite Hc.
    split; [discriminate |]. split; [intros _; eauto |]. discriminate.
  - split; [reflexivity |]. split; [intros [c Hc]; discriminate |].
    intros e [= <-]. now split.
Qed.

Lemma alias_raises_KeyError_iff_unregistered_witness :
  exec_all module_body empty_store = inr loaded
  /\ (lookup loaded "ballance" = None ->
      _alias "ballance" "b" loaded = inl (mkExn KeyError "'ballance'"))
  /\ (is_Some (lookup loaded "bal") ->
      exists st', _alias "bal" "bal" loaded = inr st')
  /\ (forall e, _alias "ballance" "b" loaded = inl e ->
                lookup loaded "ballance" = None /\ kind e = KeyError).
Proof.
  split; [vm_compute; reflexivity |].
  pose proof (alias_raises_KeyError_iff_unregistered module_body loaded
                "ballance" "b" loaded_eq) as (H1 & _ & H3).
  pose proof (alias_raises_KeyError_iff_unregistered module_body loaded
                "bal" "bal" loaded_eq) as (_ & H2 & _).
  exact (conj H1 (conj H2 H3)).
Defined.

(** ** Sorting the registry *)

Lemma ltb_asym (a b : string) : String.ltb a b = true -> String.ltb b a = false.
Proof.
  unfold String.ltb. rewrite (String.compare_antisym a b).
  now destruct (String.compare b a).
Qed.

Lemma ltb_lt (a b : string) :
  String.ltb a b = true <-> OrderedTypeEx.String_as_OT.lt a b.
Proof.
  unfold String.ltb. rewrite <- OrderedTypeEx.String_as_OT.cmp_lt.
  unfold OrderedTypeEx.String_as_OT.cmp.
  destruct (String.compare a b); split; congruence.
Qed.

Lemma ltb_total (a b : string) :
  a <> b -> String.ltb b a = false -> String.ltb a b = true.
Proof.
  unfold String.ltb. rewrite (String.compare_antisym a b).
  destruct (String.compare b a) eqn:H; simpl; try congruence.
  intros Hne _. apply String.compare_eq_iff in H. congruence.
Qed.

Lemma ltb_trans (a b c : string) :
  String.ltb a b = true -> String.ltb b c = true -> String.ltb a c = true.
Proof.
  rewrite !ltb_lt. apply OrderedTypeEx.String_as_OT.lt_trans.
Qed.

(** [a <= b] and [b <= c] give [a <= c], where [a <= b] is [not b < a]. *)
Lemma leb_trans (a b c : string) :
  String.ltb b a = false -> String.ltb c b = false -> String.ltb c a = false.
Proof.
  intros Hab Hbc. destruct (String.ltb c a) eqn:Hca; [| reflexivity].
  destruct (String.eqb_spec a b) as [->|Hne]; [congruence |].
  pose proof (ltb_total a b Hne Hab) as Hlt.
  pose proof (ltb_trans c a b Hca Hlt). congruence.
Qed.

Section SortedByName.

Context {V : Type}.

Abbreviation by_name :=
  (StronglySorted
     (fun a b : string * V => String.ltb (fst b) (fst a) = false)).

Lemma insert_by_name x l :
  by_name l -> by_name (Py.insert fst String.ltb x l).
Proof.
  induction l as [|y l IH]; intros Hl; simpl.
  - repeat constructor.
  - apply StronglySorted_inv in Hl as [Hl Hy].
    destruct (String.ltb (fst x) (fst y)) eqn:Hlt.
    + constructor; [now constructor |].
      constructor; [now apply ltb_asym |].
      eapply Forall_impl; [exact Hy |]. intros b Hb. simpl in Hb.
      apply (leb_trans _ (fst y)); [now apply ltb_asym | exact Hb].
    + constructor; [now apply IH |].
      eapply Permutation_Forall; [symmetry; apply insert_perm |].
      now constructor.
Qed.

Lemma sort_from_by_name l acc :
  by_name acc ->
  by_name (fold_left (fun acc x => Py.insert fst String.ltb x acc) l acc).
Proof.
  revert acc. induction l as [|x l IH]; intros acc Hacc; simpl; [exact Hacc |].
  apply IH. now apply insert_by_name.
Qed.

Lemma sorted_items_by_name (d : list (string * V)) : by_name (sorted_items d).
Proof. apply sort_from_by_name. constructor. Qed.

(** Ascending and distinct is strictly ascending. *)
Lemma by_name_strict (l : list (string * V)) :
  by_name l -> NoDup (map fst l) -> strictly_ascending (map fst l).
Proof.
  unfold strictly_ascending.
  induction l as [|x l IH]; intros Hl Hnd; simpl; [constructor |].
  apply StronglySorted_inv in Hl as [Hl Hx].
  simpl in Hnd. apply NoDup_cons in Hnd as [Hx' Hnd].
  constructor; [now apply IH |].
  rewrite Forall_forall in Hx. apply Forall_forall. intros k Hk.
  apply list_elem_of_In, in_map_iff in Hk as (y & <- & Hy).
  apply ltb_total.
  - intros Heq. apply Hx'. rewrite Heq. apply list_elem_of_In.
    now apply in_map.
  - apply Hx. now apply list_elem_of_In.
Qed.

End SortedByName.

(** X8. Sorting the registry, the last statement of the module, puts the
    names in strictly ascending order and changes nothing else: the entries
    are the same, and every name resolves to the command it resolved to
    before. *)
Theorem sorting_keeps_lookups (body : list Stmt) (st st' : Store) :
  exec_all body empty_store = inr st ->
  exec SortCommands st = inr st' ->
  strictly_ascending (map fst (_commands st'))
  /\ Permutation (_commands st') (_commands st)
  /\ forall key, lookup st' key = lookup st key.
Proof.
  intros Hbuilt H.
  destruct (sound_exec_all _ _ _ sound_empty Hbuilt) as (Hwf & Hnd & Hargs).
  simpl in H. injection H as <-. cbn [_commands].
  pose proof (sorted_perm fst String.ltb false (_commands st)) as Hp.
  fold (sorted_items (_commands st)) in Hp.
  split; [| split; [exact Hp |]].
  - apply by_name_strict; [apply sorted_items_by_name |].
    now rewrite (Permutation_map fst Hp).
  - intros key. unfold lookup. cbn [_commands objects].
    now rewrite <- (dict_get_perm key _ _ (Permutation_sym Hp) Hnd).
Qed.

Lemma sorting_keeps_lookups_witness :
  exec_all (take 51 module_body) empty_store = inr unsorted
  /\ exec SortCommands unsorted = inr loaded
  /\ strictly_ascending (map fst (_commands loaded))
  /\ Permutation (_commands loaded) (_commands unsorted)
  /\ forall key, lookup loaded key = lookup unsorted key.
Proof.
  split; [vm_compute; reflexivity |]. split; [vm_compute; reflexivity |].
  apply (sorting_keeps_lookups (take 51 module_body) unsorted loaded);
    vm_compute; reflexivity.
Defined.

(** * Further properties of the handlers *)

Section Calls.

Context `{Acc : Accounting}.

(** A call into the service, from what the service does. *)
Lemma call_run (f : commands.fn) (argv : list Value) (s : Server) :
  call f argv s
  = (match fst (call_commands f argv s) with
     | inr a => Return a
     | inl e => Raise e
     end, snd (call_commands f argv s), [Called f argv]).
Proof. unfold call. now destruct (call_commands f argv s). Qed.

(** A guarded call: the handler answers a [ValueCommandException] of the
    service itself, and goes on when the call returns. *)
Lemma try_call_run (f : commands.fn) (argv : list Value) (msg : string)
  (k : M Value) (s : Server) :
  try_call f argv msg k s
  = match call_commands f argv s with
    | (inr _, s') => after [Called f argv] (k s')
    | (inl e, s') =>
        match kind e with
        | ValueCommandException => (Return (VStr msg), s', [Called f argv])
        | _ => (Raise e, s', [Called f argv])
        end
    end.
Proof.
  unfold try_call, bind, try_except, call, on_value_error, ret, after.
  destruct (call_commands f argv s) as [[e|a] s']; cbn.
  - destruct (kind e); reflexivity.
  - now destruct (k s') as [[o s2] t2].
Qed.

(** Coercion reads the functions of the declared parameters, not their
    help texts. *)
Lemma coerce_all_coercions values inputs :
  coerce_all values inputs
  = coerce_all (map (fun v => (fst v, "")) values) inputs.
Proof.
  revert inputs. induction values as [|arg values IH]; intros [|input inputs];
    simpl; try reflexivity.
  now rewrite IH.
Qed.

(** The run of a line that reaches its handler, from the declaration of
    the command and the coercions of its words. *)
Lemma run_command_words author message key inputs command f cs args s :
  Py.split message = key :: inputs ->
  lookup loaded key = Some command ->
  func command = f ->
  coercions loaded command = cs ->
  coerce_all (map (fun c => (c, "")) cs) inputs = inr args ->
  length cs <= length inputs ->
  length args + 3 = length (func_params f) ->
  let argv :=
    author :: args ++ [VStr (Py.join " " (drop (length cs) inputs))] in
  run_command author message s
  = after [Dispatched author message]
      (try_except
         (fun s0 => after [Invoked f argv] (body run_command loaded f argv s0))
         (except_clauses loaded command key) s).
Proof.
  intros Hsplit Hl Hf Hcs Hargs Hlen Harity argv. subst f cs.
  unfold coercions in Hargs, Hlen, argv.
  rewrite length_map in Hlen. rewrite map_map in Hargs. cbn [fst] in Hargs.
  rewrite (run_command_found author message key inputs command args s
             Hsplit Hl).
  - unfold argv. now rewrite length_map.
  - rewrite coerce_all_coercions, map_map. exact Hargs.
  - exact Hlen.
  - cbn [length]. rewrite length_app. cbn [length]. lia.
Qed.

End Calls.

(** X9. [open] answers in its own words when the service refuses with a
    [ValueCommandException]: the reply is the fixed sentence of the handler,
    not "Invalid argument: ..." with the usage, and the text of the
    exception is dropped.  When the service returns, the reply is "Account
    opened succesfully".  The words after [open] play no part. *)
Theorem open_account_replies `{Acc : Accounting}
  (author : Value) (message : string) (inputs : list string)
  (s s' : Server) (r : Exn + unit) :
  Py.split message = "open" :: inputs ->
  call_commands commands.open_account [author; author] s = (r, s') ->
  let t := [ Dispatched author message;
             Invoked fn_open_account [author; VStr (Py.join " " inputs)];
             Called commands.open_account [author; author] ] in
  (r = inr tt ->
   run_command author message s
   = (Return (VStr "Account opened succesfully"), s', t))
  /\ (forall e, r = inl e -> kind e = ValueCommandException ->
        run_command author message s
        = (Return (VStr ("Looks like you already have an account. "
                         +:+ "No need to open another one")), s', t)).
Proof.
  intros Hsplit Hcall t.
  rewrite (run_command_words author message "open" inputs _ fn_open_account
             [] [] s Hsplit eq_refl eq_refl eq_refl eq_refl);
    [| cbn [length]; lia | reflexivity].
  cbn [body app length drop]. rewrite drop_0.
  unfold try_except, _open_account.
  rewrite try_call_run, Hcall.
  split.
  - intros ->. reflexivity.
  - intros e -> He. rewrite He. reflexivity.
Qed.

Lemma open_account_replies_witness :
  Py.split "open  sesame" = ["open"; "sesame"]
  /\ call_commands (Accounting := Bank.accounting) commands.open_account
       [VStr "ann"; VStr "ann"] Bank.two
     = (inl (Bank.value_error "Account already exists"), Bank.two)
  /\ kind (Bank.value_error "Account already exists") = ValueCommandException
  /\ run_command (Acc := Bank.accounting) (VStr "ann") "open  sesame" Bank.two
     = (Return (VStr ("Looks like you already have an account. "
                      +:+ "No need to open another one")), Bank.two,
        [ Dispatched (VStr "ann") "open  sesame";
          Invoked fn_open_account [VStr "ann"; VStr "sesame"];
          Called commands.open_account [VStr "ann"; VStr "ann"] ]).
Proof.
  split; [reflexivity |]. split; [reflexivity |]. split; [reflexivity |].
  exact (proj2 (open_account_replies (Acc := Bank.accounting) (VStr "ann")
                  "open  sesame" ["sesame"] Bank.two Bank.two
                  (inl (Bank.value_error "Account already exists"))
                  eq_refl eq_refl)
           (Bank.value_error "Account already exists") eq_refl eq_refl).
Defined.

(** X10. [shoot] has three answers.  A hit is answered with a dictionary,
    not a string: the response and the account to be muted.  A shot that
    the vest stops is answered with a sentence.  And when the service raises
    an exception whose text is "Victim cannot be shot", of whatever class,
    the handler prints [1] and answers that the victim dodged: the clauses
    of [run_command] never see that exception. *)
Theorem shoot_replies `{Acc : Accounting}
  (author victim : Value) (message v : string) (more : list string)
  (s s' : Server) (r : Exn + bool) :
  Py.split message = "shoot" :: v :: more ->
  parse_account_id v = inr victim ->
  call_commands commands.shoot_account [author; author; victim] s = (r, s') ->
  let t := [ Dispatched author message;
             Invoked fn_shoot_account
               [author; victim; VStr (Py.join " " more)];
             Called commands.shoot_account [author; author; victim] ] in
  (r = inr true ->
   run_command author message s
   = (Return (VDict [("response",
                      VStr ("Successfully shot " +:+ py_str victim));
                     ("to_be_muted", victim)]), s', t))
  /\ (r = inr false ->
      exists sentence,
        run_command author message s = (Return (VStr sentence), s', t))
  /\ (forall e, r = inl e -> text e = "Victim cannot be shot" ->
        run_command author message s
        = (Return (VStr ("You tried to shoot " +:+ py_str victim
                         +:+ " but they dodged")), s',
           t ++ [Printed "1"])).
Proof.
  intros Hsplit Hv Hcall t.
  rewrite (run_command_words author message "shoot" (v :: more) _
             fn_shoot_account [Cparse_account_id]
             [victim] s Hsplit eq_refl eq_refl eq_refl);
    [| cbn [map coerce_all coerce fst]; now rewrite Hv
     | cbn [length]; lia | reflexivity].
  cbn [body app length drop]. rewrite drop_0.
  unfold try_except, _shoot_account, bind.
  unfold try_except. rewrite call_run, Hcall. cbn [fst snd].
  repeat split.
  - intros ->. reflexivity.
  - intros ->. eexists. reflexivity.
  - intros e -> He. rewrite He. reflexivity.
Qed.

Lemma shoot_replies_witness :
  Py.split "shoot ghost" = ["shoot"; "ghost"]
  /\ parse_account_id (Accounting := Bank.accounting) "ghost"
     = inr (VStr "ghost")
  /\ call_commands (Accounting := Bank.accounting) commands.shoot_account
       [VStr "ann"; VStr "ann"; VStr "ghost"] Bank.two
     = (inl (Bank.value_error "Victim cannot be shot"), Bank.two)
  /\ run_command (Acc := Bank.accounting) (VStr "ann") "shoot ghost" Bank.two
     = (Return (VStr "You tried to shoot ghost but they dodged"), Bank.two,
        [ Dispatched (VStr "ann") "shoot ghost";
          Invoked fn_shoot_account [VStr "ann"; VStr "ghost"; VStr ""];
          Called commands.shoot_account
            [VStr "ann"; VStr "ann"; VStr "ghost"];
          Printed "1" ]).
Proof.
  split; [reflexivity |]. split; [reflexivity |]. split; [reflexivity |].
  exact (proj2 (proj2 (shoot_replies (Acc := Bank.accounting) (VStr "ann")
                         (VStr "ghost") "shoot ghost" "ghost" [] Bank.two
                         Bank.two
                         (inl (Bank.value_error "Victim cannot be shot"))
                         eq_refl eq_refl eq_refl))
           (Bank.value_error "Victim cannot be shot") eq_refl eq_refl).
Defined.

(** ** The help *)

Lemma lstrip_word (s : string) :
  match s with
  | EmptyString => True
  | String c _ => Py.is_space c = false
  end ->
  Py.lstrip s = s.
Proof. destruct s as [|c s]; [reflexivity |]. simpl. now intros ->. Qed.

Lemma rstrip_app (s t : string) :
  Py.rstrip t <> EmptyString -> Py.rstrip (s +:+ t) = s +:+ Py.rstrip t.
Proof.
  intros Ht. induction s as [|c s IH].
  - now rewrite !append_empty_l.
  - rewrite !append_cons. cbn [Py.rstrip]. rewrite IH.
    destruct (s +:+ Py.rstrip t) eqn:Hs; [| reflexivity].
    destruct s; [| now rewrite append_cons in Hs].
    now rewrite append_empty_l in Hs.
Qed.

Lemma rstrip_word (t : string) : no_space t = true -> Py.rstrip t = t.
Proof.
  induction t as [|c t IH]; [reflexivity |]. simpl.
  intros [Hc Ht]%andb_prop. rewrite (IH Ht).
  destruct t; [| reflexivity].
  now destruct (Py.is_space c).
Qed.

(** Words joined by single spaces have nothing to strip. *)
Lemma strip_join (ts : list string) :
  Forall word ts -> Py.strip (Py.join " " ts) = Py.join " " ts.
Proof.
  intros Hts. unfold Py.strip.
  assert (Hl : Py.lstrip (Py.join " " ts) = Py.join " " ts).
  { apply lstrip_word. destruct Hts as [|t ts [Hne Ht] Hts]; [exact I |].
    destruct t as [|c t]; [congruence |].
    simpl in Ht. apply andb_prop in Ht as [Hc _].
    apply negb_true_iff in Hc.
    destruct ts; cbn [Py.join]; now rewrite ?append_cons. }
  rewrite Hl. clear Hl.
  induction Hts as [|t ts [Hne Ht] Hts IH]; [reflexivity |].
  destruct ts as [|t' ts].
  - cbn [Py.join]. now apply rstrip_word.
  - change (Py.join " " (t :: t' :: ts))
      with (t +:+ " " +:+ Py.join " " (t' :: ts)).
    rewrite <- append_assoc. rewrite rstrip_app; rewrite IH; [reflexivity |].
    inversion Hts as [|? ? [Hne' _] _]; subst.
    destruct t' as [|c' t']; [congruence |].
    destruct ts; cbn [Py.join]; now rewrite ?append_cons.
Qed.

(** The commands of a well-formed registry, in the order of the names. *)
Lemma values_of_names (st : Store) :
  wf st -> map name (values_of st) = map fst (_commands st).
Proof.
  unfold wf, values_of. induction 1 as [|kv d (c & Hc & Hn) _ IH];
    [reflexivity |].
  cbn [omap list_omap map]. rewrite Hc. cbn [map]. now rewrite Hn, IH.
Qed.

Lemma lookup_values_of (st : Store) (key : string) (c : _Command) :
  lookup st key = Some c -> In c (values_of st).
Proof.
  unfold lookup, values_of.
  destruct (dict_get key (_commands st)) as [o|] eqn:Ho; [| discriminate].
  intros Hc. apply dict_get_In in Ho.
  apply list_elem_of_In, list_elem_of_omap.
  exists (key, o). split; [now apply list_elem_of_In | exact Hc].
Qed.

(** X11. [help] on its own answers with the list of the commands: one row
    per registered name, name and description, in ascending order of the
    names.  Every command a line can reach is in the list, aliases under
    their own names.  The service is not called. *)
Theorem help_lists_every_command `{Acc : Accounting}
  (author : Value) (message : string) (s : Server) :
  Py.split message = ["help"] ->
  let listed := values_of loaded in
  run_command author message s
  = (Return (VStr (Py.join Py.nl
                     ["List of commands:";
                      Py.join Py.nl (map help_row listed)])), s,
     [Dispatched author message; Invoked fn_help [author; VStr ""]])
  /\ map name listed = map fst (_commands loaded)
  /\ strictly_ascending (map name listed)
  /\ forall key command, lookup loaded key = Some command -> In command listed.
Proof.
  intros Hsplit listed. split; [| split; [| split]].
  - rewrite (run_command_words author message "help" [] _ fn_help
               [] [] s Hsplit eq_refl eq_refl eq_refl eq_refl);
      [| cbn [length]; lia | reflexivity].
    reflexivity.
  - apply values_of_names, wf_loaded.
  - unfold listed. rewrite (values_of_names _ wf_loaded).
    destruct (sound_exec_all _ _ _ sound_empty loaded_eq) as (_ & Hnd & _).
    apply by_name_strict; [| exact Hnd].
    change (_commands loaded) with (sorted_items (_commands unsorted)).
    apply sorted_items_by_name.
  - intros key command. apply lookup_values_of.
Qed.

Lemma help_lists_every_command_witness :
  Py.split " help " = ["help"]
  /\ run_command (Acc := Bank.accounting) (VStr "ann") " help " Bank.two
     = (Return (VStr (Py.join Py.nl
                        ["List of commands:";
                         Py.join Py.nl (map help_row (values_of loaded))])),
        Bank.two,
        [Dispatched (VStr "ann") " help "; Invoked fn_help [VStr "ann"; VStr ""]]).
Proof.
  split; [reflexivity |].
  exact (proj1 (help_lists_every_command (Acc := Bank.accounting) (VStr "ann")
                  " help " Bank.two eq_refl)).
Defined.

(** X12. [help] followed by a word answers with the usage of the command of
    that name, and with "No such command: " and the word when there is
    none.  Only the first word after [help] counts. *)
Theorem help_on_a_command `{Acc : Accounting}
  (author : Value) (message topic : string) (more : list string) (s : Server) :
  Py.split message = "help" :: topic :: more ->
  run_command author message s
  = (Return (VStr match lookup loaded topic with
                  | Some command => usage loaded command
                  | None => "No such command: " +:+ topic
                  end), s,
     [ Dispatched author message;
       Invoked fn_help [author; VStr (Py.join " " (topic :: more))] ]).
Proof.
  intros Hsplit.
  pose proof (split_words message) as Hw. rewrite Hsplit in Hw.
  apply Forall_cons in Hw as [_ Hw].
  rewrite (run_command_words author message "help" (topic :: more) _ fn_help
             [] [] s Hsplit eq_refl eq_refl eq_refl eq_refl);
    [| cbn [length]; lia | reflexivity].
  cbn [body app length drop].
  unfold try_except, _help.
  rewrite (strip_join _ Hw), (split_join _ Hw).
  now destruct (lookup loaded topic).
Qed.

Lemma help_on_a_command_witness :
  Py.split "help bal now" = ["help"; "bal"; "now"]
  /\ run_command (Acc := Bank.accounting) (VStr "ann") "help bal now" Bank.two
     = (Return (VStr match lookup loaded "bal" with
                     | Some command => usage loaded command
                     | None => "No such command: bal"
                     end), Bank.two,
        [ Dispatched (VStr "ann") "help bal now";
          Invoked fn_help [VStr "ann"; VStr "bal now"] ]).
Proof.
  split; [reflexivity |].
  exact (help_on_a_command (Acc := Bank.accounting) (VStr "ann")
           "help bal now" "bal" ["now"] Bank.two eq_refl).
Defined.

(** ** The public key *)

(** A string without line boundaries is its own single line. *)
Lemma splitlines_one_line (line s : string) :
  one_line s = true ->
  Py.splitlines_from line s
  = match line +:+ s with
    | EmptyString => []
    | _ => [line +:+ s]
    end.
Proof.
  revert line. induction s as [|c s IH]; intros line Hs.
  - rewrite append_empty_r. reflexivity.
  - simpl in Hs. apply andb_prop in Hs as [Hc Hs].
    apply negb_true_iff in Hc. cbn [Py.splitlines_from]. rewrite Hc.
    rewrite (IH _ Hs), append_assoc, append_cons, append_empty_l.
    reflexivity.
Qed.

(** X13. The key that [add-public-key] hands to the service is the words
    after the name, joined by single spaces.  It holds no line boundary: the
    handler's filter on blank lines never removes anything, and a key sent
    on several lines reaches the service on one. *)
Theorem public_key_is_one_line `{Acc : Accounting}
  (author : Value) (message key : string) (more : list string)
  (s s' : Server) :
  Py.split message = "add-public-key" :: key :: more ->
  let pem := key +:+ " " +:+ Py.join " " more in
  call_commands commands.add_public_key [author; author; VStr pem] s
  = (inr tt, s') ->
  one_line pem = true
  /\ run_command author message s
     = (Return (VStr "Public key added successfully"), s',
        [ Dispatched author message;
          Invoked fn_add_public_key
            [author; VStr key; VStr (Py.join " " more)];
          Called commands.add_public_key [author; author; VStr pem] ]).
Proof.
  intros Hsplit pem Hcall.
  pose proof (split_words message) as Hw. rewrite Hsplit in Hw.
  apply Forall_cons in Hw as [_ Hw].
  assert (Hpem : one_line pem = true).
  { unfold pem. apply Forall_cons in Hw as [[_ Hkey] Hmore].
    rewrite !one_line_app, (no_space_one_line _ Hkey).
    now rewrite (one_line_join _ Hmore). }
  split; [exact Hpem |].
  rewrite (run_command_words author message "add-public-key" (key :: more) _
             fn_add_public_key [Cstr] [VStr key] s Hsplit
             eq_refl eq_refl eq_refl eq_refl);
    [| cbn [length]; lia | reflexivity].
  cbn [body app length drop]. rewrite drop_0.
  unfold try_except, _add_public_key, bind. cbn [py_str].
  fold pem. unfold Py.splitlines. rewrite (splitlines_one_line _ _ Hpem).
  rewrite append_empty_l.
  apply Forall_cons in Hw as [[Hne Hkey] _].
  destruct key as [|c key]; [congruence |].
  simpl in Hkey. apply andb_prop in Hkey as [Hc _].
  apply negb_true_iff in Hc.
  unfold pem in *. rewrite append_cons in *.
  cbn [List.filter String.eqb negb andb Py.isspace Py.all_space].
  rewrite Hc. cbn [List.filter String.eqb negb andb Py.join].
  rewrite call_run, Hcall. reflexivity.
Qed.

Lemma public_key_is_one_line_witness :
  Py.split ("add-public-key BEGIN" +:+ Py.nl +:+ "MFkw" +:+ Py.nl +:+ "END")
  = ["add-public-key"; "BEGIN"; "MFkw"; "END"]
  /\ call_commands (Accounting := Bank.accounting) commands.add_public_key
       [VStr "ann"; VStr "ann"; VStr "BEGIN MFkw END"] Bank.two
     = (inr tt, Bank.two)
  /\ one_line "BEGIN MFkw END" = true
  /\ run_command (Acc := Bank.accounting) (VStr "ann")
       ("add-public-key BEGIN" +:+ Py.nl +:+ "MFkw" +:+ Py.nl +:+ "END")
       Bank.two
     = (Return (VStr "Public key added successfully"), Bank.two,
        [ Dispatched (VStr "ann")
            ("add-public-key BEGIN" +:+ Py.nl +:+ "MFkw" +:+ Py.nl +:+ "END");
          Invoked fn_add_public_key
            [VStr "ann"; VStr "BEGIN"; VStr "MFkw END"];
          Called commands.add_public_key
            [VStr "ann"; VStr "ann"; VStr "BEGIN MFkw END"] ]).
Proof.
  split; [reflexivity |]. split; [reflexivity |].
  exact (public_key_is_one_line (Acc := Bank.accounting) (VStr "ann")
           ("add-public-key BEGIN" +:+ Py.nl +:+ "MFkw" +:+ Py.nl +:+ "END")
           "BEGIN" ["MFkw"; "END"] Bank.two Bank.two eq_refl eq_refl).
Defined.

(** ** Tax brackets *)

(** X14. [add-tax-bracket] is declared with the parameters [start], [end],
    [rate], [name], in this order, and its handler takes them as [start],
    [rate], [end], [name]: the second word of an invocation reaches the
    service as the rate and the third as the upper bound.  It is the third
    word that, when negative, stands for no upper bound. *)
Theorem tax_bracket_words_are_swapped `{Acc : Accounting}
  (author : Value) (message a b c n : string) (more : list string)
  (first second third : Q) (s s' : Server) :
  Py.split message = "add-tax-bracket" :: a :: b :: c :: n :: more ->
  Py.Fraction a = inr first ->
  Py.Fraction b = inr second ->
  Py.Fraction c = inr third ->
  let upper := if Qle_bool 0 third then VFrac third else VNone in
  call_commands commands.add_tax_bracket
    [author; VFrac first; upper; VFrac second; VStr n] s
  = (inr tt, s') ->
  (exists command,
      lookup loaded "add-tax-bracket" = Some command
      /\ map fst (args_of loaded command) = ["start"; "end"; "rate"; "name"])
  /\ run_command author message s
     = (Return (VStr ("Tax bracket " +:+ n +:+ ": ["
                      +:+ py_str (VFrac first) +:+ en_dash +:+ py_str upper
                      +:+ "] " +:+ py_str (VFrac second) +:+ " added")),
        s',
        [ Dispatched author message;
          Invoked fn_add_tax_bracket
            [author; VFrac first; VFrac second; VFrac third; VStr n;
             VStr (Py.join " " more)];
          Called commands.add_tax_bracket
            [author; VFrac first; upper; VFrac second; VStr n] ]).
Proof.
  intros Hsplit Ha Hb Hc upper Hcall.
  split; [eexists; split; [vm_compute; reflexivity | reflexivity] |].
  rewrite (run_command_words author message "add-tax-bracket"
             (a :: b :: c :: n :: more) _ fn_add_tax_bracket
             [CFraction; CFraction; CFraction; Cstr]
             [VFrac first; VFrac second; VFrac third; VStr n] s Hsplit
             eq_refl eq_refl eq_refl);
    [| cbn [map coerce_all coerce fst]; now rewrite Ha, Hb, Hc
     | cbn [length]; lia | reflexivity].
  cbn [body app length drop]. rewrite drop_0.
  unfold try_except, _add_tax_bracket, bind. cbn [as_number ret].
  fold upper. rewrite call_run, Hcall. reflexivity.
Qed.

Lemma tax_bracket_words_are_swapped_witness :
  Py.split "add-tax-bracket 0 100 1/10 low"
  = ["add-tax-bracket"; "0"; "100"; "1/10"; "low"]
  /\ Py.Fraction "0" = inr (0 # 1)
  /\ Py.Fraction "100" = inr (100 # 1)
  /\ Py.Fraction "1/10" = inr (1 # 10)
  /\ call_commands (Accounting := Bank.accounting) commands.add_tax_bracket
       [VStr "ann"; VFrac (0 # 1); VFrac (1 # 10); VFrac (100 # 1); VStr "low"]
       Bank.two
     = (inr tt, Bank.two)
  /\ run_command (Acc := Bank.accounting) (VStr "ann")
       "add-tax-bracket 0 100 1/10 low" Bank.two
     = (Return (VStr ("Tax bracket low: [0" +:+ en_dash +:+ "1/10] 100 added")),
        Bank.two,
        [ Dispatched (VStr "ann") "add-tax-bracket 0 100 1/10 low";
          Invoked fn_add_tax_bracket
            [VStr "ann"; VFrac (0 # 1); VFrac (100 # 1); VFrac (1 # 10);
             VStr "low"; VStr ""];
          Called commands.add_tax_bracket
            [VStr "ann"; VFrac (0 # 1); VFrac (1 # 10); VFrac (100 # 1);
             VStr "low"] ]).
Proof.
  split; [reflexivity |]. split; [reflexivity |]. split; [reflexivity |].
  split; [reflexivity |]. split; [reflexivity |].
  exact (proj2 (tax_bracket_words_are_swapped (Acc := Bank.accounting)
                  (VStr "ann") "add-tax-bracket 0 100 1/10 low"
                  "0" "100" "1/10" "low" [] (0 # 1) (100 # 1) (1 # 10)
                  Bank.two Bank.two eq_refl eq_refl eq_refl eq_refl eq_refl)).
Defined.

(** ** Authorization levels *)

(** X15. The level of [authorize] is found by its name with the case
    ignored: a word names the member of [Authorization] whose lowered name
    is the lowered word, and of several such members the last one. *)
Theorem level_ignores_case `{Acc : Accounting}
  (earlier later : list (string * Obj)) (n lvl : string) (a : Obj) :
  Authorization = earlier ++ (n, a) :: later ->
  Forall (fun m => Py.lower (fst m) <> Py.lower n) later ->
  Py.lower lvl = Py.lower n ->
  lambda_level lvl = inr (VObj a).
Proof.
  intros HA Hlater Hlvl. unfold lambda_level.
  rewrite HA, Hlvl, fold_left_app. cbn [fold_left fst snd].
  now rewrite (levels_without _ _ _ Hlater), dict_get_update_eq.
Qed.

Lemma level_ignores_case_witness :
  Authorization (Accounting := Bank.accounting)
  = [("CITIZEN", 0%N)] ++ ("OFFICER", 1%N)
      :: [("ADMIN", 2%N); ("DEVELOPER", 3%N)]
  /\ Forall (fun m => Py.lower (fst m) <> Py.lower "OFFICER")
       [("ADMIN", 2%N); ("DEVELOPER", 3%N)]
  /\ Py.lower "Officer" = Py.lower "OFFICER"
  /\ lambda_level (Acc := Bank.accounting) "Officer" = inr (VObj 1%N).
Proof.
  assert (H : Forall (fun m : string * Obj =>
                        Py.lower (fst m) <> Py.lower "OFFICER")
                [("ADMIN", 2%N); ("DEVELOPER", 3%N)])
    by (repeat constructor; vm_compute; discriminate).
  split; [reflexivity |]. split; [exact H |]. split; [reflexivity |].
  exact (level_ignores_case (Acc := Bank.accounting) [("CITIZEN", 0%N)]
           [("ADMIN", 2%N); ("DEVELOPER", 3%N)] "OFFICER" "Officer" 1%N
           eq_refl H eq_refl).
Defined.

(** ** Recurring transfers *)

(** X16. [create-recurring-transfer] to a beneficiary whose account id is a
    plain string sets the transfer up and then fails: the service is called
    and returns, and the reply is being put together.  When the amount is
    beyond the range of a float, [_mixed(amount)] raises [OverflowError];
    otherwise [destination.readable()] raises [AttributeError].  No clause
    of [run_command] catches either.  The server keeps the transfer, and
    there is no reply. *)
Theorem recurring_transfer_to_plain_id `{Acc : Accounting}
  (author : Value) (message a d n : string) (more : list string)
  (amount : Q) (destination : string) (tick_count : Z) (transfer : Obj)
  (s s' : Server) :
  Py.split message = "create-recurring-transfer" :: a :: d :: n :: more ->
  Py.Fraction a = inr amount ->
  parse_account_id d = inr (VStr destination) ->
  Py.int n = inr tick_count ->
  call_commands commands.create_recurring_transfer
    [author; author; VStr destination; VFrac amount; VInt tick_count] s
  = (inr transfer, s') ->
  run_command author message s
  = (Raise match truediv (Qnum (Qred amount)) (Zpos (Qden (Qred amount))) with
           | Some _ => attribute_error
           | None => overflow_error
           end, s',
     [ Dispatched author message;
       Invoked fn_create_recurring_transfer
         [author; VFrac amount; VStr destination; VInt tick_count;
          VStr (Py.join " " more)];
       Called commands.create_recurring_transfer
         [author; author; VStr destination; VFrac amount; VInt tick_count] ]).
Proof.
  intros Hsplit Ha Hd Hn Hcall.
  rewrite (run_command_words author message "create-recurring-transfer"
             (a :: d :: n :: more) _ fn_create_recurring_transfer
             [CFraction; Cparse_account_id; Cint]
             [VFrac amount; VStr destination; VInt tick_count] s Hsplit
             eq_refl eq_refl eq_refl);
    [| cbn [map coerce_all coerce fst]; now rewrite Ha, Hd, Hn
     | cbn [length]; lia | reflexivity].
  cbn [body app length drop]. rewrite drop_0.
  unfold try_except, _create_recurring_transfer, bind.
  rewrite call_run, Hcall. cbn [fst snd].
  unfold _mixed, py_truediv. cbn [as_number].
  destruct (truediv _ _) as [x|]; [| now destruct (_ =? 0)%Z].
  destruct (_ =? 0)%Z; [| destruct (float_le1 x)]; reflexivity.
Qed.

Lemma recurring_transfer_to_plain_id_witness :
  Py.split "create-recurring-transfer 1 ben 3"
  = ["create-recurring-transfer"; "1"; "ben"; "3"]
  /\ Py.Fraction "1" = inr (1 # 1)
  /\ parse_account_id (Accounting := Bank.accounting) "ben" = inr (VStr "ben")
  /\ Py.int "3" = inr 3%Z
  /\ call_commands (Accounting := Bank.accounting)
       commands.create_recurring_transfer
       [VStr "ann"; VStr "ann"; VStr "ben"; VFrac (1 # 1); VInt 3] Bank.two
     = (inr 7%N, Bank.two)
  /\ run_command (Acc := Bank.accounting) (VStr "ann")
       "create-recurring-transfer 1 ben 3" Bank.two
     = (Raise attribute_error, Bank.two,
        [ Dispatched (VStr "ann") "create-recurring-transfer 1 ben 3";
          Invoked fn_create_recurring_transfer
            [VStr "ann"; VFrac (1 # 1); VStr "ben"; VInt 3; VStr ""];
          Called commands.create_recurring_transfer
            [VStr "ann"; VStr "ann"; VStr "ben"; VFrac (1 # 1); VInt 3] ]).
Proof.
  split; [reflexivity |]. split; [reflexivity |]. split; [reflexivity |].
  split; [reflexivity |]. split; [reflexivity |].
  exact (recurring_transfer_to_plain_id (Acc := Bank.accounting) (VStr "ann")
           "create-recurring-transfer 1 ben 3" "1" "ben" "3" [] (1 # 1) "ben"
           3%Z 7%N Bank.two Bank.two eq_refl eq_refl eq_refl eq_refl eq_refl).
Defined.

(** ** The account of a balance query *)

(** The account that the balance handlers ask about, from the words after
    the name of the command. *)
Lemma account_of_rest_words `{Acc : Accounting}
  (author : Value) (inputs : list string) :
  Forall word inputs ->
  account_of_rest author (VStr (Py.join " " inputs))
  = match inputs with
    | [] => inr author
    | t :: _ => parse_account_id t
    end.
Proof.
  intros Hw. destruct inputs as [|t ts]; [reflexivity |].
  pose proof (split_join _ Hw) as Hs.
  destruct (Py.join " " (t :: ts)) as [|c r]; [discriminate |].
  cbn [account_of_rest]. now rewrite Hs.
Qed.

(** X17. [gun-balance], under either of its names, asks the service about
    the author when no word follows, and otherwise about the account that
    the first word after the name denotes; further words are ignored.  The
    reply says "your" exactly when that account equals the author. *)
Theorem gun_balance_account `{Acc : Accounting}
  (author account bal : Value) (message key : string) (inputs : list string)
  (s s' : Server) :
  key = "gun-balance" \/ key = "gun-bal" ->
  Py.split message = key :: inputs ->
  match inputs with
  | [] => inr author
  | t :: _ => parse_account_id t
  end = inr account ->
  call_commands commands.gun_balance [author; account] s = (inr bal, s') ->
  run_command author message s
  = (Return (VStr (if py_eq account author
                   then "your gun-balance is " +:+ py_str bal
                   else py_str account +:+ " 's gun-balance is "
                        +:+ py_str bal)), s',
     [ Dispatched author message;
       Invoked fn_gun_balance [author; VStr (Py.join " " inputs)];
       Called commands.gun_balance [author; account] ]).
Proof.
  intros Hkey Hsplit Haccount Hcall.
  pose proof (split_words message) as Hw. rewrite Hsplit in Hw.
  apply Forall_cons in Hw as [_ Hw].
  assert (Hend : forall command,
             after [Dispatched author message]
               (try_except
                  (fun s0 =>
                     after [Invoked fn_gun_balance
                              [author; VStr (Py.join " " inputs)]]
                       (_gun_balance author (VStr (Py.join " " inputs)) s0))
                  (except_clauses loaded command key) s)
             = (Return (VStr (if py_eq account author
                              then "your gun-balance is " +:+ py_str bal
                              else py_str account +:+ " 's gun-balance is "
                                   +:+ py_str bal)), s',
                [ Dispatched author message;
                  Invoked fn_gun_balance [author; VStr (Py.join " " inputs)];
                  Called commands.gun_balance [author; account] ])).
  { intros command. unfold try_except, _gun_balance, bind.
    rewrite (account_of_rest_words _ _ Hw), Haccount. cbn [lift ret].
    rewrite call_run, Hcall. cbn [fst snd].
    now destruct (py_eq account author). }
  destruct Hkey as [-> | ->].
  - rewrite (run_command_words author message "gun-balance" inputs _
               fn_gun_balance [] [] s Hsplit eq_refl eq_refl eq_refl eq_refl);
      [| cbn [length]; lia | reflexivity].
    cbn [body app length drop]. rewrite drop_0. apply Hend.
  - rewrite (run_command_words author message "gun-bal" inputs _
               fn_gun_balance [] [] s Hsplit eq_refl eq_refl eq_refl eq_refl);
      [| cbn [length]; lia | reflexivity].
    cbn [body app length drop]. rewrite drop_0. apply Hend.
Qed.

Lemma gun_balance_account_witness :
  ("gun-bal" = "gun-balance" \/ "gun-bal" = "gun-bal")
  /\ Py.split "gun-bal ben please" = ["gun-bal"; "ben"; "please"]
  /\ parse_account_id (Accounting := Bank.accounting) "ben" = inr (VStr "ben")
  /\ call_commands (Accounting := Bank.accounting) commands.gun_balance
       [VStr "ann"; VStr "ben"] Bank.two
     = (inr (VInt 0), Bank.two)
  /\ run_command (Acc := Bank.accounting) (VStr "ann") "gun-bal ben please"
       Bank.two
     = (Return (VStr "ben 's gun-balance is 0"), Bank.two,
        [ Dispatched (VStr "ann") "gun-bal ben please";
          Invoked fn_gun_balance [VStr "ann"; VStr "ben please"];
          Called commands.gun_balance [VStr "ann"; VStr "ben"] ]).
Proof.
  split; [right; reflexivity |]. split; [reflexivity |].
  split; [reflexivity |]. split; [reflexivity |].
  exact (gun_balance_account (Acc := Bank.accounting) (VStr "ann") (VStr "ben")
           (VInt 0) "gun-bal ben please" "gun-bal" ["ben"; "please"] Bank.two
           Bank.two (or_intror eq_refl) eq_refl eq_refl eq_refl).
Defined.

(** * The depth of the nested calls *)

Section Depth.

Context `{Acc : Accounting}.

Lemma dispatches_app (t1 t2 : list Event) :
  dispatches (t1 ++ t2) = dispatches t1 ++ dispatches t2.
Proof.
  apply omap_app.
Qed.

Lemma nested_ret {A : Type} d (a : A) : nested d (ret a).
Proof. intros s. cbn. lia. Qed.

Lemma nested_raise {A : Type} d (e : Exn) : nested d (raise (A := A) e).
Proof. intros s. cbn. lia. Qed.

Lemma nested_reply d (msg : string) : nested d (reply msg).
Proof. apply nested_ret. Qed.

Lemma nested_invoked d f argv : nested d (tell (Invoked f argv)).
Proof. intros s. cbn. lia. Qed.

Lemma nested_printed d msg : nested d (tell (Printed msg)).
Proof. intros s. cbn. lia. Qed.

Lemma nested_get_server d : nested d get_server.
Proof. intros s. cbn. lia. Qed.

Lemma nested_lift {A : Type} d (r : Exn + A) : nested d (lift r).
Proof. destruct r; [apply nested_raise | apply nested_ret]. Qed.

Lemma nested_call d (f : commands.fn) (argv : list Value) :
  nested d (call f argv).
Proof. intros s. rewrite call_run. cbn. lia. Qed.

(** The nested calls of a handler come last. *)
Lemma nested_bind {A B : Type} d (m : M A) (k : A -> M B) :
  nested 0 m -> (forall a, nested d (k a)) -> nested d (bind m k).
Proof.
  intros Hm Hk s. unfold bind. specialize (Hm s).
  destruct (m s) as [[[a|e|] s1] t1]; cbn [fst snd] in *; try lia.
  specialize (Hk a s1). destruct (k a s1) as [[o s2] t2]. cbn [fst snd] in *.
  rewrite dispatches_app, length_app. lia.
Qed.

Lemma nested_try_except {A : Type} a b (m : M A) (h : Exn -> option (M A)) :
  nested a m -> (forall e k, h e = Some k -> nested b k) ->
  nested (a + b) (try_except m h).
Proof.
  intros Hm Hh s. unfold try_except. specialize (Hm s).
  destruct (m s) as [[[x|e|] s1] t1]; cbn [fst snd] in *; try lia.
  destruct (h e) as [k|] eqn:He; cbn [fst snd]; [| lia].
  specialize (Hh e k He s1). destruct (k s1) as [[o s2] t2].
  cbn [fst snd] in *. rewrite dispatches_app, length_app. lia.
Qed.

Lemma nested_try_call d f argv msg (k : M Value) :
  nested d k -> nested d (try_call f argv msg k).
Proof.
  intros Hk s. rewrite try_call_run.
  destruct (call_commands f argv s) as [[e|x] s'].
  - destruct (kind e); cbn; lia.
  - specialize (Hk s'). destruct (k s') as [[o s2] t2]. exact Hk.
Qed.

Lemma nested_shoot_account d author victim rest :
  nested d (_shoot_account author victim rest).
Proof.
  unfold _shoot_account. apply nested_bind.
  - apply (nested_try_except 0 0).
    + apply nested_bind; [apply nested_call | intros; apply nested_ret].
    + intros e k [= <-].
      destruct (String.eqb _ _); [| apply nested_raise].
      apply nested_bind; [apply nested_printed | intros; apply nested_ret].
  - intros [[|]|v]; apply nested_ret.
Qed.

Create HintDb nested discriminated.

#[local] Hint Resolve nested_ret nested_raise nested_reply nested_invoked
  nested_printed nested_get_server nested_lift nested_call
  nested_shoot_account : nested.

Create HintDb handlers discriminated.

#[local] Hint Unfold _name _transfer _adm_transfer _open_account _set_public
  _leader_board _adm_open_account _freeze_account _unfreeze_account _balance
  _full_balance _money_supply _add_public_key _list_accounts _print_money
  _remove_funds _create_recurring_transfer _admin_create_recurring_transfer
  _proxy _proxy_dsa _request_alias _add_alias _admin_add_proxy
  _admin_remove_proxy _delete_account _add_tax_bracket _remove_tax_bracket
  _force_tax _toggle_auto_tax _force_ticks _set_gun_price _set_vest_price
  _buy_gun _buy_vest _gun_balance _vest_balance _buy_farm
  _set_farm_type_cost _set_farm_type_duration _set_farm_type_returns
  _farm_balance _authorize _help : handlers.

(** One step through a computation: a bind, a branch, or a leaf. *)
Ltac nested_step :=
  lazymatch goal with
  | |- nested _ (bind _ _) => apply nested_bind; [| intros ?]
  | |- nested _ (try_call _ _ _ _) => apply nested_try_call
  | |- nested _ (if ?b then _ else _) => destruct b
  | |- nested _ (match ?x with _ => _ end) => destruct x
  | |- nested _ _ => solve [eauto with nested]
  end.

(** A handler enters [run_command] no more often than its nested call. *)
Lemma nested_body d rc st f argv :
  (forall account line, nested d (rc account line)) ->
  nested d (body rc st f argv).
Proof.
  intros Hrc.
  destruct f; cbn [body];
    repeat lazymatch goal with
      | |- nested _ (match ?l with [] => _ | _ :: _ => _ end) => destruct l
      end;
    try apply nested_raise;
    autounfold with handlers;
    repeat nested_step.
Qed.

Lemma nested_call_func d rc st f argv :
  (forall account line, nested d (rc account line)) ->
  nested d (call_func rc st f argv).
Proof.
  intros Hrc. unfold call_func.
  destruct (length argv + 1 =? length (func_params f));
    [| apply nested_raise].
  apply nested_bind; [apply nested_invoked | intros _; now apply nested_body].
Qed.

(** One entry more than the nested calls make. *)
Lemma nested_dispatched {A : Type} d author message (m : M A) :
  nested d m -> nested (S d) (tell (Dispatched author message);;; m).
Proof.
  intros Hm s. unfold bind, tell. specialize (Hm s).
  destruct (m s) as [[o s2] t2]. cbn [fst snd app] in *.
  change (dispatches (Dispatched author message :: t2))
    with ((author, message) :: dispatches t2).
  cbn [length]. lia.
Qed.

Lemma nested_dispatch d rc st author message :
  (forall account line, nested d (rc account line)) ->
  nested (S d) (dispatch st rc author message).
Proof.
  intros Hrc. unfold dispatch. apply nested_dispatched.
  destruct (Py.split message) as [|key inputs]; [apply nested_raise |].
  destruct (lookup st key) as [command|]; [| apply nested_reply].
  replace d with (d + 0) by lia. apply nested_try_except.
  - apply nested_bind; [apply nested_lift | intros parsed].
    now apply nested_call_func.
  - intros e k He. apply except_clauses_reply in He as [msg ->].
    apply nested_reply.
Qed.

End Depth.

(** X18. [run_command] ends on every line, and the proxies cannot nest
    without bound: a nested line has at least two words fewer than the line
    that carries it, so a line of [n] words enters [run_command] at most
    [1 + n / 2] times, the outermost entry included. *)
Theorem proxy_nesting_is_bounded `{Acc : Accounting}
  (author : Value) (message : string) (s : Server) :
  fst (fst (run_command author message s)) <> Exhausted
  /\ length (dispatches (snd (run_command author message s)))
     <= 1 + length (Py.split message) / 2.
Proof.
  split; [apply run_command_total |].
  remember (length (Py.split message)) as n eqn:Hn.
  revert author message s Hn.
  induction n as [n IH] using lt_wf_ind. intros author message s Hn.
  rewrite run_command_eq.
  pose (g := fun account line =>
               if length (Py.split line) + 2 <=? n
               then run_command account line
               else ret VNone).
  rewrite (dispatch_nested run_command g).
  - apply (nested_dispatch (n / 2)). intros account line s'. unfold g.
    destruct (Nat.leb_spec (length (Py.split line) + 2) n) as [Hle|Hgt];
      [| apply nested_ret].
    etransitivity; [apply (IH (length (Py.split line))); [lia | reflexivity] |].
    change 2 with (1 * 2) in Hle at 1.
    pose proof (Nat.Div0.div_le_mono _ _ 2 Hle) as Hdiv.
    rewrite Nat.div_add in Hdiv by lia. lia.
  - intros account line s' Hline. unfold g.
    destruct (Nat.leb_spec (length (Py.split line) + 2) n); [reflexivity | lia].
Qed.

(** * Further replies of the handlers *)

(** X19. [print-money] hands the service the account before the amount,
    and answers a [ValueCommandException] of the service in its own words:
    whatever the text of the exception says, the reply is that negative
    amounts cannot be printed, and no usage is shown.  When the service
    returns, the reply names the amount as a mixed number and the account. *)
Theorem print_money_replies `{Acc : Accounting}
  (author account : Value) (message a b : string) (more : list string)
  (amount : Q) (s s' : Server) (r : Exn + unit) :
  Py.split message = "print-money" :: a :: b :: more ->
  Py.Fraction a = inr amount ->
  parse_account_id b = inr account ->
  call_commands commands.print_money [author; account; VFrac amount] s
  = (r, s') ->
  let t := [ Dispatched author message;
             Invoked fn_print_money
               [author; VFrac amount; account; VStr (Py.join " " more)];
             Called commands.print_money [author; account; VFrac amount] ] in
  (forall e, r = inl e -> kind e = ValueCommandException ->
     run_command author message s
     = (Return (VStr "Invalid arguement: Cannot print negative amounts"),
        s', t))
  /\ (forall mixed, r = inr tt -> _mixed (VFrac amount) = inr mixed ->
        run_command author message s
        = (Return (VStr ("Printed " +:+ mixed +:+ " to " +:+ py_str account)),
           s', t)).
Proof.
  intros Hsplit Ha Hb Hcall t.
  rewrite (run_command_words author message "print-money" (a :: b :: more) _
             fn_print_money [CFraction; Cparse_account_id]
             [VFrac amount; account] s Hsplit eq_refl eq_refl eq_refl);
    [| cbn [map coerce_all coerce fst]; now rewrite Ha, Hb
     | cbn [length]; lia | reflexivity].
  cbn [body app length drop]. rewrite drop_0.
  unfold try_except, _print_money. rewrite try_call_run, Hcall.
  split.
  - intros e -> He. rewrite He. reflexivity.
  - intros mixed -> Hmixed. unfold bind. rewrite Hmixed. reflexivity.
Qed.

Lemma print_money_replies_witness :
  Py.split "print-money 3/2 zed" = ["print-money"; "3/2"; "zed"]
  /\ Py.Fraction "3/2" = inr (3 # 2)
  /\ parse_account_id (Accounting := Bank.accounting) "zed" = inr (VStr "zed")
  /\ call_commands (Accounting := Bank.accounting) commands.print_money
       [VStr "ann"; VStr "zed"; VFrac (3 # 2)] Bank.two
     = (inl (Bank.account_error "No such account"), Bank.two)
  /\ call_commands (Accounting := Bank.accounting) commands.print_money
       [VStr "ann"; VStr "ben"; VFrac (3 # 2)] Bank.two
     = (inr tt, [("ann", 5 # 1); ("ben", 3 # 2)])
  /\ _mixed (Acc := Bank.accounting) (VFrac (3 # 2)) = inr "1 1/2"
  /\ run_command (Acc := Bank.accounting) (VStr "ann") "print-money 3/2 ben"
       Bank.two
     = (Return (VStr "Printed 1 1/2 to ben"),
        [("ann", 5 # 1); ("ben", 3 # 2)],
        [ Dispatched (VStr "ann") "print-money 3/2 ben";
          Invoked fn_print_money [VStr "ann"; VFrac (3 # 2); VStr "ben"; VStr ""];
          Called commands.print_money
            [VStr "ann"; VStr "ben"; VFrac (3 # 2)] ]).
Proof.
  split; [reflexivity |]. split; [reflexivity |]. split; [reflexivity |].
  split; [reflexivity |]. split; [reflexivity |]. split; [reflexivity |].
  exact (proj2 (print_money_replies (Acc := Bank.accounting) (VStr "ann")
                  (VStr "ben") "print-money 3/2 ben" "3/2" "ben" [] (3 # 2)
                  Bank.two [("ann", 5 # 1); ("ben", 3 # 2)] (inr tt)
                  eq_refl eq_refl eq_refl eq_refl)
           "1 1/2" eq_refl eq_refl).
Defined.

(** X20. [farm-balance] joins the farms with the sentence "Your inventory
    contains " as the separator: the reply begins with the type of the
    first farm, the sentence stands between the farms, and for a single farm
    the reply is its type and a comma, without the sentence. *)
Theorem farm_balance_reply `{Acc : Accounting}
  (author account : Value) (message : string) (inputs : list string)
  (farm : Obj) (farms : list Obj) (s s' : Server) :
  Py.split message = "farm-balance" :: inputs ->
  match inputs with
  | [] => inr author
  | t :: _ => parse_account_id t
  end = inr account ->
  call_commands commands.get_farm_balance [author; account] s
  = (inr (farm :: farms), s') ->
  run_command author message s
  = (Return (VStr (type_name farm +:+ ", "
                   +:+ match farms with
                       | [] => ""
                       | _ =>
                           "Your inventory contains "
                           +:+ Py.join "Your inventory contains "
                                 (map (fun farm => type_name farm +:+ ", ")
                                    farms)
                       end)), s',
     [ Dispatched author message;
       Invoked fn_farm_balance [author; VStr (Py.join " " inputs)];
       Called commands.get_farm_balance [author; account] ]).
Proof.
  intros Hsplit Haccount Hcall.
  pose proof (split_words message) as Hw. rewrite Hsplit in Hw.
  apply Forall_cons in Hw as [_ Hw].
  rewrite (run_command_words author message "farm-balance" inputs _
             fn_farm_balance [] [] s Hsplit eq_refl eq_refl eq_refl eq_refl);
    [| cbn [length]; lia | reflexivity].
  cbn [body app length drop]. rewrite drop_0.
  unfold try_except, _farm_balance, bind.
  rewrite (account_of_rest_words _ _ Hw), Haccount. cbn [lift ret].
  rewrite call_run, Hcall. cbn [fst snd map Py.join].
  destruct farms as [|farm' farms].
  - reflexivity.
  - cbn [map]. now rewrite append_assoc.
Qed.

Lemma farm_balance_reply_witness :
  Py.split "farm-balance ben" = ["farm-balance"; "ben"]
  /\ parse_account_id (Accounting := Bank.accounting) "ben" = inr (VStr "ben")
  /\ call_commands (Accounting := Bank.accounting) commands.get_farm_balance
       [VStr "ann"; VStr "ben"] Bank.two
     = (inr [1%N; 2%N], Bank.two)
  /\ run_command (Acc := Bank.accounting) (VStr "ann") "farm-balance ben"
       Bank.two
     = (Return (VStr "wheat, Your inventory contains corn, "), Bank.two,
        [ Dispatched (VStr "ann") "farm-balance ben";
          Invoked fn_farm_balance [VStr "ann"; VStr "ben"];
          Called commands.get_farm_balance [VStr "ann"; VStr "ben"] ]).
Proof.
  split; [reflexivity |]. split; [reflexivity |]. split; [reflexivity |].
  exact (farm_balance_reply (Acc := Bank.accounting) (VStr "ann") (VStr "ben")
           "farm-balance ben" ["ben"] 1%N [2%N] Bank.two Bank.two
           eq_refl eq_refl eq_refl).
Defined.
